(** * NexaCoin monitor: detection and redistribution pipeline

    A shallow embedding of the Python sources [utils.py], [config.py],
    [transfer_processor.py], [transaction_monitor.py] and of the worker
    loop, the configuration reader and the in-memory log of [main.py], with
    the properties of the pipeline stated over it.

    - Python [int] is [Z]; Python [float] is IEEE 754 binary64, given by
      the [spec_float] operations of the standard library at precision 53.
    - A raised exception is the [Raise] outcome of a computation; the
      [try]/[except Exception] blocks of the source are [try_except].
    - Calls to the ledger RPC client, [time.sleep] and the logger are the
      events of a small interaction tree; an environment answers them. *)

From Stdlib Require Import ZArith List String Ascii Bool Lia DecimalString.
From Stdlib Require Import SpecFloat.
Import ListNotations.
Open Scope string_scope.
Open Scope list_scope.
Open Scope Z_scope.

Notation "s +++ t" := (String.append s t) (at level 60, right associativity).


(* ================================================================= *)
(** ** Python values: exceptions, floats, integer conversions *)

Module Py.

(** The exception classes the modelled code can meet, each with the message
    that [str(e)] gives; [RpcError] stands for whatever the RPC library
    raises. *)
Inductive exn : Type :=
| OverflowError (msg : string)
| ValueError (msg : string)
| ZeroDivisionError (msg : string)
| IndexError (msg : string)
| RpcError (msg : string).

(** Outcome of a Python expression or call. *)
Inductive result (A : Type) : Type :=
| Ok (a : A)
| Raise (e : exn).
Arguments Ok {A} a.
Arguments Raise {A} e.

Definition rbind {A B} (r : result A) (k : A -> result B) : result B :=
  match r with
  | Ok a => k a
  | Raise e => Raise e
  end.

(** binary64 *)
Definition prec : Z := 53.
Definition emax : Z := 1024.
Definition float : Type := spec_float.

Definition fmul : float -> float -> float := SFmul prec emax.
Definition fadd : float -> float -> float := SFadd prec emax.
Definition fsub : float -> float -> float := SFsub prec emax.
Definition fabs : float -> float := SFabs.
Definition fgt (x y : float) : bool := SFltb y x.
Definition fle (x y : float) : bool := SFleb x y.

(** [float(n)] for a Python int: the nearest binary64, ties to even;
    CPython raises [OverflowError] when the int is too large. *)
Definition float_of_int (n : Z) : result float :=
  match binary_normalize prec emax n 0 false with
  | S754_infinity _ => Raise (OverflowError "int too large to convert to float")
  | S754_nan => Raise (OverflowError "int too large to convert to float")
  | f => Ok f
  end.

(** [x / y] on floats: [ZeroDivisionError] on a zero divisor. *)
Definition fdiv (x y : float) : result float :=
  match y with
  | S754_zero _ => Raise (ZeroDivisionError "float division by zero")
  | _ => Ok (SFdiv prec emax x y)
  end.

(** [int(x)] for a float: truncation toward zero; [ValueError] on NaN and
    [OverflowError] on an infinity. *)
Definition int_of_float (x : float) : result Z :=
  match x with
  | S754_zero _ => Ok 0
  | S754_nan => Raise (ValueError "cannot convert float NaN to integer")
  | S754_infinity _ => Raise (OverflowError "cannot convert float infinity to integer")
  | S754_finite s m e =>
      let mag := match e with
                 | Zneg k => Z.shiftr (Zpos m) (Zpos k)
                 | _ => Z.shiftl (Zpos m) e
                 end in
      Ok (if s then - mag else mag)
  end.

(** A decimal literal [n / 10^k] such as [100.0] or [0.01]: the nearest
    binary64, which is what a correctly rounded division of the two
    exactly representable integers gives. *)
Definition literal (n : Z) (k : nat) : float :=
  SFdiv prec emax (binary_normalize prec emax n 0 false)
                  (binary_normalize prec emax (10 ^ Z.of_nat k) 0 false).

Definition f100 : float := literal 100 0.
Definition f0_01 : float := literal 1 2.

(** [n * x] with [n] an int and [x] a float. *)
Definition int_mul_float (n : Z) (x : float) : result float :=
  rbind (float_of_int n) (fun fn => Ok (fmul fn x)).

(** The expression [int(amount * (p / 100.0))] that every split of the
    repository uses. *)
Definition share (amount : Z) (p : float) : result Z :=
  rbind (fdiv p f100) (fun q =>
  rbind (int_mul_float amount q) int_of_float).

(** [sum(xs)] over floats, left to right from the int [0]. *)
Definition fsum (xs : list float) : float :=
  fold_left fadd xs (S754_zero false).

End Py.

Import Py.

(* ================================================================= *)
(** ** utils.py *)

(** The test under which [split_amount_by_percentage] logs its warning, the
    only effect it has besides the list it returns.  ([sum] adds from the
    left here; the compensated sum of recent CPython can differ in the last
    bit.) *)
Definition percentages_warning (percentages : list float) : bool :=
  fgt (fabs (fsub (fsum percentages) f100)) f0_01.

Fixpoint shares (amount : Z) (percentages : list float) : result (list Z) :=
  match percentages with
  | [] => Ok []
  | p :: ps =>
      rbind (share amount p) (fun a =>
      rbind (shares amount ps) (fun l => Ok (a :: l)))
  end.

Definition zsum (l : list Z) : Z := fold_right Z.add 0 l.

(** [amounts[-1] += d]: [IndexError] on the empty list. *)
Fixpoint add_to_last (l : list Z) (d : Z) : result (list Z) :=
  match l with
  | [] => Raise (IndexError "list index out of range")
  | [x] => Ok [x + d]
  | x :: xs => rbind (add_to_last xs d) (fun r => Ok (x :: r))
  end.

Definition split_amount_by_percentage (amount : Z) (percentages : list float)
  : result (list Z) :=
  rbind (shares amount percentages) (fun amounts =>
  let total_allocated := zsum amounts in
  if negb (total_allocated =? amount)
  then add_to_last amounts (amount - total_allocated)
  else Ok amounts).

(* ================================================================= *)
(** ** config.py *)

Record Config : Type := {
  MONITORED_ACCOUNT : string;
  NEXACOIN_MINT : string;
  BURN_PERCENTAGE : float;
  TREASURY_PERCENTAGE : float;
  FEE_PERCENTAGE : float;
  BURN_ADDRESS : string;
  TREASURY_ADDRESS : string;
  FEE_ADDRESS : string;
  MIN_TRANSFER_AMOUNT : Z;
  CONFIRMATION_TIMEOUT : Z;
  POLLING_INTERVAL : float;
  ERROR_RETRY_INTERVAL : float
}.

(** The check of [Config.__init__] on the three percentages; a config for
    which it fails raises [ValueError] and no component is ever built. *)
Definition percentages_valid (cfg : Config) : bool :=
  negb (fgt (fabs (fsub (fadd (fadd (BURN_PERCENTAGE cfg) (TREASURY_PERCENTAGE cfg))
                               (FEE_PERCENTAGE cfg)) f100)) f0_01).

(* ================================================================= *)
(** ** Outbound transactions (solana.transaction, solders.instruction) *)

Record PublicKey : Type := { key_str : string }.

Record AccountMeta : Type := {
  pubkey : PublicKey;
  is_signer : bool;
  is_writable : bool
}.

Record Instruction : Type := {
  program_id : PublicKey;
  accounts : list AccountMeta;
  data : list Byte.byte
}.

Record Transaction : Type := {
  recent_blockhash : string;
  instructions : list Instruction
}.

Definition byte_of_Z (z : Z) : Byte.byte :=
  match Byte.of_N (Z.to_N (z mod 256)) with
  | Some b => b
  | None => Byte.x00
  end.

Definition Z_of_byte (b : Byte.byte) : Z := Z.of_N (Byte.to_N b).

Fixpoint le_bytes (len : nat) (n : Z) : list Byte.byte :=
  match len with
  | O => []
  | S len' => byte_of_Z n :: le_bytes len' (n / 256)
  end.

(** [n.to_bytes(length, byteorder='little')]: unsigned, [OverflowError] when
    [n] is negative or does not fit. *)
Definition to_bytes_little (n : Z) (length : nat) : result (list Byte.byte) :=
  if (0 <=? n) && (n <? 256 ^ Z.of_nat length)
  then Ok (le_bytes length n)
  else Raise (OverflowError (if n <? 0
                             then "can't convert negative int to unsigned"
                             else "int too big to convert")).

(** Reading a byte string as a little-endian unsigned integer. *)
Fixpoint le_value (bs : list Byte.byte) : Z :=
  match bs with
  | [] => 0
  | b :: bs' => Z_of_byte b + 256 * le_value bs'
  end.

Definition TOKEN_PROGRAM_ID : string :=
  "TokenkegQfeZyiNwAJbNbGKPFXCWuBvf9Ss623VQ5DA".

(* ================================================================= *)
(** ** Inbound transaction records (the JSON of [get_transaction]) *)

(** A key that [dict.get] may find missing is an [option] field. *)
Record TokenBalance : Type := {
  accountIndex : nat;
  mint : option string;
  uiAmount : option Z      (* int(uiTokenAmount.amount); None: key missing *)
}.

Record RawInstruction : Type := {
  programId : option string;
  idata : option string
}.

Record RawTransaction : Type := {
  err : option string;                 (* meta.err; None is JSON null *)
  preTokenBalances : list TokenBalance;
  postTokenBalances : list TokenBalance;
  raw_instructions : list RawInstruction;
  accountKeys : list string;
  signatures : option (list string);
  blockTime : Z
}.

Record SigInfo : Type := { signature : string }.

Record TransferDetails : Type := {
  transaction_id : string;
  destination : string;
  amount : Z;
  timestamp : Z
}.

(* ================================================================= *)
(** ** Effects: RPC client, clock and logger as events *)

Inductive Level : Type := INFO | WARNING | ERROR | CRITICAL.

Inductive seconds : Type :=
| IntSeconds (n : Z)
| FloatSeconds (x : float).

(** The methods of [SolanaClient] (they re-raise what the RPC library
    raises, except [confirm_transaction], which answers [False] instead),
    [time.sleep], the hourly refresh test on [time.time()], the stop flag and
    the logger. *)
Inductive Event : Type -> Type :=
| get_token_accounts_by_owner (owner token_mint : string)
    : Event (result (list string))
| get_signatures_for_address (account : string) (before : option string)
    (limit : Z) : Event (result (list SigInfo))
| get_transaction (sig : string) : Event (result (option RawTransaction))
| get_recent_blockhash : Event (result string)
| send_transaction (tx : Transaction) : Event (result string)
| confirm_transaction (sig : string) (timeout : Z) : Event bool
| sleep (d : seconds) : Event unit
| refresh_due (polling_interval : float) : Event bool
| stop_is_set : Event bool
| log (lvl : Level) (msg : string) : Event unit.

Inductive Prog (R : Type) : Type :=
| Ret (r : R)
| Vis (X : Type) (e : Event X) (k : X -> Prog R).
Arguments Ret {R} r.
Arguments Vis {R X} e k.

Fixpoint bind {A B} (p : Prog A) (f : A -> Prog B) : Prog B :=
  match p with
  | Ret a => f a
  | Vis e k => Vis e (fun x => bind (k x) f)
  end.

Definition trigger {X} (e : Event X) : Prog X := Vis e Ret.

(** Sequencing inside a [try] block: the first exception ends the block. *)
Definition tbind {A B} (p : Prog (result A)) (f : A -> Prog (result B))
  : Prog (result B) :=
  bind p (fun r => match r with
                   | Ok a => f a
                   | Raise e => Ret (Raise e)
                   end).

(** [try: body  except Exception as e: handler(e)] *)
Definition try_except {A} (body : Prog (result A)) (handler : exn -> Prog A)
  : Prog A :=
  bind body (fun r => match r with
                      | Ok a => Ret a
                      | Raise e => handler e
                      end).

Declare Scope prog_scope.
Delimit Scope prog_scope with prog.
Notation "x <- c ;; k" := (bind c (fun x => k))
  (at level 61, c at next level, right associativity) : prog_scope.
Notation "c ;; k" := (bind c (fun _ => k))
  (at level 61, right associativity) : prog_scope.
Notation "x <-! c ;; k" := (tbind c (fun x => k))
  (at level 61, c at next level, right associativity) : prog_scope.
Open Scope prog_scope.

(** *** Environments and runs *)

Record Call : Type := call {
  call_type : Type;
  call_event : Event call_type;
  call_answer : call_type
}.
Arguments call {call_type} call_event call_answer.

(** An environment answers an event knowing every earlier call, latest first. *)
Definition Env : Type := list Call -> forall X, Event X -> X.

(** [run env p h]: the result of [p] and the history after it, latest call
    first, when [p] starts after the calls [h]. *)
Fixpoint run {R} (env : Env) (p : Prog R) (h : list Call) : R * list Call :=
  match p with
  | Ret r => (r, h)
  | Vis e k => let x := env h _ e in run env (k x) (call e x :: h)
  end.

(** The calls of a run in the order they were made. *)
Definition trace {R} (env : Env) (p : Prog R) : list Call :=
  rev (snd (run env p [])).

Definition outcome {R} (env : Env) (p : Prog R) : R := fst (run env p []).

(* ================================================================= *)
(** ** transfer_processor.py *)

(** [str(n)] and [str(e)] as the f-strings of the log messages need them. *)
Definition str_of_int (n : Z) : string := NilZero.string_of_int (Z.to_int n).

Definition str_of_exn (e : exn) : string :=
  match e with
  | OverflowError msg => msg
  | ValueError msg => msg
  | ZeroDivisionError msg => msg
  | IndexError msg => msg
  | RpcError msg => msg
  end.

(** Truth value of a string, and of an optional string ([None] or [str]). *)
Definition truthy (s : string) : bool := negb (String.eqb s "").

Definition truthy_opt (o : option string) : bool :=
  match o with
  | Some s => truthy s
  | None => false
  end.

Record SolanaClient : Type := {
  keypair_public_key : PublicKey
}.

Record TransferProcessor : Type := {
  config : Config;
  solana_client : SolanaClient
}.

Definition burn_percentage (self : TransferProcessor) := BURN_PERCENTAGE (config self).
Definition treasury_percentage (self : TransferProcessor) := TREASURY_PERCENTAGE (config self).
Definition fee_percentage (self : TransferProcessor) := FEE_PERCENTAGE (config self).
Definition burn_address (self : TransferProcessor) := BURN_ADDRESS (config self).
Definition treasury_address (self : TransferProcessor) := TREASURY_ADDRESS (config self).
Definition fee_address (self : TransferProcessor) := FEE_ADDRESS (config self).

(** The two messages [process_transfer] logs at level INFO. *)
Definition processing_message (transfer_details : TransferDetails) : string :=
  "Processing transfer: " +++ str_of_int (amount transfer_details)
  +++ " NexaCoin sent to " +++ destination transfer_details
  +++ " (Transaction ID: " +++ transaction_id transfer_details +++ ")".

Definition plan_message (burn_amount treasury_amount fee_amount : Z) : string :=
  "Redistribution plan: Burn: " +++ str_of_int burn_amount
  +++ ", Treasury: " +++ str_of_int treasury_amount
  +++ ", Fee: " +++ str_of_int fee_amount.

(** [PublicKey(s)] of the ledger library raises [ValueError] on a malformed
    address; which strings are well formed, and the message of the error,
    are the library's business. *)
Record AddressCheck : Type := {
  well_formed :> string -> bool;
  malformed_message : string -> string
}.

Section Processor.

Variable valid_address : AddressCheck.

Definition PublicKey_of (s : string) : result PublicKey :=
  if valid_address s
  then Ok {| key_str := s |}
  else Raise (ValueError (malformed_message valid_address s)).

Definition _build_token_transfer_transaction (self : TransferProcessor)
  (source destination : string) (amount : Z) : Prog (result Transaction) :=
  r <- (recent_blockhash <-! trigger get_recent_blockhash ;;
        let token_program_id := {| key_str := TOKEN_PROGRAM_ID |} in
        source_pubkey <-! Ret (PublicKey_of source) ;;
        dest_pubkey <-! Ret (PublicKey_of destination) ;;
        let owner_pubkey := keypair_public_key (solana_client self) in
        amount_bytes <-! Ret (to_bytes_little amount 8) ;;
        let data := Byte.x03 :: amount_bytes in
        let instruction :=
          {| program_id := token_program_id;
             accounts :=
               [ {| pubkey := source_pubkey; is_signer := false; is_writable := true |};
                 {| pubkey := dest_pubkey; is_signer := false; is_writable := true |};
                 {| pubkey := owner_pubkey; is_signer := true; is_writable := false |} ];
             data := data |} in
        Ret (Ok {| recent_blockhash := recent_blockhash;
                   instructions := [instruction] |})) ;;
  match r with
  | Ok transaction => Ret (Ok transaction)
  | Raise e =>
      trigger (log ERROR ("Error building token transfer transaction: " +++ str_of_exn e)) ;;
      Ret (Raise e)
  end.

Definition _find_token_account_for_owner (self : TransferProcessor)
  (owner_address : string) : Prog (option string) :=
  try_except
    (accounts <-! trigger (get_token_accounts_by_owner owner_address
                             (NEXACOIN_MINT (config self))) ;;
     match accounts with
     | [] =>
         trigger (log WARNING ("No NexaCoin token accounts found for " +++ owner_address)) ;;
         Ret (Ok None)
     | first :: _ => Ret (Ok (Some first))
     end)
    (fun e =>
       trigger (log ERROR ("Error finding token account for " +++ owner_address
                           +++ ": " +++ str_of_exn e)) ;;
       Ret None).

(** The loop [for tx_type, transaction, amount in transactions]. *)
Fixpoint execute_transactions (self : TransferProcessor)
  (transactions : list (string * Transaction * Z)) (success : bool) : Prog bool :=
  match transactions with
  | [] => Ret success
  | (tx_type, transaction, amount) :: rest =>
      success' <-
        try_except
          (signature <-! trigger (send_transaction transaction) ;;
           confirmed <- trigger (confirm_transaction signature
                                   (CONFIRMATION_TIMEOUT (config self))) ;;
           if confirmed : bool
           then
             trigger (log INFO (tx_type +++ " transaction successful: "
                                +++ str_of_int amount +++ " NexaCoin, signature: "
                                +++ signature)) ;;
             Ret (Ok success)
           else
             trigger (log WARNING (tx_type
                                   +++ " transaction timed out waiting for confirmation")) ;;
             Ret (Ok false))
          (fun e =>
             trigger (log ERROR ("Error executing " +++ tx_type +++ " transaction: "
                                 +++ str_of_exn e)) ;;
             Ret false) ;;
      trigger (sleep (IntSeconds 1)) ;;
      execute_transactions self rest success'
  end.

(** One [if amount > 0: tx = build(...); transactions.append(...)] block. *)
Definition build_leg (self : TransferProcessor) (tx_type source_token_account : string)
  (token_account : string) (leg_amount : Z)
  (transactions : list (string * Transaction * Z))
  : Prog (result (list (string * Transaction * Z))) :=
  if leg_amount >? 0
  then
    tx <-! _build_token_transfer_transaction self source_token_account
             token_account leg_amount ;;
    Ret (Ok (transactions ++ [(tx_type, tx, leg_amount)]))
  else Ret (Ok transactions).

Definition _execute_redistribution (self : TransferProcessor)
  (source_token_account : string) (burn_amount treasury_amount fee_amount : Z)
  : Prog bool :=
  try_except
    (burn_token_account <- _find_token_account_for_owner self (burn_address self) ;;
     treasury_token_account <- _find_token_account_for_owner self (treasury_address self) ;;
     fee_token_account <- _find_token_account_for_owner self (fee_address self) ;;
     match burn_token_account, treasury_token_account, fee_token_account with
     | Some burn_acc, Some treasury_acc, Some fee_acc =>
         if truthy burn_acc && truthy treasury_acc && truthy fee_acc
         then
           transactions <-! build_leg self "Burn" source_token_account
                              burn_acc burn_amount [] ;;
           transactions <-! build_leg self "Treasury" source_token_account
                              treasury_acc treasury_amount transactions ;;
           transactions <-! build_leg self "Fee" source_token_account
                              fee_acc fee_amount transactions ;;
           success <- execute_transactions self transactions true ;;
           Ret (Ok success)
         else
           trigger (log ERROR "Failed to find all required token accounts for redistribution") ;;
           Ret (Ok false)
     | _, _, _ =>
         trigger (log ERROR "Failed to find all required token accounts for redistribution") ;;
         Ret (Ok false)
     end)
    (fun e =>
       trigger (log ERROR ("Error executing redistribution: " +++ str_of_exn e)) ;;
       Ret false).

(** Lines 77-86 of [process_transfer]: the three floors and the one-sided
    correction of the fee. *)
Definition redistribution_plan (self : TransferProcessor) (amount : Z)
  : result (Z * Z * Z) :=
  rbind (share amount (burn_percentage self)) (fun burn_amount =>
  rbind (share amount (treasury_percentage self)) (fun treasury_amount =>
  rbind (share amount (fee_percentage self)) (fun fee_amount =>
  let total := burn_amount + treasury_amount + fee_amount in
  let fee_amount := if total >? amount
                    then fee_amount - (total - amount)
                    else fee_amount in
  Ok (burn_amount, treasury_amount, fee_amount)))).

Definition process_transfer (self : TransferProcessor)
  (transfer_details : TransferDetails) : Prog bool :=
  try_except
    (let amount := amount transfer_details in
     let destination := destination transfer_details in
     trigger (log INFO (processing_message transfer_details)) ;;
     if amount <? MIN_TRANSFER_AMOUNT (config self)
     then
       trigger (log INFO ("Transfer amount " +++ str_of_int amount
                          +++ " is below minimum threshold ("
                          +++ str_of_int (MIN_TRANSFER_AMOUNT (config self))
                          +++ "). Skipping redistribution.")) ;;
       Ret (Ok false)
     else
       plan <-! Ret (redistribution_plan self amount) ;;
       let '(burn_amount, treasury_amount, fee_amount) := plan in
       trigger (log INFO (plan_message burn_amount treasury_amount fee_amount)) ;;
       r <- _execute_redistribution self destination
              burn_amount treasury_amount fee_amount ;;
       Ret (Ok r))
    (fun e =>
       trigger (log ERROR ("Error processing transfer: " +++ str_of_exn e)) ;;
       Ret false).

End Processor.

(* ================================================================= *)
(** ** transaction_monitor.py *)

(** The attributes of [TransactionMonitor] that are assigned after
    construction; [last_signature] is the pagination cursor. *)
Record MonitorState : Type := {
  last_signature : option string;
  token_accounts : list string
}.

Record TransactionMonitor : Type := {
  mconfig : Config;
  transfer_processor : TransferProcessor
}.

Definition monitored_account (self : TransactionMonitor) := MONITORED_ACCOUNT (mconfig self).
Definition nexacoin_mint (self : TransactionMonitor) := NEXACOIN_MINT (mconfig self).

Definition set_last_signature (st : MonitorState) (s : string) : MonitorState :=
  {| last_signature := Some s; token_accounts := token_accounts st |}.

Definition set_token_accounts (st : MonitorState) (l : list string) : MonitorState :=
  {| last_signature := last_signature st; token_accounts := l |}.

(** [x == s] where [x] is [None] or a string. *)
Definition opt_eqb (x : option string) (s : string) : bool :=
  match x with
  | Some y => String.eqb y s
  | None => false
  end.

Definition in_list (s : string) (l : list string) : bool :=
  existsb (String.eqb s) l.

Definition default_to {A} (d : A) (o : option A) : A :=
  match o with
  | Some a => a
  | None => d
  end.

(** *** Classification of a record *)

(** [instruction.get("programId") == token_program_id and
     instruction.get("data", "").startswith("3")] *)
Definition is_transfer_instruction (i : RawInstruction) : bool :=
  opt_eqb (programId i) TOKEN_PROGRAM_ID
  && String.prefix "3" (default_to "" (idata i)).

Fixpoint scan_instructions (mint_seen : bool) (instrs : list RawInstruction) : bool :=
  match instrs with
  | [] => false
  | i :: rest =>
      if is_transfer_instruction i
      then if mint_seen then true else scan_instructions mint_seen rest
      else scan_instructions mint_seen rest
  end.

Definition _is_nexacoin_transfer (self : TransactionMonitor)
  (transaction : RawTransaction) : bool :=
  match err transaction with
  | Some _ => false
  | None =>
      scan_instructions
        (existsb (fun balance => opt_eqb (mint balance) (nexacoin_mint self))
                 (postTokenBalances transaction ++ preTokenBalances transaction))
        (raw_instructions transaction)
  end.

(** Python dicts keep the position of the first insertion of a key and the
    value of the last. *)
Fixpoint dict_set {V} (d : list (nat * V)) (k : nat) (v : V) : list (nat * V) :=
  match d with
  | [] => [(k, v)]
  | (k', v') :: d' =>
      if Nat.eqb k k' then (k, v) :: d' else (k', v') :: dict_set d' k v
  end.

Fixpoint dict_get {V} (d : list (nat * V)) (k : nat) : option V :=
  match d with
  | [] => None
  | (k', v') :: d' => if Nat.eqb k k' then Some v' else dict_get d' k
  end.

(** [{b.get("accountIndex"): b for b in balances}] *)
Definition by_account_index (balances : list TokenBalance)
  : list (nat * TokenBalance) :=
  fold_left (fun d b => dict_set d (accountIndex b) b) balances [].

Definition balance_amount (b : option TokenBalance) : Z :=
  match b with
  | Some b => default_to 0 (uiAmount b)
  | None => 0
  end.

(** The loop [for idx, post_balance in post_balances.items()], up to the
    membership test that precedes the [return]. *)
Fixpoint find_credit (self : TransactionMonitor) (st : MonitorState)
  (pre_balances : list (nat * TokenBalance)) (account_keys : list string)
  (items : list (nat * TokenBalance)) : option (string * Z) :=
  match items with
  | [] => None
  | (idx, post_balance) :: rest =>
      if negb (opt_eqb (mint post_balance) (nexacoin_mint self))
      then find_credit self st pre_balances account_keys rest
      else
        let pre_amount := balance_amount (dict_get pre_balances idx) in
        let post_amount := balance_amount (Some post_balance) in
        if post_amount >? pre_amount
        then
          let account_index := accountIndex post_balance in
          if (account_index <? List.length account_keys)%nat
          then
            let transfer_to := nth account_index account_keys "" in
            let transfer_amount := post_amount - pre_amount in
            if in_list transfer_to (token_accounts st)
            then Some (transfer_to, transfer_amount)
            else find_credit self st pre_balances account_keys rest
          else find_credit self st pre_balances account_keys rest
        else find_credit self st pre_balances account_keys rest
  end.

(** [transaction.get("transaction", {}).get("signatures", [""])[0]] *)
Definition first_signature (transaction : RawTransaction) : result string :=
  match signatures transaction with
  | None => Ok ""
  | Some [] => Raise (IndexError "list index out of range")
  | Some (s :: _) => Ok s
  end.

Definition _extract_transfer_details (self : TransactionMonitor) (st : MonitorState)
  (transaction : RawTransaction) : Prog (option TransferDetails) :=
  let pre_balances := by_account_index (preTokenBalances transaction) in
  let post_balances := by_account_index (postTokenBalances transaction) in
  match find_credit self st pre_balances (accountKeys transaction) post_balances with
  | Some (transfer_to, transfer_amount) =>
      trigger (log INFO ("Detected incoming NexaCoin transfer: "
                         +++ str_of_int transfer_amount +++ " to " +++ transfer_to)) ;;
      match first_signature transaction with
      | Ok sig =>
          Ret (Some {| transaction_id := sig;
                       destination := transfer_to;
                       amount := transfer_amount;
                       timestamp := blockTime transaction |})
      | Raise e =>
          trigger (log ERROR ("Error extracting transfer details: " +++ str_of_exn e)) ;;
          Ret None
      end
  | None => Ret None
  end.

(** The test and extraction of lines 119-121. *)
Definition classify (self : TransactionMonitor) (st : MonitorState)
  (transaction : RawTransaction) : Prog (option TransferDetails) :=
  if _is_nexacoin_transfer self transaction
  then _extract_transfer_details self st transaction
  else Ret None.

Section Monitor.

Variable valid_address : AddressCheck.

(** *** Scanning an account *)

(** The loop [for sig_info in reversed(signatures)]; [signatures] is the
    fetched page, [todo] what is left of its reversal.  The cursor lives in
    the state and is read again at every iteration. *)
Fixpoint scan_signatures (self : TransactionMonitor) (signatures todo : list SigInfo)
  (st : MonitorState) : Prog (result unit * MonitorState) :=
  match todo with
  | [] => Ret (Ok tt, st)
  | sig_info :: rest =>
      if opt_eqb (last_signature st) (signature sig_info)
      then scan_signatures self signatures rest st
      else
        match signatures with
        | [] => Ret (Raise (IndexError "list index out of range"), st)
        | newest :: _ =>
            let st := set_last_signature st (signature newest) in
            r <- trigger (get_transaction (signature sig_info)) ;;
            match r with
            | Raise e => Ret (Raise e, st)
            | Ok None => scan_signatures self signatures rest st
            | Ok (Some transaction) =>
                transfer_details <- classify self st transaction ;;
                match transfer_details with
                | Some details =>
                    process_transfer valid_address (transfer_processor self) details ;;
                    scan_signatures self signatures rest st
                | None => scan_signatures self signatures rest st
                end
            end
        end
  end.

Definition _check_account_transactions (self : TransactionMonitor) (account : string)
  (st : MonitorState) : Prog MonitorState :=
  r <- (fetched <- trigger (get_signatures_for_address account (last_signature st) 20) ;;
        match fetched with
        | Raise e => Ret (Raise e, st)
        | Ok [] => Ret (Ok tt, st)
        | Ok ((newest :: _) as signatures) =>
            if negb (truthy_opt (last_signature st))
            then
              let st := set_last_signature st (signature newest) in
              trigger (log INFO ("Initial signature set to " +++ signature newest)) ;;
              Ret (Ok tt, st)
            else scan_signatures self signatures (rev signatures) st
        end) ;;
  match r with
  | (Ok _, st) => Ret st
  | (Raise e, st) =>
      trigger (log ERROR ("Error checking transactions for " +++ account
                          +++ ": " +++ str_of_exn e)) ;;
      Ret st
  end.

Definition _get_monitored_token_accounts (self : TransactionMonitor)
  : Prog (list string) :=
  try_except
    (accounts <-! trigger (get_token_accounts_by_owner (monitored_account self)
                             (nexacoin_mint self)) ;;
     Ret (Ok accounts))
    (fun e =>
       trigger (log ERROR ("Error getting token accounts: " +++ str_of_exn e)) ;;
       Ret []).

(** [__init__]: the cursor starts unset, one cursor for the monitor. *)
Definition TransactionMonitor__init__ (self : TransactionMonitor) : Prog MonitorState :=
  accounts <- _get_monitored_token_accounts self ;;
  match accounts with
  | [] =>
      trigger (log WARNING ("No NexaCoin token accounts found for "
                            +++ monitored_account self))
  | _ =>
      trigger (log INFO ("Monitoring " +++ str_of_int (Z.of_nat (List.length accounts))
                         +++ " NexaCoin token accounts for " +++ monitored_account self))
  end ;;
  Ret {| last_signature := None; token_accounts := accounts |}.

Fixpoint check_token_accounts (self : TransactionMonitor) (accounts : list string)
  (st : MonitorState) : Prog MonitorState :=
  match accounts with
  | [] => Ret st
  | token_account :: rest =>
      st <- _check_account_transactions self token_account st ;;
      check_token_accounts self rest st
  end.

(** [set(a) != set(b)] *)
Definition set_neqb (a b : list string) : bool :=
  negb (forallb (fun x => in_list x b) a && forallb (fun x => in_list x a) b).

Definition check_for_new_transactions (self : TransactionMonitor) (st : MonitorState)
  : Prog MonitorState :=
  st <- _check_account_transactions self (monitored_account self) st ;;
  st <- check_token_accounts self (token_accounts st) st ;;
  due <- trigger (refresh_due (POLLING_INTERVAL (mconfig self))) ;;
  if due : bool
  then
    new_accounts <- _get_monitored_token_accounts self ;;
    if set_neqb new_accounts (token_accounts st)
    then
      trigger (log INFO ("Token accounts updated: "
                         +++ str_of_int (Z.of_nat (List.length new_accounts))
                         +++ " accounts found")) ;;
      Ret (set_token_accounts st new_accounts)
    else Ret st
  else Ret st.

End Monitor.

(* ================================================================= *)
(** ** main.py: the worker loop *)

(** How a pass through the body of [while True] ends: with the next pass,
    with the [break], or with an exception that leaves the loop for the
    outer [except] of [monitor_bot]. *)
Inductive LoopCtl : Type :=
| Continue
| Break
| Escape (e : exn).

Definition simulate_transaction_check (cfg : Config) : Prog (result bool) :=
  trigger (log INFO ("Checking for new transactions on account "
                     +++ MONITORED_ACCOUNT cfg)) ;;
  Ret (Ok false).

Section Worker.

(** The state the check of a tick works on, and the check itself: the
    simulated check of [main.py], or the scan cycle that it stands in
    for. *)
Variable State : Type.
Variable check : State -> Prog (result bool * State).
Variable cfg : Config.

(** [time.sleep(d)] raises instead of sleeping when [d] is negative or NaN
    ([ValueError]) or too large for the clock ([OverflowError]):
    [sleep_error d] is the exception, [None] for an interval that is slept.
    Where the bound lies, and the messages, are the interpreter's. *)
Variable sleep_error : float -> option exn.

Definition time_sleep (d : float) : Prog (result unit) :=
  match sleep_error d with
  | Some e => Ret (Raise e)
  | None => trigger (sleep (FloatSeconds d)) ;; Ret (Ok tt)
  end.

(** One pass through the body of [while True].  An error message goes to
    the logger twice, from [logger.error] and from [add_log].  (The status
    that the web pages show is not part of the model.) *)
Definition monitor_bot_iteration (st : State) : Prog (LoopCtl * State) :=
  stop <- trigger stop_is_set ;;
  if stop : bool
  then
    trigger (log INFO "Stop event received. Shutting down...") ;;
    Ret (Break, st)
  else
    r <- check st ;;
    let '(found_tx, st) := r in
    r <- (_ <-! Ret found_tx ;;
          time_sleep (POLLING_INTERVAL cfg)) ;;
    match r with
    | Ok _ => Ret (Continue, st)
    | Raise e =>
        let error_msg := "Error in main monitoring loop: " +++ str_of_exn e in
        trigger (log ERROR error_msg) ;;
        trigger (log ERROR error_msg) ;;
        r <- time_sleep (ERROR_RETRY_INTERVAL cfg) ;;
        match r with
        | Ok _ => Ret (Continue, st)
        | Raise e => Ret (Escape e, st)
        end
    end.

(** [ticks] passes through the loop, and what follows it in [monitor_bot]:
    [Some 0] when the loop was left by its [break], [Some 1] when an
    exception left it and the outer [except] logged it (both are return
    values of [monitor_bot]), [None] while the loop is still running. *)
Fixpoint monitor_bot_loop (ticks : nat) (st : State) : Prog (option Z * State) :=
  match ticks with
  | O => Ret (None, st)
  | S n =>
      r <- monitor_bot_iteration st ;;
      match r with
      | (Break, st) => Ret (Some 0, st)
      | (Continue, st) => monitor_bot_loop n st
      | (Escape e, st) =>
          let error_msg := "Fatal error: " +++ str_of_exn e in
          trigger (log CRITICAL error_msg) ;;
          trigger (log CRITICAL error_msg) ;;
          Ret (Some 1, st)
      end
  end.

End Worker.

Arguments monitor_bot_iteration {State} check cfg sleep_error st.
Arguments monitor_bot_loop {State} check cfg sleep_error ticks st.

Definition simulated_check (cfg : Config) (st : unit) : Prog (result bool * unit) :=
  r <- simulate_transaction_check cfg ;; Ret (r, st).

(** Modelled from the spec: the check of a tick of the deployed worker.
    [main.py] runs [simulate_transaction_check] in its place and leaves the
    construction of the monitor in comments; by the spec (sections 2 and
    4.6) a tick of the orchestrator is one scan cycle over all the
    monitored accounts, which is [check_for_new_transactions] of
    [transaction_monitor.py].  That method returns nothing and lets no
    exception out. *)
Definition monitor_check (valid_address : AddressCheck) (self : TransactionMonitor)
  (st : MonitorState) : Prog (result bool * MonitorState) :=
  st <- check_for_new_transactions valid_address self st ;;
  Ret (Ok false, st).

(* ================================================================= *)
(** ** Observations on a run *)

Definition sent_transaction (c : Call) : option Transaction :=
  match call_event c with
  | send_transaction tx => Some tx
  | _ => None
  end.

Definition fetched_signature (c : Call) : option string :=
  match call_event c with
  | get_transaction sig => Some sig
  | _ => None
  end.

Definition slept (c : Call) : option seconds :=
  match call_event c with
  | sleep d => Some d
  | _ => None
  end.

Definition is_blockhash_request (c : Call) : bool :=
  match call_event c with
  | get_recent_blockhash => true
  | _ => false
  end.

Definition page_request (c : Call) : option (string * option string) :=
  match call_event c with
  | get_signatures_for_address account before _ => Some (account, before)
  | _ => None
  end.

Definition logged (c : Call) : option (Level * string) :=
  match call_event c with
  | log lvl msg => Some (lvl, msg)
  | _ => None
  end.

Fixpoint filter_map {A B} (f : A -> option B) (l : list A) : list B :=
  match l with
  | [] => []
  | a :: l' =>
      match f a with
      | Some b => b :: filter_map f l'
      | None => filter_map f l'
      end
  end.

(* ================================================================= *)
(** ** Magnitudes of floats *)

Definition emin64 : Z := emin prec emax.

(** [below U m e]: the number [m * 2^e] is below [2^U], through a bound
    [k] on the digits of [m]. *)
Definition below (U m e : Z) : Prop :=
  0 <= m /\ exists k, 0 <= k /\ m < 2 ^ k /\ k + e <= U.

(** What a rounding yields: a zero or a finite number of the sign asked
    for, below [2^U]. *)
Definition finite_below (U : Z) (s : bool) (x : float) : Prop :=
  match x with
  | S754_zero s' => s' = s
  | S754_finite s' m e => s' = s /\ below U (Zpos m) e
  | _ => False
  end.

(** A zero of either sign, or a positive finite number below [2^U]. *)
Definition nonneg_below (U : Z) (x : float) : Prop :=
  match x with
  | S754_zero _ => True
  | S754_finite false m e => below U (Zpos m) e
  | _ => False
  end.

(** The percentages a split is meant for: zero or positive, finite, and
    below 128. *)
Definition percentage_in_range (p : float) : bool :=
  match p with
  | S754_zero _ => true
  | S754_finite false m e => Zpos (digits2_pos m) + e <=? 7
  | _ => false
  end.

(** [x >= 0] on floats. *)
Definition fnonneg (x : float) : bool := fle (S754_zero false) x.

(** [abs(sum(percentages) - 100.0) <= 0.01], the tolerance of the spec. *)
Definition within_tolerance (percentages : list float) : bool :=
  negb (percentages_warning percentages).

(** [above K m e]: the positive number [m * 2^e] is at or above [2^(K-1)]. *)
Definition above (K m e : Z) : Prop := 0 < m /\ K <= Zdigits2 m + e.

(** What the rounding of a large positive number yields: the positive
    infinity, or a positive finite number at or above [2^(K-1)] whose
    exponent is within 53 of [K]. *)
Definition large (K : Z) (x : float) : Prop :=
  match x with
  | S754_infinity false => True
  | S754_finite false m e => K <= Zpos (digits2_pos m) + e /\ K - prec <= e
  | _ => False
  end.

(** Not a NaN and not negative: a zero, a positive finite number, or the
    positive infinity. *)
Definition nonneg (x : float) : Prop :=
  match x with
  | S754_zero _ => True
  | S754_infinity false => True
  | S754_finite false _ _ => True
  | _ => False
  end.

(** The positive infinity or a positive finite number at or above
    [2^(K-1)]. *)
Definition at_least (K : Z) (x : float) : Prop :=
  match x with
  | S754_infinity false => True
  | S754_finite false m e => K <= Zpos (digits2_pos m) + e
  | _ => False
  end.

(* ================================================================= *)
(** ** Legs of a redistribution, as seen in a run *)

(** Destination token account and amount of a built transfer. *)
Definition leg_of_transaction (tx : Transaction) : option (string * Z) :=
  match instructions tx with
  | [i] =>
      match accounts i, data i with
      | [_; dest; _], _ :: amount_bytes =>
          Some (key_str (pubkey dest), le_value amount_bytes)
      | _, _ => None
      end
  | _ => None
  end.

Inductive LegEvent : Type :=
| Submitted (leg : option (string * Z)) (answer : result string)
| Awaited (sig : string) (confirmed : bool)
| Paused.

Definition leg_event (c : Call) : option LegEvent :=
  match c with
  | call e x =>
      match e in Event X return X -> option LegEvent with
      | send_transaction tx => fun answer => Some (Submitted (leg_of_transaction tx) answer)
      | confirm_transaction sig _ => fun confirmed => Some (Awaited sig confirmed)
      | sleep (IntSeconds 1) => fun _ => Some Paused
      | _ => fun _ => None
      end x
  end.

(** The events of one leg carried to its end: the submission, the wait for
    its confirmation when the submission gave a signature, the pause. *)
Definition leg_trace (dest : string) (leg_amount : Z) (answer : result string)
  (confirmed : bool) : list LegEvent :=
  Submitted (Some (dest, leg_amount)) answer
  :: match answer with
     | Ok sig => [Awaited sig confirmed]
     | Raise _ => []
     end
  ++ [Paused].

Definition leg_ok (answer : result string) (confirmed : bool) : bool :=
  match answer with
  | Ok _ => confirmed
  | Raise _ => false
  end.

(** [legs_run legs events ok]: [events] is the legs of [legs] one after the
    other, each carried to its end with some outcome before the next one
    starts; [ok] tells whether all of them were confirmed. *)
Inductive legs_run : list (string * Z) -> list LegEvent -> bool -> Prop :=
| legs_done : legs_run [] [] true
| legs_next (dest : string) (leg_amount : Z) (answer : result string)
    (confirmed : bool) (rest : list (string * Z)) (events : list LegEvent)
    (ok : bool) :
    legs_run rest events ok ->
    legs_run ((dest, leg_amount) :: rest)
             (leg_trace dest leg_amount answer confirmed ++ events)
             (leg_ok answer confirmed && ok).

(** The legs [_execute_redistribution] keeps: those with a positive amount. *)
Definition positive_legs (legs : list (string * Z)) : list (string * Z) :=
  filter (fun leg => snd leg >? 0) legs.

(** *** Assumptions on an environment *)

(** The first token account of [owner] is [account], whenever asked. *)
Definition finds (env : Env) (token_mint owner account : string) : Prop :=
  forall h, exists rest,
    env h _ (get_token_accounts_by_owner owner token_mint) = Ok (account :: rest).

Definition blockhash_available (env : Env) : Prop :=
  forall h, exists bh, env h _ get_recent_blockhash = Ok bh.


(* ================================================================= *)
(** ** A configuration and environments to run the bot on *)

(** The defaults of [config.py]. *)
Definition example_config : Config := {|
  MONITORED_ACCOUNT := "Wallet";
  NEXACOIN_MINT := "NexaMint";
  BURN_PERCENTAGE := literal 5 0;
  TREASURY_PERCENTAGE := literal 70 0;
  FEE_PERCENTAGE := literal 25 0;
  BURN_ADDRESS := "Burn";
  TREASURY_ADDRESS := "Treasury";
  FEE_ADDRESS := "Fee";
  MIN_TRANSFER_AMOUNT := 1000;
  CONFIRMATION_TIMEOUT := 60;
  POLLING_INTERVAL := literal 10 0;
  ERROR_RETRY_INTERVAL := literal 30 0
|}.

Definition example_processor : TransferProcessor := {|
  config := example_config;
  solana_client := {| keypair_public_key := {| key_str := "Authority" |} |}
|}.

Definition example_monitor : TransactionMonitor := {|
  mconfig := example_config;
  transfer_processor := example_processor
|}.

Definition any_address : AddressCheck :=
  {| well_formed := fun _ => true;
     malformed_message := fun s => "invalid public key input: " +++ s |}.

(** The token account of an owner is named after the owner; a submission is
    signed with the name of the account it pays. *)
Definition signature_for (tx : Transaction) : string :=
  match leg_of_transaction tx with
  | Some (dest, _) => "sig:" +++ dest
  | None => "sig"
  end.

(** A ledger on which everything succeeds, except that the confirmation of a
    transfer to an account in [slow] times out and the submission of a
    transfer to an account in [down] fails; [page] and [record] are the
    history of the accounts. *)
Definition ledger (slow down : list string)
  (page : string -> option string -> result (list SigInfo))
  (record : string -> result (option RawTransaction)) : Env :=
  fun _ X e =>
    match e in Event X return X with
    | get_token_accounts_by_owner owner _ => Ok [owner +++ "-token"]
    | get_signatures_for_address account before _ => page account before
    | get_transaction sig => record sig
    | get_recent_blockhash => Ok "blockhash"
    | send_transaction tx =>
        match leg_of_transaction tx with
        | Some (dest, _) =>
            if in_list dest down then Raise (RpcError "send failed")
            else Ok (signature_for tx)
        | None => Ok (signature_for tx)
        end
    | confirm_transaction sig _ =>
        negb (existsb (fun dest => String.eqb sig ("sig:" +++ dest)) slow)
    | sleep _ => tt
    | refresh_due _ => false
    | stop_is_set => false
    | log _ _ => tt
    end.

Definition no_pages (account : string) (before : option string)
  : result (list SigInfo) := Ok [].

Definition no_records (sig : string) : result (option RawTransaction) := Ok None.

(** The leg of an entry [(tx_type, transaction, amount)] of the list that
    [_execute_redistribution] builds. *)
Definition built_leg (entry : string * Transaction * Z) : option (string * Z) :=
  leg_of_transaction (snd (fst entry)).

(** What [_execute_redistribution] needs before its first submission: the
    three owners have the token accounts [burn_acc], [treasury_acc] and
    [fee_acc], a block hash can be fetched, and the addresses are well
    formed. *)
Definition redistribution_ready (valid_address : AddressCheck) (env : Env)
  (self : TransferProcessor) (source burn_acc treasury_acc fee_acc : string) : Prop :=
  finds env (NEXACOIN_MINT (config self)) (burn_address self) burn_acc
  /\ finds env (NEXACOIN_MINT (config self)) (treasury_address self) treasury_acc
  /\ finds env (NEXACOIN_MINT (config self)) (fee_address self) fee_acc
  /\ truthy burn_acc = true /\ truthy treasury_acc = true /\ truthy fee_acc = true
  /\ blockhash_available env
  /\ valid_address source = true
  /\ valid_address burn_acc = true
  /\ valid_address treasury_acc = true
  /\ valid_address fee_acc = true.

Definition is_timeout_warning (entry : Level * string) : bool :=
  match entry with
  | (WARNING, msg) =>
      existsb (fun tx_type =>
                 String.eqb msg (tx_type +++ " transaction timed out waiting for confirmation"))
              ["Burn"; "Treasury"; "Fee"]
  | _ => false
  end.

(* ================================================================= *)
(** ** Credits of a record, as [find_credit] tests them *)

(** The four tests an entry of [post_balances.items()] passes before the
    [return]: tracked mint, balance increased, position within the account
    keys, account among the monitored token accounts. *)
Definition is_credit (self : TransactionMonitor) (st : MonitorState)
  (pre_balances : list (nat * TokenBalance)) (account_keys : list string)
  (item : nat * TokenBalance) : bool :=
  let '(idx, post_balance) := item in
  opt_eqb (mint post_balance) (nexacoin_mint self)
  && (balance_amount (Some post_balance) >? balance_amount (dict_get pre_balances idx))
  && (accountIndex post_balance <? List.length account_keys)%nat
  && in_list (nth (accountIndex post_balance) account_keys "") (token_accounts st).

(** Account credited and amount of the credit of an entry. *)
Definition credit_of (pre_balances : list (nat * TokenBalance))
  (account_keys : list string) (item : nat * TokenBalance) : string * Z :=
  let '(idx, post_balance) := item in
  (nth (accountIndex post_balance) account_keys "",
   balance_amount (Some post_balance) - balance_amount (dict_get pre_balances idx)).

(** *** Credits of a record, as the record lists them *)

(** The balance a record lists for a position: the last entry of the list
    with this account index, which is the one a dict built from the list
    keeps. *)
Definition balance_at (balances : list TokenBalance) (idx : nat) : option TokenBalance :=
  find (fun b => Nat.eqb idx (accountIndex b)) (rev balances).

(** The amount a record lists for a position; 0 when it lists none. *)
Definition amount_at (balances : list TokenBalance) (idx : nat) : Z :=
  match balance_at balances idx with
  | Some {| uiAmount := Some a |} => a
  | _ => 0
  end.

(** The positions a list of balances names, each once, in the order in
    which the list first names them. *)
Fixpoint first_positions (seen : list nat) (balances : list TokenBalance) : list nat :=
  match balances with
  | [] => []
  | b :: rest =>
      if existsb (Nat.eqb (accountIndex b)) seen
      then first_positions seen rest
      else accountIndex b :: first_positions (seen ++ [accountIndex b]) rest
  end.

Definition positions (balances : list TokenBalance) : list nat :=
  first_positions [] balances.

(** A position that receives the tracked mint on a monitored account: the
    post-balance the record lists for it is of the tracked mint and exceeds
    the pre-balance, and the account key at the position is one of the
    monitored token accounts. *)
Definition credited (self : TransactionMonitor) (st : MonitorState)
  (transaction : RawTransaction) (idx : nat) : bool :=
  match balance_at (postTokenBalances transaction) idx with
  | Some post_balance => opt_eqb (mint post_balance) (nexacoin_mint self)
  | None => false
  end
  && (amount_at (postTokenBalances transaction) idx
      >? amount_at (preTokenBalances transaction) idx)
  && (idx <? List.length (accountKeys transaction))%nat
  && in_list (nth idx (accountKeys transaction) "") (token_accounts st).

(** *** Records and pages to run the monitor on *)

Definition example_transfer (amount_in : Z) : TransferDetails := {|
  transaction_id := "tx";
  destination := "Wallet-token";
  amount := amount_in;
  timestamp := 0
|}.

(** A successful token transfer that credits [Wallet-token], at position 1 of
    its account keys, with [credit] units of the tracked mint. *)
Definition example_record (sig : string) (credit : Z) : RawTransaction := {|
  err := None;
  preTokenBalances :=
    [ {| accountIndex := 0; mint := Some "NexaMint"; uiAmount := Some 90000 |};
      {| accountIndex := 1; mint := Some "NexaMint"; uiAmount := Some 500 |} ];
  postTokenBalances :=
    [ {| accountIndex := 0; mint := Some "NexaMint"; uiAmount := Some (90000 - credit) |};
      {| accountIndex := 1; mint := Some "NexaMint"; uiAmount := Some (500 + credit) |} ];
  raw_instructions :=
    [ {| programId := Some TOKEN_PROGRAM_ID; idata := Some "3DdGGhkhJbjm" |} ];
  accountKeys := ["Sender-token"; "Wallet-token"; "Sender"];
  signatures := Some [sig];
  blockTime := 1700000000
|}.

Definition example_state (cursor : option string) : MonitorState := {|
  last_signature := cursor;
  token_accounts := ["Wallet-token"]
|}.

Definition sig_infos (sigs : list string) : list SigInfo :=
  map (fun s => {| signature := s |}) sigs.

(** Every signature stands for a transfer of 2000 units to [Wallet-token]. *)
Definition transfer_records (sig : string) : result (option RawTransaction) :=
  Ok (Some (example_record sig 2000)).

(** A ledger that answers the request for the page before the cursor [A]
    with the records down to [A], the record of the cursor last; any other
    request gets an empty page. *)
Definition page_ending_at_cursor (account : string) (before : option string)
  : result (list SigInfo) :=
  if opt_eqb before "A" then Ok (sig_infos ["C"; "B"; "A"]) else Ok [].

(** One signature in the history of the wallet, two in the history of its
    token account. *)
Definition two_accounts (account : string) (before : option string)
  : result (list SigInfo) :=
  if String.eqb account "Wallet" then Ok (sig_infos ["w1"])
  else Ok (sig_infos ["t2"; "t1"]).


(** The refusals of [time.sleep] that the examples meet: a NaN or a negative
    interval is a [ValueError], an infinite one an [OverflowError]. *)
Definition example_sleep_error (d : float) : option exn :=
  match d with
  | S754_nan => Some (ValueError "Invalid value NaN (not a number)")
  | S754_infinity _ =>
      Some (OverflowError "timestamp too large to convert to C _PyTime_t")
  | S754_finite true _ _ => Some (ValueError "sleep length must be non-negative")
  | _ => None
  end.

(** The example configuration with other intervals. *)
Definition with_intervals (polling_interval error_retry_interval : float) : Config := {|
  MONITORED_ACCOUNT := MONITORED_ACCOUNT example_config;
  NEXACOIN_MINT := NEXACOIN_MINT example_config;
  BURN_PERCENTAGE := BURN_PERCENTAGE example_config;
  TREASURY_PERCENTAGE := TREASURY_PERCENTAGE example_config;
  FEE_PERCENTAGE := FEE_PERCENTAGE example_config;
  BURN_ADDRESS := BURN_ADDRESS example_config;
  TREASURY_ADDRESS := TREASURY_ADDRESS example_config;
  FEE_ADDRESS := FEE_ADDRESS example_config;
  MIN_TRANSFER_AMOUNT := MIN_TRANSFER_AMOUNT example_config;
  CONFIRMATION_TIMEOUT := CONFIRMATION_TIMEOUT example_config;
  POLLING_INTERVAL := polling_interval;
  ERROR_RETRY_INTERVAL := error_retry_interval
|}.

(** The message with which [process_transfer] starts on the record [sig]. *)
Definition processing_of (sig : string) : string :=
  processing_message {| transaction_id := sig; destination := "Wallet-token";
                        amount := 2000; timestamp := 1700000000 |}.

Definition is_scan_error (c : Call) : bool :=
  match c with
  | call e x =>
      match e in Event X return X -> bool with
      | get_signatures_for_address _ _ _ =>
          fun answer => match answer with Raise _ => true | Ok _ => false end
      | _ => fun _ => false
      end x
  end.

(** A record that credits two monitored token accounts at once: 2000 units
    at position 1 and 300 at position 2. *)
Definition two_credit_record : RawTransaction := {|
  err := None;
  preTokenBalances :=
    [ {| accountIndex := 0; mint := Some "NexaMint"; uiAmount := Some 90000 |};
      {| accountIndex := 1; mint := Some "NexaMint"; uiAmount := Some 500 |};
      {| accountIndex := 2; mint := Some "NexaMint"; uiAmount := Some 40 |} ];
  postTokenBalances :=
    [ {| accountIndex := 0; mint := Some "NexaMint"; uiAmount := Some 87700 |};
      {| accountIndex := 1; mint := Some "NexaMint"; uiAmount := Some 2500 |};
      {| accountIndex := 2; mint := Some "NexaMint"; uiAmount := Some 340 |} ];
  raw_instructions :=
    [ {| programId := Some TOKEN_PROGRAM_ID; idata := Some "3DdGGhkhJbjm" |};
      {| programId := Some TOKEN_PROGRAM_ID; idata := Some "3QCwqmHZ4mdq" |} ];
  accountKeys := ["Sender-token"; "Wallet-token"; "Wallet-token-2"; "Sender"];
  signatures := Some ["tx2"];
  blockTime := 1700000000
|}.

Definition two_token_accounts : MonitorState := {|
  last_signature := None;
  token_accounts := ["Wallet-token"; "Wallet-token-2"]
|}.

(* ================================================================= *)
(** ** utils.py: the other helpers *)

(** The values of a decoded JSON document.  A [dict] is the list of its
    items; a key occurs once in it. *)
#[warnings="-register-all"] Inductive pyobj : Type :=
| PyNone
| PyBool (b : bool)
| PyInt (n : Z)
| PyStr (s : string)
| PyList (l : list pyobj)
| PyDict (items : list (string * pyobj)).

(** [current[key]] when [key in current], on the items of a dict. *)
Fixpoint dict_item (key : string) (items : list (string * pyobj)) : option pyobj :=
  match items with
  | [] => None
  | (k, v) :: rest => if String.eqb key k then Some v else dict_item key rest
  end.

(** The loop of [safe_get_nested] over [*keys]. *)
Fixpoint safe_get_nested (obj : pyobj) (keys : list string) (default : pyobj) : pyobj :=
  match keys with
  | [] => obj
  | key :: rest =>
      match obj with
      | PyDict items =>
          match dict_item key items with
          | Some current => safe_get_nested current rest default
          | None => default
          end
      | _ => default
      end
  end.

Definition is_dict (obj : pyobj) : bool :=
  match obj with
  | PyDict _ => true
  | _ => false
  end.

(** *** redact_sensitive_data *)

Definition BASE58_ALPHABET : string :=
  "123456789ABCDEFGHJKLMNPQRSTUVWXYZabcdefghijkmnopqrstuvwxyz".

Definition is_base58 (c : ascii) : bool :=
  existsb (Ascii.eqb c) (list_ascii_of_string BASE58_ALPHABET).

(** Number of characters of the class at the start of [s]. *)
Fixpoint run_length (s : string) : nat :=
  match s with
  | EmptyString => O
  | String c s' => if is_base58 c then S (run_length s') else O
  end.

Definition REDACTED_PRIVATE_KEY : string := "REDACTED_PRIVATE_KEY".

(** [re.sub] with the pattern [[...]{87,88}]: the text is read from the left;
    where at least 87 characters of the class follow, the match takes 88 of
    them when there are as many and 87 otherwise, the replacement is written
    and the reading goes on after the match; elsewhere the character is
    copied.  [skip] counts the characters of a match still to pass over. *)
Fixpoint redact_from (skip : nat) (s : string) : string :=
  match s with
  | EmptyString => EmptyString
  | String c s' =>
      match skip with
      | S k => redact_from k s'
      | O =>
          if (87 <=? run_length s)%nat
          then REDACTED_PRIVATE_KEY +++ redact_from (Nat.min 88 (run_length s) - 1) s'
          else String c (redact_from O s')
      end
  end.

Definition redact_sensitive_data (text : string) : string := redact_from O text.

Fixpoint all_base58 (s : string) : bool :=
  match s with
  | EmptyString => true
  | String c s' => is_base58 c && all_base58 s'
  end.

(** No position of [s] starts 87 characters of the class. *)
Fixpoint no_long_run (s : string) : bool :=
  match s with
  | EmptyString => true
  | String c s' => (run_length s <? 87)%nat && no_long_run s'
  end.

(** [s] is empty or ends with a character outside the class. *)
Fixpoint ends_outside (s : string) : bool :=
  match s with
  | EmptyString => true
  | String c EmptyString => negb (is_base58 c)
  | String _ s' => ends_outside s'
  end.

(* ================================================================= *)
(** ** config.py and main.py: reading the configuration *)

(** Why a configuration is refused; each is a [ValueError] with its own
    message. *)
Inductive ConfigError : Type :=
| NotSet (variable : string)                 (* "... environment variable must be set" *)
| InvalidPrivateKey                          (* "Invalid private key format: ..." *)
| NotANumber                                 (* raised by [float] or [int] *)
| PercentagesOff (total_percentage : float)  (* "... must sum to 100% (got ...%)" *)
| AddressesNotSet                            (* "BURN_ADDRESS, ... must all be set" *)
| MissingConfiguration (missing_fields : list string).

(** The attributes of a [Config] that the pipeline does not read. *)
Record ConfigObject : Type := {
  settings : Config;
  NETWORK_URL : string;
  NETWORK : string;
  PRIVATE_KEY_BASE58 : string;
  PRIVATE_KEY_BYTES : list Byte.byte;
  MAX_TRANSACTIONS_PER_BATCH : Z;
  LOG_LEVEL : string;
  LOG_FILE : string
}.

(** The dict that [get_environment_config] of [main.py] returns. *)
Record EnvironmentConfig : Type := {
  env_NETWORK_URL : string;
  env_NETWORK : string;
  env_MONITORED_ACCOUNT : string;
  env_PRIVATE_KEY : string;
  env_NEXACOIN_MINT : string;
  env_BURN_ADDRESS : string;
  env_TREASURY_ADDRESS : string;
  env_FEE_ADDRESS : string;
  env_BURN_PERCENTAGE : float;
  env_TREASURY_PERCENTAGE : float;
  env_FEE_PERCENTAGE : float;
  env_MIN_TRANSFER_AMOUNT : Z;
  env_POLLING_INTERVAL : float;
  env_ERROR_RETRY_INTERVAL : float
}.

(** [abs(total_percentage - 100.0) > 0.01] *)
Definition percentages_off (b t f : float) : bool :=
  fgt (fabs (fsub (fadd (fadd b t) f) f100)) f0_01.

(** [abs(total_percentage - 100.0)] for the percentages of a configuration. *)
Definition percentage_gap (cfg : Config) : float :=
  fabs (fsub (fadd (fadd (BURN_PERCENTAGE cfg) (TREASURY_PERCENTAGE cfg))
                   (FEE_PERCENTAGE cfg)) f100).

Definition REQUIRED_FIELDS : list string :=
  ["MONITORED_ACCOUNT"; "PRIVATE_KEY"; "NEXACOIN_MINT";
   "BURN_ADDRESS"; "TREASURY_ADDRESS"; "FEE_ADDRESS"].

Section Environment.

(** The process environment, and the conversions of the language and of the
    base58 library, which raise [ValueError] on a string they do not read. *)
Variable environ : string -> option string.
Variable float_of_str : string -> option float.
Variable int_of_str : string -> option Z.
Variable b58decode : string -> option (list Byte.byte).

(** [os.getenv(name, default)] *)
Definition getenv (name default : string) : string :=
  match environ name with
  | Some v => v
  | None => default
  end.

(** A step of a constructor that may refuse. *)
Definition cbind {A B} (r : ConfigError + A) (k : A -> ConfigError + B)
  : ConfigError + B :=
  match r with
  | inl e => inl e
  | inr a => k a
  end.

(** [value = os.getenv(name)] followed by [if not value: raise ...]. *)
Definition required (name : string) : ConfigError + string :=
  match environ name with
  | Some value => if truthy value then inr value else inl (NotSet name)
  | None => inl (NotSet name)
  end.

Definition to_float (s : string) : ConfigError + float :=
  match float_of_str s with
  | Some x => inr x
  | None => inl NotANumber
  end.

Definition to_int (s : string) : ConfigError + Z :=
  match int_of_str s with
  | Some n => inr n
  | None => inl NotANumber
  end.

(** [Config.__init__], statement by statement, with the base58 library
    installed (the [ImportError] branch is left out). *)
Definition Config__init__ : ConfigError + ConfigObject :=
  let network_url := getenv "SOLANA_NETWORK_URL" "https://api.mainnet-beta.solana.com" in
  let network := getenv "SOLANA_NETWORK" "mainnet-beta" in
  cbind (required "MONITORED_ACCOUNT") (fun monitored_account =>
  cbind (required "PRIVATE_KEY") (fun private_key_base58 =>
  cbind (match b58decode private_key_base58 with
         | Some bytes => inr bytes
         | None => inl InvalidPrivateKey
         end) (fun private_key_bytes =>
  cbind (required "NEXACOIN_MINT") (fun nexacoin_mint =>
  cbind (to_float (getenv "BURN_PERCENTAGE" "5.0")) (fun burn_percentage =>
  cbind (to_float (getenv "TREASURY_PERCENTAGE" "70.0")) (fun treasury_percentage =>
  cbind (to_float (getenv "FEE_PERCENTAGE" "25.0")) (fun fee_percentage =>
  let total_percentage := fadd (fadd burn_percentage treasury_percentage) fee_percentage in
  if percentages_off burn_percentage treasury_percentage fee_percentage
  then inl (PercentagesOff total_percentage)
  else
    if negb (truthy_opt (environ "BURN_ADDRESS")
             && truthy_opt (environ "TREASURY_ADDRESS")
             && truthy_opt (environ "FEE_ADDRESS"))
    then inl AddressesNotSet
    else
      cbind (to_int (getenv "MIN_TRANSFER_AMOUNT" "1000")) (fun min_transfer_amount =>
      cbind (to_int (getenv "MAX_TRANSACTIONS_PER_BATCH" "10")) (fun max_batch =>
      cbind (to_int (getenv "CONFIRMATION_TIMEOUT" "60")) (fun confirmation_timeout =>
      cbind (to_float (getenv "POLLING_INTERVAL" "10.0")) (fun polling_interval =>
      cbind (to_float (getenv "ERROR_RETRY_INTERVAL" "30.0")) (fun error_retry_interval =>
      inr {| settings :=
               {| MONITORED_ACCOUNT := monitored_account;
                  NEXACOIN_MINT := nexacoin_mint;
                  BURN_PERCENTAGE := burn_percentage;
                  TREASURY_PERCENTAGE := treasury_percentage;
                  FEE_PERCENTAGE := fee_percentage;
                  BURN_ADDRESS := getenv "BURN_ADDRESS" "";
                  TREASURY_ADDRESS := getenv "TREASURY_ADDRESS" "";
                  FEE_ADDRESS := getenv "FEE_ADDRESS" "";
                  MIN_TRANSFER_AMOUNT := min_transfer_amount;
                  CONFIRMATION_TIMEOUT := confirmation_timeout;
                  POLLING_INTERVAL := polling_interval;
                  ERROR_RETRY_INTERVAL := error_retry_interval |};
             NETWORK_URL := network_url;
             NETWORK := network;
             PRIVATE_KEY_BASE58 := private_key_base58;
             PRIVATE_KEY_BYTES := private_key_bytes;
             MAX_TRANSACTIONS_PER_BATCH := max_batch;
             LOG_LEVEL := getenv "LOG_LEVEL" "INFO";
             LOG_FILE := getenv "LOG_FILE" "nexacoin_monitor.log" |})))))))))))).

(** [config[field]] for the six required fields of the dict. *)
Definition field_value (field : string) : string := getenv field "".

(** [get_environment_config] of [main.py]: the dict is built first, with its
    conversions, then the required fields are tested in the order of the
    list, then the percentages. *)
Definition get_environment_config : ConfigError + EnvironmentConfig :=
  cbind (to_float (getenv "BURN_PERCENTAGE" "5.0")) (fun burn_percentage =>
  cbind (to_float (getenv "TREASURY_PERCENTAGE" "70.0")) (fun treasury_percentage =>
  cbind (to_float (getenv "FEE_PERCENTAGE" "25.0")) (fun fee_percentage =>
  cbind (to_int (getenv "MIN_TRANSFER_AMOUNT" "1000")) (fun min_transfer_amount =>
  cbind (to_float (getenv "POLLING_INTERVAL" "10.0")) (fun polling_interval =>
  cbind (to_float (getenv "ERROR_RETRY_INTERVAL" "30.0")) (fun error_retry_interval =>
  let missing_fields :=
    filter (fun field => negb (truthy (field_value field))) REQUIRED_FIELDS in
  match missing_fields with
  | _ :: _ => inl (MissingConfiguration missing_fields)
  | [] =>
      let total_percentage :=
        fadd (fadd burn_percentage treasury_percentage) fee_percentage in
      if percentages_off burn_percentage treasury_percentage fee_percentage
      then inl (PercentagesOff total_percentage)
      else
        inr {| env_NETWORK_URL :=
                 getenv "SOLANA_NETWORK_URL" "https://api.mainnet-beta.solana.com";
               env_NETWORK := getenv "SOLANA_NETWORK" "mainnet-beta";
               env_MONITORED_ACCOUNT := field_value "MONITORED_ACCOUNT";
               env_PRIVATE_KEY := field_value "PRIVATE_KEY";
               env_NEXACOIN_MINT := field_value "NEXACOIN_MINT";
               env_BURN_ADDRESS := field_value "BURN_ADDRESS";
               env_TREASURY_ADDRESS := field_value "TREASURY_ADDRESS";
               env_FEE_ADDRESS := field_value "FEE_ADDRESS";
               env_BURN_PERCENTAGE := burn_percentage;
               env_TREASURY_PERCENTAGE := treasury_percentage;
               env_FEE_PERCENTAGE := fee_percentage;
               env_MIN_TRANSFER_AMOUNT := min_transfer_amount;
               env_POLLING_INTERVAL := polling_interval;
               env_ERROR_RETRY_INTERVAL := error_retry_interval |}
  end)))))).

End Environment.

(** The settings of the dict that the worker of [main.py] reads, as a
    [Config]; the dict has no confirmation timeout. *)
Definition settings_of (c : EnvironmentConfig) (confirmation_timeout : Z) : Config := {|
  MONITORED_ACCOUNT := env_MONITORED_ACCOUNT c;
  NEXACOIN_MINT := env_NEXACOIN_MINT c;
  BURN_PERCENTAGE := env_BURN_PERCENTAGE c;
  TREASURY_PERCENTAGE := env_TREASURY_PERCENTAGE c;
  FEE_PERCENTAGE := env_FEE_PERCENTAGE c;
  BURN_ADDRESS := env_BURN_ADDRESS c;
  TREASURY_ADDRESS := env_TREASURY_ADDRESS c;
  FEE_ADDRESS := env_FEE_ADDRESS c;
  MIN_TRANSFER_AMOUNT := env_MIN_TRANSFER_AMOUNT c;
  CONFIRMATION_TIMEOUT := confirmation_timeout;
  POLLING_INTERVAL := env_POLLING_INTERVAL c;
  ERROR_RETRY_INTERVAL := env_ERROR_RETRY_INTERVAL c
|}.

(* ================================================================= *)
(** ** main.py: the in-memory log and the simulated processing *)

Record LogEntry : Type := {
  entry_timestamp : string;
  entry_level : string;
  entry_message : string
}.

Definition MAX_LOG_ENTRIES : nat := 100.

(** What [add_log] does to [log_entries]: [append], then [pop(0)] when the
    list has grown past the maximum.  The entry is the dict of timestamp,
    level and message; the line written to the console logger afterwards
    does not touch the list. *)
Definition add_log (log_entries : list LogEntry) (entry : LogEntry) : list LogEntry :=
  let log_entries := log_entries ++ [entry] in
  if (MAX_LOG_ENTRIES <? List.length log_entries)%nat
  then tl log_entries
  else log_entries.

(** The last [n] elements of a list. *)
Definition lastn {A} (n : nat) (l : list A) : list A :=
  skipn (List.length l - n) l.

(** The three amounts [simulate_transaction_processing] computes and logs. *)
Definition simulated_plan (cfg : Config) (amount : Z) : result (Z * Z * Z) :=
  rbind (share amount (BURN_PERCENTAGE cfg)) (fun burn_amount =>
  rbind (share amount (TREASURY_PERCENTAGE cfg)) (fun treasury_amount =>
  rbind (share amount (FEE_PERCENTAGE cfg)) (fun fee_amount =>
  Ok (burn_amount, treasury_amount, fee_amount)))).

(* ================================================================= *)
(** ** Classes of events *)

Definition EventClass : Type := forall X, Event X -> bool.

(** Every event [p] can emit, whatever the answers, is of the class. *)
Fixpoint emits_only {R} (P : EventClass) (p : Prog R) : Prop :=
  match p with
  | Ret _ => True
  | Vis e k => P _ e = true /\ forall x, emits_only P (k x)
  end.

Definition is_log : EventClass :=
  fun _ e => match e with
             | log _ _ => true
             | _ => false
             end.

(** What the transfer processor asks of the outside world: token account
    lookups, block hashes, submissions, confirmations, pauses of one second
    and log lines. *)
Definition processor_event : EventClass :=
  fun _ e => match e with
             | get_token_accounts_by_owner _ _ => true
             | get_recent_blockhash => true
             | send_transaction _ => true
             | confirm_transaction _ _ => true
             | sleep (IntSeconds 1) => true
             | log _ _ => true
             | _ => false
             end.

(** Lookups and log lines only. *)
Definition lookup_event : EventClass :=
  fun _ e => match e with
             | get_token_accounts_by_owner _ _ => true
             | log _ _ => true
             | _ => false
             end.

(** Everything but a request for a page of signatures. *)
Definition not_page_request : EventClass :=
  fun _ e => match e with
             | get_signatures_for_address _ _ _ => false
             | _ => true
             end.

(** Everything a scan can ask after its page request. *)
Definition not_record_request : EventClass :=
  fun _ e => match e with
             | get_transaction _ => false
             | _ => true
             end.

Definition calls_of (P : EventClass) (calls : list Call) : Prop :=
  Forall (fun c => P _ (call_event c) = true) calls.

Definition is_submission (c : Call) : bool :=
  match call_event c with
  | send_transaction _ => true
  | _ => false
  end.

(* ================================================================= *)
(** ** More assumptions on an environment *)

(** The lookup of the token accounts of [owner] never gives a usable
    account: it raises, answers the empty list, or an empty address. *)
Definition lookup_fails (env : Env) (token_mint owner : string) : Prop :=
  forall h,
    match env h _ (get_token_accounts_by_owner owner token_mint) with
    | Ok (account :: _) => truthy account = false
    | _ => True
    end.


(** Every record asked for is answered, found or not. *)
Definition records_available (env : Env) : Prop :=
  forall h sig, exists r, env h _ (get_transaction sig) = Ok r.

(** A leg that can be built once a block hash is there. *)
Definition buildable (valid_address : AddressCheck) (source dest : string)
  (leg_amount : Z) : bool :=
  valid_address source && valid_address dest && (leg_amount <? 2 ^ 64).

(** The records of a page that a scan with the cursor [cursor] fetches when
    every fetch is answered: in the order of [todo], those before the first
    one that differs from the cursor are passed over, this one is fetched,
    and of the later ones those that differ from the newest id of the
    page. *)
Fixpoint drop_while {A} (f : A -> bool) (l : list A) : list A :=
  match l with
  | [] => []
  | a :: l' => if f a then drop_while f l' else l
  end.

Definition fetched_of_page (cursor : option string) (page : list SigInfo) : list string :=
  match page with
  | [] => []
  | newest :: _ =>
      match drop_while (opt_eqb cursor) (map signature (rev page)) with
      | [] => []
      | first :: later =>
          first :: filter (fun s => negb (String.eqb (signature newest) s)) later
      end
  end.

(** The pages a ledger can answer to the request for the page before the
    cursor: the record of the cursor is not in the page, or it is where the
    page ends, with no record of another id after it (the page is newest
    first). *)
Definition cursor_only_oldest (cursor : string) (page : list SigInfo) : bool :=
  forallb (fun r => negb (String.eqb cursor (signature r)))
          (drop_while (fun r => String.eqb cursor (signature r)) (rev page)).

(* ================================================================= *)
(** ** More data to run the bot on *)

Definition example_environ (name : string) : option string :=
  if String.eqb name "MONITORED_ACCOUNT" then Some "Wallet"
  else if String.eqb name "PRIVATE_KEY" then Some "key"
  else if String.eqb name "NEXACOIN_MINT" then Some "NexaMint"
  else if String.eqb name "BURN_ADDRESS" then Some "Burn"
  else if String.eqb name "TREASURY_ADDRESS" then Some "Treasury"
  else if String.eqb name "FEE_ADDRESS" then Some "Fee"
  else None.

(** The numerals the defaults are written with. *)
Definition example_float_of_str (s : string) : option float :=
  if String.eqb s "5.0" then Some (literal 5 0)
  else if String.eqb s "70.0" then Some (literal 70 0)
  else if String.eqb s "25.0" then Some (literal 25 0)
  else if String.eqb s "10.0" then Some (literal 10 0)
  else if String.eqb s "30.0" then Some (literal 30 0)
  else None.

Definition example_int_of_str (s : string) : option Z :=
  if String.eqb s "1000" then Some 1000
  else if String.eqb s "10" then Some 10
  else if String.eqb s "60" then Some 60
  else None.

Definition example_b58decode (s : string) : option (list Byte.byte) := Some [].

(** The same environment with [BURN_PERCENTAGE=nan], a numeral that [float]
    reads as the NaN. *)
Definition nan_environ (name : string) : option string :=
  if String.eqb name "BURN_PERCENTAGE" then Some "nan" else example_environ name.

Definition nan_float_of_str (s : string) : option float :=
  if String.eqb s "nan" then Some S754_nan else example_float_of_str s.

(** What [Config()] is on [example_environ]. *)
Definition example_config_object : ConfigObject := {|
  settings := example_config;
  NETWORK_URL := "https://api.mainnet-beta.solana.com";
  NETWORK := "mainnet-beta";
  PRIVATE_KEY_BASE58 := "key";
  PRIVATE_KEY_BYTES := [];
  MAX_TRANSACTIONS_PER_BATCH := 10;
  LOG_LEVEL := "INFO";
  LOG_FILE := "nexacoin_monitor.log"
|}.

(** What [get_environment_config()] is on it. *)
Definition example_environment_config : EnvironmentConfig := {|
  env_NETWORK_URL := "https://api.mainnet-beta.solana.com";
  env_NETWORK := "mainnet-beta";
  env_MONITORED_ACCOUNT := "Wallet";
  env_PRIVATE_KEY := "key";
  env_NEXACOIN_MINT := "NexaMint";
  env_BURN_ADDRESS := "Burn";
  env_TREASURY_ADDRESS := "Treasury";
  env_FEE_ADDRESS := "Fee";
  env_BURN_PERCENTAGE := literal 5 0;
  env_TREASURY_PERCENTAGE := literal 70 0;
  env_FEE_PERCENTAGE := literal 25 0;
  env_MIN_TRANSFER_AMOUNT := 1000;
  env_POLLING_INTERVAL := literal 10 0;
  env_ERROR_RETRY_INTERVAL := literal 30 0
|}.

(* ================================================================= *)
(** ** The calls of a run *)

(** The calls [p] makes when it starts after the calls [h], latest first:
    what [run] adds to the history. *)
Fixpoint calls_during {R} (env : Env) (p : Prog R) (h : list Call) : list Call :=
  match p with
  | Ret _ => []
  | Vis e k =>
      let x := env h _ e in
      calls_during env (k x) (call e x :: h) ++ [call e x]
  end.

Definition count (f : Call -> bool) (calls : list Call) : nat :=
  List.length (filter f calls).

(** Block hash requests and log lines only: what building a transaction
    asks. *)
Definition blockhash_event : EventClass :=
  fun _ e => match e with
             | get_recent_blockhash => true
             | log _ _ => true
             | _ => false
             end.

(** Lookups, block hashes and log lines: what the processor asks before
    its first submission. *)
Definition build_event : EventClass :=
  fun _ e => match e with
             | get_token_accounts_by_owner _ _ => true
             | get_recent_blockhash => true
             | log _ _ => true
             | _ => false
             end.


(** Some lookup of the token accounts of [owner] answered with [account]
    first. *)
Definition found (env : Env) (self : TransferProcessor) (owner account : string) : Prop :=
  exists h rest,
    env h _ (get_token_accounts_by_owner owner (NEXACOIN_MINT (config self)))
    = Ok (account :: rest).

(** A leg that the builds went past: its amount is not positive, or its
    transaction could be built and a block hash was fetched. *)
Definition passed (valid_address : AddressCheck) (env : Env)
  (source dest : string) (leg_amount : Z) : Prop :=
  0 < leg_amount ->
  buildable valid_address source dest leg_amount = true
  /\ exists h bh, env h _ get_recent_blockhash = Ok bh.

(** A record that credits the monitored token account and carries an empty
    list of signatures. *)
Definition unsigned_record : RawTransaction := {|
  err := None;
  preTokenBalances := preTokenBalances (example_record "" 2000);
  postTokenBalances := postTokenBalances (example_record "" 2000);
  raw_instructions := raw_instructions (example_record "" 2000);
  accountKeys := accountKeys (example_record "" 2000);
  signatures := Some [];
  blockTime := 1700000000
|}.

(** The refresh of the token accounts is due whenever asked. *)
Definition refresh_always_due (env : Env) : Prop :=
  forall h polling_interval, env h _ (refresh_due polling_interval) = true.

Definition refresh_never_due (env : Env) : Prop :=
  forall h polling_interval, env h _ (refresh_due polling_interval) = false.

(** The lookup of the token accounts of [owner] gives none: it raises or
    answers the empty list. *)
Definition no_token_accounts (env : Env) (token_mint owner : string) : Prop :=
  forall h,
    match env h _ (get_token_accounts_by_owner owner token_mint) with
    | Ok (_ :: _) => False
    | _ => True
    end.

(** [base] at an hour mark and with the lookups of token accounts out of
    order. *)
Definition at_refresh_with_lookups_down (base : Env) : Env :=
  fun h X e =>
    match e in Event X return X -> X with
    | get_token_accounts_by_owner _ _ => fun _ => Raise (RpcError "rpc down")
    | refresh_due _ => fun _ => true
    | _ => fun answer => answer
    end (base h X e).

(** [base] with no token account for the owners in [missing]. *)
Definition without_token_accounts (missing : list string) (base : Env) : Env :=
  fun h X e =>
    match e in Event X return X -> X with
    | get_token_accounts_by_owner owner _ =>
        fun answer => if in_list owner missing then Ok [] else answer
    | _ => fun answer => answer
    end (base h X e).

(** [base] with every request for the record [sig] failing. *)
Definition record_down (sig : string) (base : Env) : Env :=
  fun h X e =>
    match e in Event X return X -> X with
    | get_transaction s =>
        fun answer => if String.eqb s sig then Raise (RpcError "rpc down") else answer
    | _ => fun answer => answer
    end (base h X e).

(** Four records above nothing the cursor [A] points at. *)
Definition page_of_four (account : string) (before : option string)
  : result (list SigInfo) :=
  Ok (sig_infos ["E"; "D"; "C"; "B"]).

(** The records a run asks for, in the order it asks for them. *)
Definition fetched_during {R} (env : Env) (p : Prog R) (h : list Call) : list string :=
  filter_map fetched_signature (rev (calls_during env p h)).



(* ================================================================= *)
(** * Properties *)

Module FloatFacts.

Lemma digits2_size (p : positive) : digits2_pos p = Pos.size p.
Proof. induction p; simpl; congruence. Qed.

(** A positive number lies below two to the number of its digits... *)
Lemma digits_upper (p : positive) : Zpos p < 2 ^ Zpos (digits2_pos p).
Proof.
  rewrite digits2_size.
  pose proof (Pos.size_gt p) as H.
  rewrite <- Pos2Z.inj_pow. exact H.
Qed.

(** ... and at or above two to that number less one. *)
Lemma digits_lower (p : positive) : 2 ^ (Zpos (digits2_pos p) - 1) <= Zpos p.
Proof.
  rewrite digits2_size.
  pose proof (Pos.size_le p) as H.
  assert (H' : 2 ^ Zpos (Pos.size p) <= 2 * Zpos p).
  { rewrite <- Pos2Z.inj_pow. exact H. }
  replace (Zpos (Pos.size p)) with (Z.succ (Zpos (Pos.size p) - 1)) in H' by lia.
  rewrite Z.pow_succ_r in H' by lia. lia.
Qed.

Lemma digits_le (p : positive) (k : Z) :
  0 <= k -> Zpos p < 2 ^ k -> Zpos (digits2_pos p) <= k.
Proof.
  intros Hk Hp.
  destruct (Z_le_gt_dec (Zpos (digits2_pos p)) k) as [|Hgt]; [assumption|].
  pose proof (digits_lower p) as Hl.
  assert (2 ^ k <= 2 ^ (Zpos (digits2_pos p) - 1)) by (apply Z.pow_le_mono_r; lia).
  lia.
Qed.

Lemma Zdigits2_le (m k : Z) : 0 <= m -> 0 <= k -> m < 2 ^ k -> Zdigits2 m <= k.
Proof.
  intros Hm Hk Hlt. destruct m as [|p|p]; simpl; try lia.
  now apply digits_le.
Qed.

Lemma Zdigits2_upper (m : Z) : 0 <= m -> m < 2 ^ Zdigits2 m.
Proof.
  destruct m as [|p|p]; simpl; intros; try lia. apply digits_upper.
Qed.

Lemma Zdigits2_nonneg (m : Z) : 0 <= Zdigits2 m.
Proof. destruct m; simpl; lia. Qed.

(** *** Shifting right *)

Lemma shr_1_div2 (mrs : shr_record) :
  0 <= shr_m mrs -> shr_m (shr_1 mrs) = shr_m mrs / 2.
Proof.
  destruct mrs as [m r s]; simpl. intros Hm.
  destruct m as [|[p|p|]|p]; simpl; try reflexivity; try lia.
  - rewrite Pos2Z.inj_xI. symmetry.
    replace (2 * Zpos p + 1) with (1 + Zpos p * 2) by lia.
    rewrite Z.div_add by lia. reflexivity.
  - rewrite Pos2Z.inj_xO. symmetry.
    replace (2 * Zpos p) with (Zpos p * 2) by lia.
    now rewrite Z.div_mul by lia.
Qed.

Lemma pow2_xI (p : positive) : 2 ^ Zpos p~1 = 2 * (2 ^ Zpos p * 2 ^ Zpos p).
Proof.
  change (Zpos p~1) with (2 * Zpos p + 1).
  replace (2 * Zpos p + 1) with (1 + (Zpos p + Zpos p)) by lia.
  do 2 (rewrite Z.pow_add_r by lia). now rewrite Z.pow_1_r.
Qed.

Lemma pow2_xO (p : positive) : 2 ^ Zpos p~0 = 2 ^ Zpos p * 2 ^ Zpos p.
Proof.
  change (Zpos p~0) with (2 * Zpos p).
  replace (2 * Zpos p) with (Zpos p + Zpos p) by lia.
  now rewrite Z.pow_add_r by lia.
Qed.

Lemma pow2_pos (k : Z) : 0 <= k -> 0 < 2 ^ k.
Proof. intros. apply Z.pow_pos_nonneg; lia. Qed.

Lemma iter_shr_1 (p : positive) : forall mrs,
  0 <= shr_m mrs ->
  shr_m (iter_pos shr_1 p mrs) = shr_m mrs / 2 ^ Zpos p.
Proof.
  induction p as [p IH|p IH|]; intros mrs Hm; simpl iter_pos.
  - assert (H1 : 0 <= shr_m (shr_1 mrs)).
    { rewrite shr_1_div2 by assumption. apply Z.div_pos; lia. }
    assert (H2 : 0 <= shr_m (iter_pos shr_1 p (shr_1 mrs))).
    { rewrite IH by assumption. apply Z.div_pos; [assumption|]. apply pow2_pos; lia. }
    rewrite IH by assumption. rewrite IH by assumption.
    rewrite shr_1_div2 by assumption.
    assert (0 < 2 ^ Zpos p) by (apply pow2_pos; lia).
    rewrite !Z.div_div by lia.
    rewrite pow2_xI. f_equal; lia.
  - assert (H2 : 0 <= shr_m (iter_pos shr_1 p mrs)).
    { rewrite IH by assumption. apply Z.div_pos; [assumption|]. apply pow2_pos; lia. }
    rewrite IH by assumption. rewrite IH by assumption.
    assert (0 < 2 ^ Zpos p) by (apply pow2_pos; lia).
    rewrite !Z.div_div by lia.
    rewrite pow2_xO. reflexivity.
  - rewrite shr_1_div2 by assumption. reflexivity.
Qed.

(** *** One rounding step keeps a small number small *)



Lemma shr_fexp_below (U m e : Z) (l : location) :
  emin64 <= U -> below U m e ->
  below U (shr_m (fst (shr_fexp prec emax m e l))) (snd (shr_fexp prec emax m e l))
  /\ snd (shr_fexp prec emax m e l) <= U.
Proof.
  intros HU (Hm & k & Hk & Hlt & Hke).
  unfold shr_fexp, shr.
  pose proof (Zdigits2_le m k Hm Hk Hlt) as Hd.
  assert (Hf : fexp prec emax (Zdigits2 m + e) <= U).
  { unfold fexp. fold emin64. unfold prec. lia. }
  assert (Hrec : shr_m (shr_record_of_loc m l) = m).
  { destruct l as [|[| |]]; reflexivity. }
  destruct (fexp prec emax (Zdigits2 m + e) - e) as [|n|n] eqn:En; simpl fst; simpl snd.
  - rewrite Hrec. split; [|lia]. split; [assumption|]. exists k. lia.
  - rewrite iter_shr_1 by (rewrite Hrec; assumption). rewrite Hrec.
    assert (Hp : 0 < 2 ^ Zpos n) by (apply pow2_pos; lia).
    split; [|lia]. split.
    + apply Z.div_pos; lia.
    + destruct (Z_le_gt_dec (Zpos n) k) as [Hnk|Hnk].
      * exists (k - Zpos n). split; [lia|]. split; [|lia].
        apply Z.div_lt_upper_bound; [lia|].
        rewrite <- Z.pow_add_r by lia.
        replace (Zpos n + (k - Zpos n)) with k by lia. assumption.
      * exists 0. split; [lia|]. split; [|lia].
        rewrite Z.div_small; [simpl; lia|].
        split; [assumption|].
        assert (2 ^ k <= 2 ^ Zpos n) by (apply Z.pow_le_mono_r; lia). lia.
  - rewrite Hrec. split; [|lia]. split; [assumption|]. exists k. lia.
Qed.

Lemma round_nearest_even_below (U m e : Z) (l : location) :
  below U m e -> below (U + 1) (round_nearest_even m l) e.
Proof.
  intros (Hm & k & Hk & Hlt & Hke).
  assert (H : 0 <= round_nearest_even m l <= m + 1).
  { unfold round_nearest_even. destruct l as [|[| |]]; try lia.
    destruct (Z.even m); lia. }
  split; [lia|]. exists (k + 1). split; [lia|]. split; [|lia].
  rewrite Z.pow_add_r by lia. change (2 ^ 1) with 2. lia.
Qed.


Lemma binary_round_aux_below (U : Z) (s : bool) (m e : Z) (l : location) :
  emin64 <= U -> U + 1 <= emax - prec -> below U m e ->
  finite_below (U + 1) s (binary_round_aux prec emax s m e l).
Proof.
  intros HU Hmax Hb. unfold binary_round_aux.
  pose proof (shr_fexp_below U m e l HU Hb) as [H1 H1e].
  destruct (shr_fexp prec emax m e l) as [mrs' e'] eqn:E1. simpl fst in *; simpl snd in *.
  pose proof (round_nearest_even_below U _ e' (loc_of_shr_record mrs') H1) as H2.
  assert (HU' : emin64 <= U + 1) by lia.
  pose proof (shr_fexp_below (U + 1) _ e' loc_Exact HU' H2) as [H3 H3e].
  destruct (shr_fexp prec emax (round_nearest_even (shr_m mrs') (loc_of_shr_record mrs')) e' loc_Exact)
    as [mrs'' e''] eqn:E2. simpl fst in *; simpl snd in *.
  destruct (shr_m mrs'') as [|mf|mf] eqn:Em.
  - reflexivity.
  - replace (e'' <=? emax - prec) with true by (symmetry; apply Z.leb_le; lia).
    simpl. split; [reflexivity|assumption].
  - destruct H3 as [H3 _]. lia.
Qed.

(** *** The three float operations of [share] *)


Lemma finite_below_nonneg (U : Z) (x : float) :
  finite_below U false x -> nonneg_below U x.
Proof. destruct x as [s|s| |s m e]; simpl; try tauto. intros [-> H]; exact H. Qed.

Lemma below_digits (p : positive) (e : Z) :
  below (Zpos (digits2_pos p) + e) (Zpos p) e.
Proof.
  split; [lia|]. exists (Zpos (digits2_pos p)).
  split; [lia|]. split; [apply digits_upper|lia].
Qed.

Lemma below_weaken (U V m e : Z) : U <= V -> below U m e -> below V m e.
Proof. intros HUV (Hm & k & Hk & Hlt & Hke). split; [assumption|]. exists k. lia. Qed.

Lemma iter_xO (d m : positive) : Zpos (Pos.iter xO m d) = Zpos m * 2 ^ Zpos d.
Proof.
  induction d as [|d IH] using Pos.peano_ind.
  - simpl. lia.
  - rewrite Pos.iter_succ, Pos2Z.inj_succ, Z.pow_succ_r by lia.
    change (Zpos (Pos.iter xO m d)~0) with (2 * Zpos (Pos.iter xO m d)).
    rewrite IH. lia.
Qed.

Lemma shl_align_below (U : Z) (mx : positive) (ex ex' : Z) :
  below U (Zpos mx) ex ->
  below U (Zpos (fst (shl_align mx ex ex'))) (snd (shl_align mx ex ex')).
Proof.
  intros (Hm & k & Hk & Hlt & Hke). unfold shl_align.
  destruct (ex' - ex) as [|d|d] eqn:Ed; simpl fst; simpl snd.
  - split; [lia|]. exists k. lia.
  - split; [lia|]. exists k. lia.
  - rewrite iter_xO. split; [lia|]. exists (k + Zpos d).
    split; [lia|]. split; [|lia].
    rewrite Z.pow_add_r by lia.
    apply Z.mul_lt_mono_pos_r; [apply pow2_pos; lia|assumption].
Qed.

Lemma float_of_int_below (n : Z) :
  0 < n < 2 ^ 960 ->
  exists x, float_of_int n = Ok x /\ nonneg_below 961 x.
Proof.
  intros Hn. destruct n as [|p|p]; try lia.
  unfold float_of_int, binary_normalize, binary_round.
  assert (Hb : below 960 (Zpos p) 0).
  { split; [lia|]. exists 960. lia. }
  pose proof (shl_align_below 960 p 0 (fexp prec emax (Zpos (digits2_pos p) + 0)) Hb) as Hs.
  destruct (shl_align p 0 (fexp prec emax (Zpos (digits2_pos p) + 0))) as [mz ez].
  simpl fst in Hs; simpl snd in Hs.
  assert (H : finite_below (960 + 1) false
                (binary_round_aux prec emax false (Zpos mz) ez loc_Exact)).
  { apply binary_round_aux_below; [vm_compute; discriminate|vm_compute; discriminate|exact Hs]. }
  apply finite_below_nonneg in H.
  destruct (binary_round_aux prec emax false (Zpos mz) ez loc_Exact) as [s|s| |[|] m e];
    simpl in H; try contradiction; eexists; (split; [reflexivity|]); simpl; auto.
Qed.


Lemma percentage_in_range_below (p : float) :
  percentage_in_range p = true -> nonneg_below 7 p.
Proof.
  destruct p as [s|s| |[|] m e]; simpl; try discriminate; auto.
  intros H. apply Z.leb_le in H.
  apply below_weaken with (2 := below_digits m e). assumption.
Qed.

Lemma f100_eq : f100 = S754_finite false 7036874417766400 (-46).
Proof. vm_compute. reflexivity. Qed.

Lemma div_100_below (p : float) :
  nonneg_below 7 p ->
  exists q, fdiv p f100 = Ok q /\ nonneg_below 2 q.
Proof.
  intros Hp. rewrite f100_eq. unfold fdiv.
  eexists; split; [reflexivity|].
  destruct p as [s|s| |[|] m e]; simpl in Hp; try contradiction.
  - simpl. exact I.
  - cbn [SFdiv xorb]. unfold SFdiv_core_binary.
    set (d1 := Zdigits2 (Zpos m)).
    set (e' := Z.min (fexp prec emax (d1 + e - (Zdigits2 7036874417766400 + -46)))
                     (e - -46)).
    set (s := e - -46 - e').
    set (m' := match s with
               | 0 => Zpos m
               | Zpos _ => Z.shiftl (Zpos m) s
               | Zneg _ => 0
               end).
    assert (Hd1 : d1 + e <= 7).
    { destruct Hp as (_ & k & Hk & Hlt & Hke).
      pose proof (@digits_le m k Hk Hlt) as Hdl.
      change d1 with (Zpos (digits2_pos m)). lia. }
    assert (Hd1pos : 0 < d1) by (change d1 with (Zpos (digits2_pos m)); lia).
    assert (He' : e' <= -53).
    { unfold e', fexp, emin, prec, emax.
      change (Zdigits2 7036874417766400) with 53. lia. }
    assert (Hs : 0 <= s).
    { unfold s, e'. lia. }
    assert (Hm' : 0 <= m' < 2 ^ (d1 + s)).
    { unfold m'. destruct s as [|sp|sp] eqn:Es; try lia.
      - rewrite Z.add_0_r. split; [lia|]. apply Zdigits2_upper. lia.
      - rewrite Z.shiftl_mul_pow2 by lia. rewrite Z.pow_add_r by lia.
        assert (0 < 2 ^ Zpos sp) by (apply pow2_pos; lia).
        split; [lia|].
        apply Z.mul_lt_mono_pos_r; [assumption|]. apply Zdigits2_upper. lia. }
    pose proof (Z_div_mod m' 7036874417766400 eq_refl) as Hdm.
    destruct (Z.div_eucl m' 7036874417766400) as [q r].
    destruct Hdm as [Hq Hr].
    assert (Hq0 : 0 <= q) by nia.
    assert (Hb : below 1 q e').
    { split; [assumption|].
      destruct (Z_le_gt_dec 52 (d1 + s)) as [Hge|Hlt].
      - exists (d1 + s - 52). split; [lia|]. split; [|unfold s; lia].
        assert (H52 : 2 ^ (d1 + s) = 2 ^ 52 * 2 ^ (d1 + s - 52)).
        { rewrite <- Z.pow_add_r by lia. f_equal. lia. }
        assert (0 < 2 ^ (d1 + s - 52)) by (apply pow2_pos; lia).
        change (2 ^ 52) with 4503599627370496 in H52. nia.
      - exists 0. split; [lia|]. split; [|lia].
        assert (2 ^ (d1 + s) <= 2 ^ 52) by (apply Z.pow_le_mono_r; lia).
        change (2 ^ 52) with 4503599627370496 in *. change (2 ^ 0) with 1. nia. }
    apply finite_below_nonneg.
    apply (binary_round_aux_below 1 false q e'); [vm_compute; discriminate|vm_compute; discriminate|exact Hb].
Qed.

Lemma fmul_below (A B : Z) (x y : float) :
  emin64 <= A + B -> A + B + 1 <= emax - prec ->
  nonneg_below A x -> nonneg_below B y ->
  nonneg_below (A + B + 1) (fmul x y).
Proof.
  intros Hlo Hhi Hx Hy.
  destruct x as [sx|sx| |[|] mx ex]; simpl in Hx; try contradiction;
  destruct y as [sy|sy| |[|] my ey]; simpl in Hy; try contradiction;
    try exact I.
  unfold fmul. cbn [SFmul xorb].
  apply finite_below_nonneg. apply binary_round_aux_below; try assumption.
  destruct Hx as (_ & kx & Hkx & Hltx & Hkex).
  destruct Hy as (_ & ky & Hky & Hlty & Hkey).
  split; [lia|]. exists (kx + ky). split; [lia|]. split; [|lia].
  rewrite Z.pow_add_r by lia. rewrite Pos2Z.inj_mul.
  apply Z.mul_lt_mono_nonneg; lia.
Qed.

Lemma int_of_float_nonneg (U : Z) (x : float) :
  nonneg_below U x -> exists v, int_of_float x = Ok v /\ 0 <= v.
Proof.
  destruct x as [s|s| |[|] m e]; simpl; try contradiction; intros _.
  - exists 0. split; [reflexivity|lia].
  - eexists. split; [reflexivity|].
    destruct e as [|e|e].
    + rewrite Z.shiftl_0_r. lia.
    + apply Z.shiftl_nonneg. lia.
    + apply Z.shiftr_nonneg. lia.
Qed.

(** *** Large numbers stay large *)


Lemma Zdigits2_ge (m k : Z) : 0 <= k -> 2 ^ k <= m -> k + 1 <= Zdigits2 m.
Proof.
  intros Hk Hm.
  assert (Hpos : 0 < m) by (pose proof (pow2_pos k Hk); lia).
  pose proof (Zdigits2_upper m (Z.lt_le_incl _ _ Hpos)) as Hu.
  pose proof (Zdigits2_nonneg m) as Hn.
  destruct (Z_le_gt_dec (k + 1) (Zdigits2 m)) as [|Hgt]; [assumption|].
  assert (2 ^ Zdigits2 m <= 2 ^ k) by (apply Z.pow_le_mono_r; lia). lia.
Qed.

Lemma Zdigits2_lower (m : Z) : 0 < m -> 2 ^ (Zdigits2 m - 1) <= m.
Proof. destruct m as [|p|p]; intros H; try lia. apply digits_lower. Qed.

Lemma Zdigits2_mono (m m' : Z) : 0 < m -> m <= m' -> Zdigits2 m <= Zdigits2 m'.
Proof.
  intros Hm Hle. pose proof (Zdigits2_lower m Hm) as Hl.
  assert (Hd : 0 < Zdigits2 m) by (destruct m; simpl; lia).
  pose proof (Zdigits2_ge m' (Zdigits2 m - 1)). lia.
Qed.

Lemma Zdigits2_shiftr (m n : Z) :
  0 < m -> 0 <= n < Zdigits2 m ->
  0 < m / 2 ^ n /\ Zdigits2 m - n <= Zdigits2 (m / 2 ^ n).
Proof.
  intros Hm Hn. pose proof (Zdigits2_lower m Hm) as Hl.
  assert (Hp : 0 < 2 ^ n) by (apply pow2_pos; lia).
  assert (Hq : 2 ^ (Zdigits2 m - 1 - n) <= m / 2 ^ n).
  { apply Z.div_le_lower_bound; [assumption|].
    rewrite <- Z.pow_add_r by lia.
    replace (n + (Zdigits2 m - 1 - n)) with (Zdigits2 m - 1) by lia. assumption. }
  assert (0 < 2 ^ (Zdigits2 m - 1 - n)) by (apply pow2_pos; lia).
  split; [lia|].
  pose proof (Zdigits2_ge (m / 2 ^ n) (Zdigits2 m - 1 - n)). lia.
Qed.

Lemma Zdigits2_shiftl (m d : Z) :
  0 < m -> 0 <= d -> Zdigits2 m + d <= Zdigits2 (m * 2 ^ d).
Proof.
  intros Hm Hd. pose proof (Zdigits2_lower m Hm) as Hl.
  assert (Hdm : 0 < Zdigits2 m) by (destruct m; simpl; lia).
  assert (Hp : 0 < 2 ^ d) by (apply pow2_pos; lia).
  assert (Hq : 2 ^ (Zdigits2 m - 1 + d) <= m * 2 ^ d).
  { rewrite Z.pow_add_r by lia. apply Z.mul_le_mono_nonneg_r; lia. }
  pose proof (Zdigits2_ge (m * 2 ^ d) (Zdigits2 m - 1 + d)). lia.
Qed.

(** A shift to the working exponent keeps a number that is well above the
    underflow threshold, and leaves it an exponent within 53 of its top. *)
Lemma shr_fexp_above (K m e : Z) (l : location) :
  emin64 + prec <= K -> above K m e ->
  above K (shr_m (fst (shr_fexp prec emax m e l))) (snd (shr_fexp prec emax m e l))
  /\ K - prec <= snd (shr_fexp prec emax m e l).
Proof.
  intros HK [Hm Hd]. unfold shr_fexp, shr.
  assert (Hf : fexp prec emax (Zdigits2 m + e) = Zdigits2 m + e - prec).
  { unfold fexp. fold emin64. lia. }
  assert (Hrec : shr_m (shr_record_of_loc m l) = m).
  { destruct l as [|[| |]]; reflexivity. }
  unfold prec in *.
  destruct (fexp 53 emax (Zdigits2 m + e) - e) as [|n|n] eqn:En; simpl fst; simpl snd.
  - rewrite Hrec. split; [split; assumption|lia].
  - rewrite iter_shr_1 by (rewrite Hrec; lia). rewrite Hrec.
    assert (Hn : 0 <= Zpos n < Zdigits2 m) by lia.
    destruct (Zdigits2_shiftr m (Zpos n) Hm Hn) as [Hpos Hdig].
    split; [split; [assumption|lia]|lia].
  - rewrite Hrec. split; [split; assumption|lia].
Qed.

Lemma round_nearest_even_above (K m e : Z) (l : location) :
  above K m e -> above K (round_nearest_even m l) e.
Proof.
  intros [Hm Hd].
  assert (H : m <= round_nearest_even m l).
  { unfold round_nearest_even. destruct l as [|[| |]]; try lia.
    destruct (Z.even m); lia. }
  split; [lia|]. pose proof (Zdigits2_mono m _ Hm H). lia.
Qed.


Lemma binary_round_aux_large (K m e : Z) (l : location) :
  emin64 + prec <= K -> above K m e ->
  large K (binary_round_aux prec emax false m e l).
Proof.
  intros HK Ha. unfold binary_round_aux.
  pose proof (shr_fexp_above K m e l HK Ha) as [H1 H1e].
  destruct (shr_fexp prec emax m e l) as [mrs' e'] eqn:E1. simpl fst in *; simpl snd in *.
  pose proof (round_nearest_even_above K _ e' (loc_of_shr_record mrs') H1) as H2.
  pose proof (shr_fexp_above K _ e' loc_Exact HK H2) as [H3 H3e].
  destruct (shr_fexp prec emax (round_nearest_even (shr_m mrs') (loc_of_shr_record mrs')) e' loc_Exact)
    as [mrs'' e''] eqn:E2. simpl fst in *; simpl snd in *.
  destruct H3 as [H3 H3d].
  destruct (shr_m mrs'') as [|mf|mf] eqn:Em; try lia.
  destruct (e'' <=? emax - prec); simpl; [|exact I].
  simpl in H3d. split; lia.
Qed.

Lemma shl_align_above (K : Z) (mx : positive) (ex ex' : Z) :
  above K (Zpos mx) ex ->
  above K (Zpos (fst (shl_align mx ex ex'))) (snd (shl_align mx ex ex')).
Proof.
  intros [Hm Hd]. unfold shl_align.
  destruct (ex' - ex) as [|d|d] eqn:Ed; simpl fst; simpl snd.
  - split; assumption.
  - split; assumption.
  - split; [lia|]. rewrite iter_xO.
    assert (Hsh : Zdigits2 (Zpos mx) + Zpos d <= Zdigits2 (Zpos mx * 2 ^ Zpos d))
      by (apply Zdigits2_shiftl; lia).
    lia.
Qed.

Lemma binary_normalize_large (K m e : Z) :
  emin64 + prec <= K -> above K m e ->
  large K (binary_normalize prec emax m e false).
Proof.
  intros HK Ha. destruct m as [|p|p]; try (destruct Ha; lia).
  unfold binary_normalize, binary_round.
  pose proof (shl_align_above K p e (fexp prec emax (Zpos (digits2_pos p) + e)) Ha) as Hs.
  destruct (shl_align p e (fexp prec emax (Zpos (digits2_pos p) + e))) as [mz ez].
  apply binary_round_aux_large; assumption.
Qed.

(** *** Sums of non-negative floats *)



Lemma fnonneg_nonneg (x : float) : fnonneg x = true -> nonneg x.
Proof. destruct x as [s|[|]| |[|] m e]; simpl; try discriminate; auto. Qed.

Lemma large_at_least (K : Z) (x : float) : large K x -> at_least K x.
Proof. destruct x as [s|[|]| |[|] m e]; simpl; tauto. Qed.

Lemma at_least_nonneg (K : Z) (x : float) : at_least K x -> nonneg x.
Proof. destruct x as [s|[|]| |[|] m e]; simpl; tauto. Qed.

(** A non-negative float is in range or at least 128. *)
Lemma in_range_or_at_least (x : float) :
  nonneg x -> percentage_in_range x = true \/ at_least 8 x.
Proof.
  destruct x as [s|[|]| |[|] m e]; cbn [nonneg percentage_in_range at_least];
    try tauto; intros _.
  destruct (Zpos (digits2_pos m) + e <=? 7) eqn:E; [now left|].
  apply Z.leb_gt in E. right. lia.
Qed.

Lemma binary_round_aux_nonneg (m e : Z) (l : location) :
  0 <= m -> nonneg (binary_round_aux prec emax false m e l).
Proof.
  intros Hm. unfold binary_round_aux.
  assert (Hb : below (Z.max emin64 (Zdigits2 m + e)) m e).
  { split; [assumption|]. exists (Zdigits2 m).
    split; [apply Zdigits2_nonneg|]. split; [now apply Zdigits2_upper|lia]. }
  pose proof (shr_fexp_below _ m e l (Z.le_max_l _ _) Hb) as [H1 _].
  destruct (shr_fexp prec emax m e l) as [mrs' e'] eqn:E1. simpl fst in *; simpl snd in *.
  pose proof (round_nearest_even_below _ _ e' (loc_of_shr_record mrs') H1) as H2.
  assert (HU : emin64 <= Z.max emin64 (Zdigits2 m + e) + 1) by lia.
  pose proof (shr_fexp_below _ _ e' loc_Exact HU H2) as [[H3 _] _].
  destruct (shr_fexp prec emax (round_nearest_even (shr_m mrs') (loc_of_shr_record mrs')) e' loc_Exact)
    as [mrs'' e''] eqn:E2. simpl fst in *; simpl snd in *.
  destruct (shr_m mrs'') as [|mf|mf]; try lia; [exact I|].
  destruct (e'' <=? emax - prec); exact I.
Qed.

Lemma binary_normalize_nonneg (m e : Z) :
  0 <= m -> nonneg (binary_normalize prec emax m e false).
Proof.
  intros Hm. destruct m as [|p|p]; try lia; [exact I|].
  unfold binary_normalize, binary_round.
  destruct (shl_align p e (fexp prec emax (Zpos (digits2_pos p) + e))) as [mz ez].
  apply binary_round_aux_nonneg. lia.
Qed.

(** The mantissa [shl_align] gives for a lower exponent has the same value. *)
Lemma shl_align_value (mx : positive) (ex ez : Z) :
  ez <= ex -> Zpos (fst (shl_align mx ex ez)) = Zpos mx * 2 ^ (ex - ez).
Proof.
  intros Hle. unfold shl_align.
  destruct (ez - ex) as [|d|d] eqn:Ed; simpl fst; try lia.
  - replace (ex - ez) with 0 by lia. simpl. lia.
  - rewrite iter_xO. f_equal. f_equal. lia.
Qed.

Lemma shl_align_digits (mx : positive) (ex ez : Z) :
  ez <= ex ->
  Zpos (digits2_pos mx) + ex <= Zdigits2 (Zpos (fst (shl_align mx ex ez))) + ez.
Proof.
  intros Hle. rewrite shl_align_value by assumption.
  pose proof (Zdigits2_shiftl (Zpos mx) (ex - ez)). simpl Zdigits2 in H at 1. lia.
Qed.

Lemma fadd_nonneg (x y : float) : nonneg x -> nonneg y -> nonneg (fadd x y).
Proof.
  intros Hx Hy.
  destruct x as [sx|[|]| |[|] mx ex]; simpl in Hx; try contradiction;
  destruct y as [sy|[|]| |[|] my ey]; simpl in Hy; try contradiction;
    try exact I; try (destruct sx; exact I); try (destruct sy; exact I).
  - destruct sx, sy; exact I.
  - unfold fadd. cbn [SFadd cond_Zopp]. apply binary_normalize_nonneg. lia.
Qed.

Lemma fadd_at_least (K : Z) (x y : float) :
  emin64 + prec <= K -> nonneg x -> nonneg y ->
  at_least K x \/ at_least K y -> at_least K (fadd x y).
Proof.
  intros HK Hx Hy Hbig.
  destruct x as [sx|[|]| |[|] mx ex]; cbn [nonneg] in Hx; try contradiction;
  destruct y as [sy|[|]| |[|] my ey]; cbn [nonneg] in Hy; try contradiction;
    cbn [at_least] in Hbig; try tauto; try exact I.
  unfold fadd. cbn [SFadd cond_Zopp].
  apply large_at_least. apply binary_normalize_large; [assumption|].
  pose proof (shl_align_digits mx ex (Z.min ex ey) (Z.le_min_l _ _)) as Dx.
  pose proof (shl_align_digits my ey (Z.min ex ey) (Z.le_min_r _ _)) as Dy.
  set (mx' := Zpos (fst (shl_align mx ex (Z.min ex ey)))) in *.
  set (my' := Zpos (fst (shl_align my ey (Z.min ex ey)))) in *.
  assert (Hmx : 0 < mx') by (unfold mx'; lia).
  assert (Hmy : 0 < my') by (unfold my'; lia).
  split; [lia|].
  pose proof (Zdigits2_mono mx' (mx' + my') Hmx).
  pose proof (Zdigits2_mono my' (mx' + my') Hmy).
  lia.
Qed.

Lemma f0_01_eq : f0_01 = S754_finite false 5764607523034235 (-59).
Proof. vm_compute. reflexivity. Qed.

(** A sum of 128 or more is out of the tolerance around 100. *)
Lemma far_from_100 (s : float) :
  at_least 8 s -> fgt (fabs (fsub s f100)) f0_01 = true.
Proof.
  intros Hs.
  assert (Hl : large 5 (fsub s f100)).
  { rewrite f100_eq.
    destruct s as [sx|[|]| |[|] ms es]; cbn [at_least] in Hs; try contradiction; [exact I|].
    unfold fsub. cbn [SFsub cond_Zopp].
    apply binary_normalize_large; [vm_compute; discriminate|].
    set (ez := Z.min es (-46)).
    assert (Hez : ez <= -46) by (unfold ez; lia).
    rewrite (shl_align_value ms es ez) by (unfold ez; lia).
    rewrite (shl_align_value 7036874417766400 (-46) ez) by assumption.
    pose proof (digits_lower ms) as Hms.
    assert (Hpow : 2 ^ (7 - ez) <= Zpos ms * 2 ^ (es - ez)).
    { apply Z.le_trans with (2 ^ (Zpos (digits2_pos ms) - 1) * 2 ^ (es - ez)).
      - rewrite <- Z.pow_add_r by lia. apply Z.pow_le_mono_r; lia.
      - apply Z.mul_le_mono_nonneg_r; [apply Z.pow_nonneg; lia|assumption]. }
    assert (H100 : 7036874417766400 * 2 ^ (-46 - ez) = 100 * 2 ^ (- ez)).
    { replace (- ez) with (46 + (-46 - ez)) by lia.
      rewrite Z.pow_add_r by lia. change (2 ^ 46) with 70368744177664. lia. }
    assert (H7 : 2 ^ (7 - ez) = 128 * 2 ^ (- ez)).
    { replace (7 - ez) with (7 + - ez) by lia. rewrite Z.pow_add_r by lia. reflexivity. }
    assert (H4 : 2 ^ (4 - ez) = 16 * 2 ^ (- ez)).
    { replace (4 - ez) with (4 + - ez) by lia. rewrite Z.pow_add_r by lia. reflexivity. }
    assert (Hp : 0 < 2 ^ (- ez)) by (apply pow2_pos; lia).
    set (M := Zpos ms * 2 ^ (es - ez) - 7036874417766400 * 2 ^ (-46 - ez)) in *.
    assert (HM : 2 ^ (4 - ez) <= M) by (unfold M; lia).
    split; [lia|].
    pose proof (Zdigits2_ge M (4 - ez)). lia. }
  rewrite f0_01_eq. unfold fgt, fabs.
  destruct (fsub s f100) as [sd|[|]| |[|] md ed]; cbn [large] in Hl; try contradiction.
  - reflexivity.
  - unfold SFabs, SFltb, SFcompare. destruct Hl as [_ He]. unfold prec in He.
    replace (-59 ?= ed) with Lt by (symmetry; apply Z.compare_lt_iff; lia).
    reflexivity.
Qed.

(** Three non-negative percentages whose sum passes the tolerance test are
    all in range. *)
Lemma tolerance_in_range (p1 p2 p3 : float) :
  fnonneg p1 = true -> fnonneg p2 = true -> fnonneg p3 = true ->
  within_tolerance [p1; p2; p3] = true ->
  percentage_in_range p1 = true
  /\ percentage_in_range p2 = true
  /\ percentage_in_range p3 = true.
Proof.
  intros H1 H2 H3 Htol.
  apply fnonneg_nonneg in H1. apply fnonneg_nonneg in H2. apply fnonneg_nonneg in H3.
  unfold within_tolerance, percentages_warning in Htol. apply negb_true_iff in Htol.
  assert (HK : emin64 + prec <= 8) by (vm_compute; discriminate).
  assert (H0 : nonneg (S754_zero false)) by exact I.
  assert (Hfar : at_least 8 p1 \/ at_least 8 p2 \/ at_least 8 p3 -> False).
  { intros Hbig.
    assert (Hs : at_least 8 (fsum [p1; p2; p3])).
    { unfold fsum. cbn [fold_left].
      pose proof (fadd_nonneg _ _ H0 H1) as N1.
      pose proof (fadd_nonneg _ _ N1 H2) as N2.
      destruct Hbig as [B|[B|B]].
      - apply fadd_at_least; try assumption. left.
        apply fadd_at_least; try assumption. left.
        apply fadd_at_least; try assumption. now right.
      - apply fadd_at_least; try assumption. left.
        apply fadd_at_least; try assumption. now right.
      - apply fadd_at_least; try assumption. now right. }
    rewrite (far_from_100 _ Hs) in Htol. discriminate. }
  destruct (in_range_or_at_least p1 H1) as [R1|B1]; [|exfalso; tauto].
  destruct (in_range_or_at_least p2 H2) as [R2|B2]; [|exfalso; tauto].
  destruct (in_range_or_at_least p3 H3) as [R3|B3]; [|exfalso; tauto].
  repeat split; assumption.
Qed.

(** The same for the three percentages of a configuration that passed the
    test of [Config.__init__]. *)
Lemma valid_percentages_in_range (cfg : Config) :
  fnonneg (BURN_PERCENTAGE cfg) = true ->
  fnonneg (TREASURY_PERCENTAGE cfg) = true ->
  fnonneg (FEE_PERCENTAGE cfg) = true ->
  percentages_valid cfg = true ->
  percentage_in_range (BURN_PERCENTAGE cfg) = true
  /\ percentage_in_range (TREASURY_PERCENTAGE cfg) = true
  /\ percentage_in_range (FEE_PERCENTAGE cfg) = true.
Proof.
  intros H1 H2 H3 Hvalid.
  apply fnonneg_nonneg in H1. apply fnonneg_nonneg in H2. apply fnonneg_nonneg in H3.
  unfold percentages_valid in Hvalid. apply negb_true_iff in Hvalid.
  assert (HK : emin64 + prec <= 8) by (vm_compute; discriminate).
  assert (Hfar : at_least 8 (BURN_PERCENTAGE cfg) \/ at_least 8 (TREASURY_PERCENTAGE cfg)
                 \/ at_least 8 (FEE_PERCENTAGE cfg) -> False).
  { intros Hbig.
    assert (Hs : at_least 8 (fadd (fadd (BURN_PERCENTAGE cfg) (TREASURY_PERCENTAGE cfg))
                                  (FEE_PERCENTAGE cfg))).
    { pose proof (fadd_nonneg _ _ H1 H2) as N1.
      destruct Hbig as [B|[B|B]].
      - apply fadd_at_least; try assumption. left.
        apply fadd_at_least; try assumption. now left.
      - apply fadd_at_least; try assumption. left.
        apply fadd_at_least; try assumption. now right.
      - apply fadd_at_least; try assumption. now right. }
    rewrite (far_from_100 _ Hs) in Hvalid. discriminate. }
  destruct (in_range_or_at_least _ H1) as [R1|B1]; [|exfalso; tauto].
  destruct (in_range_or_at_least _ H2) as [R2|B2]; [|exfalso; tauto].
  destruct (in_range_or_at_least _ H3) as [R3|B3]; [|exfalso; tauto].
  repeat split; assumption.
Qed.

(** [int(amount * (p / 100.0))] raises nothing and is not negative for an
    amount well within the range of floats and a percentage in range. *)
Lemma share_total (amount : Z) (p : float) :
  0 < amount < 2 ^ 960 -> percentage_in_range p = true ->
  exists a, share amount p = Ok a /\ 0 <= a.
Proof.
  intros Ha Hp. unfold share, int_mul_float.
  destruct (@div_100_below p (@percentage_in_range_below p Hp)) as (q & -> & Hq).
  destruct (@float_of_int_below amount Ha) as (x & -> & Hx).
  cbn [rbind].
  apply int_of_float_nonneg with (U := 961 + 2 + 1).
  apply fmul_below; [vm_compute; discriminate|vm_compute; discriminate|assumption|assumption].
Qed.

End FloatFacts.

Import FloatFacts.


(* ================================================================= *)
(** ** The split of [utils.py] *)

Lemma add_to_last_sum (l : list Z) (d : Z) :
  l <> [] -> exists l', add_to_last l d = Ok l' /\ zsum l' = zsum l + d
                        /\ List.length l' = List.length l.
Proof.
  induction l as [|x xs IH]; intros Hne; [congruence|].
  destruct xs as [|y ys].
  - exists [x + d]. simpl. repeat split; lia.
  - destruct IH as (l' & Hl' & Hs & Hlen); [discriminate|].
    exists (x :: l'). change (add_to_last (x :: y :: ys) d)
      with (rbind (add_to_last (y :: ys) d) (fun r => Ok (x :: r))).
    rewrite Hl'. simpl in *. repeat split; lia.
Qed.

Lemma shares_length (amount : Z) (ps : list float) : forall l,
  shares amount ps = Ok l -> List.length l = List.length ps.
Proof.
  induction ps as [|p ps IH]; intros l H; simpl in H.
  - inversion H; reflexivity.
  - destruct (share amount p) as [a|e]; simpl in H; [|discriminate].
    destruct (shares amount ps) as [l0|e]; simpl in H; [|discriminate].
    inversion H; subst. simpl. now rewrite (IH l0).
Qed.

(** Whatever the percentages, a list that comes back sums to the amount. *)
Lemma split_sum (amount : Z) (ps : list float) (l : list Z) :
  ps <> [] -> split_amount_by_percentage amount ps = Ok l ->
  zsum l = amount /\ List.length l = List.length ps.
Proof.
  intros Hne H. unfold split_amount_by_percentage in H.
  destruct (shares amount ps) as [amounts|e] eqn:Es; simpl in H; [|discriminate].
  pose proof (shares_length amount ps amounts Es) as Hlen.
  destruct (zsum amounts =? amount) eqn:Eq; simpl in H.
  - inversion H; subst. apply Z.eqb_eq in Eq. split; assumption.
  - assert (Hne' : amounts <> []).
    { intros ->. destruct ps; [congruence|discriminate]. }
    destruct (add_to_last_sum amounts (amount - zsum amounts) Hne') as (l' & Hl' & Hs & Hl).
    rewrite Hl' in H. inversion H; subst. split; lia.
Qed.

Lemma split_triple (amount a b c : Z) (p1 p2 p3 : float) :
  share amount p1 = Ok a -> share amount p2 = Ok b -> share amount p3 = Ok c ->
  split_amount_by_percentage amount [p1; p2; p3] = Ok [a; b; amount - a - b].
Proof.
  intros H1 H2 H3. unfold split_amount_by_percentage, shares.
  rewrite H1, H2, H3. cbn [rbind zsum fold_right].
  destruct (a + (b + (c + 0)) =? amount) eqn:Eq; cbn [negb].
  - apply Z.eqb_eq in Eq. do 3 f_equal. f_equal. lia.
  - cbn [add_to_last rbind]. do 3 f_equal. f_equal. lia.
Qed.

(** C1, as amended: for a positive amount below 2^960 and three
    non-negative percentages whose sum is within 0.01 of 100, the split
    returns three integers that sum to the amount exactly; the first two are
    the floors of their shares and are not negative, the last takes what is
    left of the amount and is the only one that can be negative. *)
Theorem split_amount_by_percentage_exact (amount : Z) (p1 p2 p3 : float) :
  0 < amount < 2 ^ 960 ->
  fnonneg p1 = true -> fnonneg p2 = true -> fnonneg p3 = true ->
  within_tolerance [p1; p2; p3] = true ->
  exists a b c,
    split_amount_by_percentage amount [p1; p2; p3] = Ok [a; b; c]
    /\ a + b + c = amount
    /\ share amount p1 = Ok a /\ 0 <= a
    /\ share amount p2 = Ok b /\ 0 <= b.
Proof.
  intros Ha N1 N2 N3 Htol.
  destruct (tolerance_in_range p1 p2 p3 N1 N2 N3 Htol) as (H1 & H2 & H3).
  destruct (share_total amount p1 Ha H1) as (a & Ea & Hna).
  destruct (share_total amount p2 Ha H2) as (b & Eb & Hnb).
  destruct (share_total amount p3 Ha H3) as (c & Ec & _).
  exists a, b, (amount - a - b).
  rewrite (split_triple amount a b c p1 p2 p3 Ea Eb Ec). repeat split; try assumption; lia.
Qed.

Lemma split_amount_by_percentage_exact_witness :
  exists a b c,
    split_amount_by_percentage 1007 [literal 5 0; literal 70 0; literal 25 0]
      = Ok [a; b; c]
    /\ a + b + c = 1007
    /\ share 1007 (literal 5 0) = Ok a /\ 0 <= a
    /\ share 1007 (literal 70 0) = Ok b /\ 0 <= b.
Proof.
  apply (split_amount_by_percentage_exact 1007 (literal 5 0) (literal 70 0) (literal 25 0));
    [split; reflexivity | reflexivity | reflexivity | reflexivity | reflexivity].
Defined.

(** C1 as stated fails: percentages 50.004, 50.004 and 0.0 are non-negative
    and pass the tolerance test, and the last share of 1000000 is negative.
    And an amount beyond the range of floats, here 10^400, raises
    [OverflowError] at [amount * (p / 100.0)] instead of giving a list. *)
Lemma split_last_share_negative :
  let percentages := [literal 50004 3; literal 50004 3; literal 0 0] in
  0 < 1000000
  /\ forallb fnonneg percentages = true
  /\ within_tolerance percentages = true
  /\ split_amount_by_percentage 1000000 percentages = Ok [500039; 500039; -78]
  /\ -78 < 0
  /\ split_amount_by_percentage (10 ^ 400) percentages
     = Raise (OverflowError "int too large to convert to float").
Proof. vm_compute. repeat split; reflexivity. Qed.

(** The two examples of the spec. *)
Example split_1000 :
  split_amount_by_percentage 1000 [literal 5 0; literal 70 0; literal 25 0]
  = Ok [50; 700; 250].
Proof. vm_compute. reflexivity. Qed.

Example split_1007 :
  split_amount_by_percentage 1007 [literal 5 0; literal 70 0; literal 25 0]
  = Ok [50; 704; 253].
Proof. vm_compute. reflexivity. Qed.



(* ================================================================= *)
(** ** Runs *)

Lemma run_bind {A B} (env : Env) (p : Prog A) (f : A -> Prog B) : forall h,
  run env (bind p f) h = run env (f (fst (run env p h))) (snd (run env p h)).
Proof.
  induction p as [a|X e k IH]; intros h; simpl.
  - reflexivity.
  - apply IH.
Qed.

Lemma run_trigger {X} (env : Env) (e : Event X) (h : list Call) :
  run env (trigger e) h = (env h _ e, call e (env h _ e) :: h).
Proof. reflexivity. Qed.

Lemma run_ret {A} (env : Env) (a : A) (h : list Call) : run env (Ret a) h = (a, h).
Proof. reflexivity. Qed.

(** A run only adds calls to the history. *)
Lemma run_extends {A} (env : Env) (p : Prog A) : forall h,
  exists new, snd (run env p h) = new ++ h.
Proof.
  induction p as [a|X e k IH]; intros h; simpl.
  - exists []. reflexivity.
  - destruct (IH (env h X e) (call e (env h X e) :: h)) as [new Hn].
    exists (new ++ [call e (env h X e)]). rewrite Hn, <- app_assoc. reflexivity.
Qed.

(* ================================================================= *)
(** ** Building a transfer *)

Lemma byte_of_Z_value (z : Z) : Z_of_byte (byte_of_Z z) = z mod 256.
Proof.
  unfold Z_of_byte, byte_of_Z.
  assert (Hr : 0 <= z mod 256 < 256) by (apply Z.mod_pos_bound; lia).
  destruct (Byte.of_N (Z.to_N (z mod 256))) as [b|] eqn:E.
  - apply Byte.to_of_N in E. rewrite E. rewrite Z2N.id; lia.
  - apply Byte.of_N_None_iff in E. lia.
Qed.

Lemma le_bytes_length (len : nat) : forall n, List.length (le_bytes len n) = len.
Proof. induction len as [|len IH]; intros n; simpl; [reflexivity|now rewrite IH]. Qed.

Lemma le_bytes_value (len : nat) : forall n,
  le_value (le_bytes len n) = n mod 256 ^ Z.of_nat len.
Proof.
  induction len as [|len IH]; intros n.
  - simpl. now rewrite Z.mod_1_r.
  - cbn [le_bytes le_value]. rewrite byte_of_Z_value, IH.
    rewrite Nat2Z.inj_succ, Z.pow_succ_r by lia.
    rewrite Z.rem_mul_r by (try apply Z.pow_pos_nonneg; lia). reflexivity.
Qed.

(** [to_bytes] and the little-endian reading are inverse on 64-bit amounts. *)
Lemma to_bytes_little_value (n : Z) :
  0 <= n < 2 ^ 64 ->
  exists bs, to_bytes_little n 8 = Ok bs /\ List.length bs = 8%nat /\ le_value bs = n.
Proof.
  intros Hn. unfold to_bytes_little.
  change (256 ^ Z.of_nat 8) with (2 ^ 64).
  replace (0 <=? n) with true by (symmetry; apply Z.leb_le; lia).
  replace (n <? 2 ^ 64) with true by (symmetry; apply Z.ltb_lt; lia).
  simpl andb. eexists. split; [reflexivity|]. split.
  - apply le_bytes_length.
  - rewrite le_bytes_value. change (256 ^ Z.of_nat 8) with (2 ^ 64).
    apply Z.mod_small. assumption.
Qed.

Section ProcessorFacts.

Variable valid_address : AddressCheck.
Variable env : Env.
Variable self : TransferProcessor.

(** C9: the transaction built for valid addresses and a 64-bit amount has
    one instruction, on the token program; its data is the byte 3 and then
    the amount on 8 bytes, little-endian; its accounts are the source
    (writable, not signer), the destination (writable, not signer) and the
    authority (signer, not writable), in that order. *)
Theorem build_token_transfer_transaction_wire
  (source dest : string) (leg_amount : Z) (h : list Call) (bh : string) :
  valid_address source = true ->
  valid_address dest = true ->
  0 <= leg_amount < 2 ^ 64 ->
  env h _ get_recent_blockhash = Ok bh ->
  exists tx instruction amount_bytes,
    fst (run env (_build_token_transfer_transaction valid_address self
                    source dest leg_amount) h) = Ok tx
    /\ instructions tx = [instruction]
    /\ program_id instruction = {| key_str := TOKEN_PROGRAM_ID |}
    /\ data instruction = Byte.x03 :: amount_bytes
    /\ List.length amount_bytes = 8%nat
    /\ le_value amount_bytes = leg_amount
    /\ accounts instruction =
         [ {| pubkey := {| key_str := source |};
              is_signer := false; is_writable := true |};
           {| pubkey := {| key_str := dest |};
              is_signer := false; is_writable := true |};
           {| pubkey := keypair_public_key (solana_client self);
              is_signer := true; is_writable := false |} ].
Proof.
  intros Hs Hd Ha Hbh.
  destruct (to_bytes_little_value leg_amount Ha) as (bs & Hbs & Hlen & Hval).
  unfold _build_token_transfer_transaction, tbind, PublicKey_of.
  rewrite Hs, Hd, Hbs.
  cbn [bind trigger run fst]. rewrite Hbh. cbn [bind run fst].
  eexists _, _, bs. repeat split; try reflexivity; assumption.
Qed.

End ProcessorFacts.

Lemma build_token_transfer_transaction_wire_witness :
  exists tx instruction amount_bytes,
    fst (run (ledger [] [] no_pages no_records)
           (_build_token_transfer_transaction any_address example_processor
              "Wallet-token" "Burn-token" 50) []) = Ok tx
    /\ instructions tx = [instruction]
    /\ program_id instruction = {| key_str := TOKEN_PROGRAM_ID |}
    /\ data instruction = Byte.x03 :: amount_bytes
    /\ List.length amount_bytes = 8%nat
    /\ le_value amount_bytes = 50
    /\ accounts instruction =
         [ {| pubkey := {| key_str := "Wallet-token" |};
              is_signer := false; is_writable := true |};
           {| pubkey := {| key_str := "Burn-token" |};
              is_signer := false; is_writable := true |};
           {| pubkey := keypair_public_key (solana_client example_processor);
              is_signer := true; is_writable := false |} ].
Proof.
  apply (build_token_transfer_transaction_wire any_address
           (ledger [] [] no_pages no_records) example_processor
           "Wallet-token" "Burn-token" 50 [] "blockhash");
    [reflexivity | reflexivity | split; [discriminate | reflexivity] | reflexivity].
Defined.


Lemma filter_map_app {A B} (f : A -> option B) (l1 l2 : list A) :
  filter_map f (l1 ++ l2) = filter_map f l1 ++ filter_map f l2.
Proof.
  induction l1 as [|a l1 IH]; simpl; [reflexivity|].
  destruct (f a); simpl; now rewrite IH.
Qed.

Section RedistributionFacts.

Variable valid_address : AddressCheck.
Variable env : Env.
Variable self : TransferProcessor.

Lemma run_find (owner account : string) (h : list Call) :
  finds env (NEXACOIN_MINT (config self)) owner account ->
  exists c,
    run env (_find_token_account_for_owner self owner) h = (Some account, c :: h)
    /\ leg_event c = None /\ is_blockhash_request c = false.
Proof.
  intros Hf. destruct (Hf h) as [rest E].
  eexists. unfold _find_token_account_for_owner, try_except, tbind.
  cbn [bind trigger run]. rewrite E. cbn [bind run].
  split; [reflexivity|]. split; reflexivity.
Qed.

Lemma run_build (source dest : string) (leg_amount : Z) (h : list Call) :
  blockhash_available env ->
  valid_address source = true -> valid_address dest = true ->
  0 <= leg_amount < 2 ^ 64 ->
  exists tx c,
    run env (_build_token_transfer_transaction valid_address self
               source dest leg_amount) h = (Ok tx, c :: h)
    /\ leg_of_transaction tx = Some (dest, leg_amount)
    /\ leg_event c = None /\ is_blockhash_request c = true.
Proof.
  intros Hb Hs Hd Ha. destruct (Hb h) as [bh Hbh].
  destruct (to_bytes_little_value leg_amount Ha) as (bs & Hbs & Hlen & Hval).
  unfold _build_token_transfer_transaction, tbind, PublicKey_of.
  rewrite Hs, Hd, Hbs. cbn [bind trigger run]. rewrite Hbh. cbn [bind run].
  eexists _, _. split; [reflexivity|]. split; [|split; reflexivity].
  unfold leg_of_transaction. cbn. now rewrite Hval.
Qed.

Lemma run_build_leg (tx_type source dest : string) (leg_amount : Z)
  (transactions : list (string * Transaction * Z)) (h : list Call) :
  blockhash_available env ->
  valid_address source = true -> valid_address dest = true ->
  leg_amount < 2 ^ 64 ->
  exists added calls,
    run env (build_leg valid_address self tx_type source dest leg_amount
               transactions) h = (Ok (transactions ++ added), rev calls ++ h)
    /\ map built_leg added = map Some (positive_legs [(dest, leg_amount)])
    /\ filter_map leg_event calls = []
    /\ List.length (filter is_blockhash_request calls)
       = List.length (positive_legs [(dest, leg_amount)]).
Proof.
  intros Hb Hs Hd Ha. unfold build_leg, positive_legs. cbn [filter snd].
  destruct (leg_amount >? 0) eqn:Epos.
  - assert (Hr : 0 <= leg_amount < 2 ^ 64) by (apply Z.gtb_lt in Epos; lia).
    destruct (run_build source dest leg_amount h Hb Hs Hd Hr)
      as (tx & c & Erun & Hleg & Hev & Hbh).
    exists [(tx_type, tx, leg_amount)], [c].
    unfold tbind. rewrite run_bind, Erun. cbn [fst snd run rev app].
    split; [reflexivity|]. split; [cbn; unfold built_leg; cbn; now rewrite Hleg|].
    cbn. rewrite Hev, Hbh. split; reflexivity.
  - exists [], []. cbn. rewrite app_nil_r. repeat split.
Qed.

(** The loop over the built transactions carries every leg to its end, in
    the order of the list, whatever the ledger answers. *)
Lemma run_execute_transactions (transactions : list (string * Transaction * Z)) :
  forall (legs : list (string * Z)) (success : bool) (h : list Call),
  map built_leg transactions = map Some legs ->
  exists calls ok,
    run env (execute_transactions self transactions success) h
      = (success && ok, rev calls ++ h)
    /\ legs_run legs (filter_map leg_event calls) ok
    /\ filter is_blockhash_request calls = [].
Proof.
  induction transactions as [|[[tx_type tx] a] rest IH]; intros legs success h Hlegs.
  - destruct legs; [|discriminate]. exists [], true. cbn.
    rewrite andb_true_r. repeat split. constructor.
  - destruct legs as [|[dest leg_amount] legs']; [discriminate|].
    cbn [map] in Hlegs. injection Hlegs as Hleg Hrest.
    unfold built_leg in Hleg. cbn [fst snd] in Hleg.
    cbn [execute_transactions]. unfold try_except, tbind, trigger.
    cbn [bind run].
    destruct (env h _ (send_transaction tx)) as [sig|e] eqn:Esend; cbn [bind run].
    + match goal with
      | |- context [env ?h1 _ (confirm_transaction sig ?t)] =>
          destruct (env h1 _ (confirm_transaction sig t)) eqn:Econf
      end; cbn [bind run];
      match goal with
      | |- context [run env (execute_transactions self rest ?s) ?h'] =>
          destruct (IH legs' s h' Hrest) as (calls & ok & Erun & Hl & Hb)
      end; rewrite Erun.
      * eexists ([call (send_transaction tx) (Ok sig);
                  call (confirm_transaction sig (CONFIRMATION_TIMEOUT (config self))) true;
                  _; call (sleep (IntSeconds 1)) _] ++ calls), (true && ok).
        split.
        { rewrite rev_app_distr, <- app_assoc. cbn. reflexivity. }
        split.
        { rewrite filter_map_app. cbn. rewrite Hleg.
          apply (legs_next dest leg_amount (Ok sig) true legs' _ ok Hl). }
        { rewrite filter_app, Hb. reflexivity. }
      * eexists ([call (send_transaction tx) (Ok sig);
                  call (confirm_transaction sig (CONFIRMATION_TIMEOUT (config self))) false;
                  _; call (sleep (IntSeconds 1)) _] ++ calls), (false && ok).
        split.
        { rewrite rev_app_distr, <- app_assoc. cbn. rewrite andb_false_r. reflexivity. }
        split.
        { rewrite filter_map_app. cbn. rewrite Hleg.
          apply (legs_next dest leg_amount (Ok sig) false legs' _ ok Hl). }
        { rewrite filter_app, Hb. reflexivity. }
    + match goal with
      | |- context [run env (execute_transactions self rest ?s) ?h'] =>
          destruct (IH legs' s h' Hrest) as (calls & ok & Erun & Hl & Hb)
      end; rewrite Erun.
      eexists ([call (send_transaction tx) (Raise e);
                _; call (sleep (IntSeconds 1)) _] ++ calls), (false && ok).
      split.
      { rewrite rev_app_distr, <- app_assoc. cbn. rewrite andb_false_r. reflexivity. }
      split.
      { rewrite filter_map_app. cbn. rewrite Hleg.
        apply (legs_next dest leg_amount (Raise e) false legs' _ ok Hl). }
      { rewrite filter_app, Hb. reflexivity. }
Qed.

Lemma execute_redistribution_legs (source burn_acc treasury_acc fee_acc : string)
  (burn_amount treasury_amount fee_amount : Z) (h : list Call) :
  redistribution_ready valid_address env self source burn_acc treasury_acc fee_acc ->
  burn_amount < 2 ^ 64 -> treasury_amount < 2 ^ 64 -> fee_amount < 2 ^ 64 ->
  exists calls ok,
    run env (_execute_redistribution valid_address self source
               burn_amount treasury_amount fee_amount) h = (ok, rev calls ++ h)
    /\ legs_run (positive_legs [(burn_acc, burn_amount);
                                (treasury_acc, treasury_amount);
                                (fee_acc, fee_amount)])
                (filter_map leg_event calls) ok
    /\ List.length (filter is_blockhash_request calls)
       = List.length (positive_legs [(burn_acc, burn_amount);
                                     (treasury_acc, treasury_amount);
                                     (fee_acc, fee_amount)]).
Proof.
  intros (Hfb & Hft & Hff & Htb & Htt & Htf & Hbh & Hvs & Hvb & Hvt & Hvf) Hb Ht Hf.
  unfold _execute_redistribution, try_except.
  rewrite run_bind.
  (* the three lookups *)
  rewrite run_bind.
  destruct (run_find (burn_address self) burn_acc h Hfb) as (c1 & E1 & Hl1 & Hq1).
  rewrite E1. cbn [fst snd].
  rewrite run_bind.
  destruct (run_find (treasury_address self) treasury_acc (c1 :: h) Hft)
    as (c2 & E2 & Hl2 & Hq2).
  rewrite E2. cbn [fst snd].
  rewrite run_bind.
  destruct (run_find (fee_address self) fee_acc (c2 :: c1 :: h) Hff)
    as (c3 & E3 & Hl3 & Hq3).
  rewrite E3. cbn [fst snd].
  rewrite Htb, Htt, Htf. cbn [andb].
  (* the three builds *)
  unfold tbind.
  rewrite run_bind.
  destruct (run_build_leg "Burn" source burn_acc burn_amount [] (c3 :: c2 :: c1 :: h)
              Hbh Hvs Hvb Hb) as (a1 & k1 & B1 & Hm1 & He1 & Hn1).
  rewrite B1. cbn [fst snd app].
  rewrite run_bind.
  destruct (run_build_leg "Treasury" source treasury_acc treasury_amount a1
              (rev k1 ++ c3 :: c2 :: c1 :: h) Hbh Hvs Hvt Ht)
    as (a2 & k2 & B2 & Hm2 & He2 & Hn2).
  rewrite B2. cbn [fst snd].
  rewrite run_bind.
  destruct (run_build_leg "Fee" source fee_acc fee_amount (a1 ++ a2)
              (rev k2 ++ rev k1 ++ c3 :: c2 :: c1 :: h) Hbh Hvs Hvf Hf)
    as (a3 & k3 & B3 & Hm3 & He3 & Hn3).
  rewrite B3. cbn [fst snd].
  (* the loop *)
  rewrite run_bind.
  assert (Hlegs : map built_leg ((a1 ++ a2) ++ a3)
                  = map Some (positive_legs [(burn_acc, burn_amount);
                                             (treasury_acc, treasury_amount);
                                             (fee_acc, fee_amount)])).
  { rewrite !map_app, Hm1, Hm2, Hm3, <- !map_app. f_equal.
    unfold positive_legs. cbn [filter snd].
    destruct (burn_amount >? 0), (treasury_amount >? 0), (fee_amount >? 0); reflexivity. }
  destruct (run_execute_transactions ((a1 ++ a2) ++ a3) _ true
              (rev k3 ++ rev k2 ++ rev k1 ++ c3 :: c2 :: c1 :: h) Hlegs)
    as (calls & ok & Erun & Hrun & Hnb).
  rewrite Erun. cbn [fst snd run andb].
  exists ([c1; c2; c3] ++ k1 ++ k2 ++ k3 ++ calls), ok.
  split.
  { f_equal. rewrite !rev_app_distr, <- !app_assoc. reflexivity. }
  split.
  { rewrite !filter_map_app, He1, He2, He3. cbn [filter_map].
    rewrite Hl1, Hl2, Hl3. exact Hrun. }
  { rewrite !filter_app, !length_app, Hnb, Hn1, Hn2, Hn3.
    cbn [filter]. rewrite Hq1, Hq2, Hq3.
    unfold positive_legs. cbn [filter snd].
    destruct (burn_amount >? 0), (treasury_amount >? 0), (fee_amount >? 0); reflexivity. }
Qed.

(** C10: a leg whose amount is zero is neither built nor submitted; the
    legs with a positive amount are built, one block hash each, and carried
    out in the order Burn, Treasury, Fee. *)
Theorem zero_leg_skipped (source burn_acc treasury_acc fee_acc : string)
  (burn_amount treasury_amount fee_amount : Z) (h : list Call) :
  redistribution_ready valid_address env self source burn_acc treasury_acc fee_acc ->
  0 <= burn_amount < 2 ^ 64 ->
  0 <= treasury_amount < 2 ^ 64 ->
  0 <= fee_amount < 2 ^ 64 ->
  exists calls ok,
    run env (_execute_redistribution valid_address self source
               burn_amount treasury_amount fee_amount) h = (ok, rev calls ++ h)
    /\ legs_run (filter (fun leg => negb (snd leg =? 0))
                        [(burn_acc, burn_amount);
                         (treasury_acc, treasury_amount);
                         (fee_acc, fee_amount)])
                (filter_map leg_event calls) ok
    /\ List.length (filter is_blockhash_request calls)
       = List.length (filter (fun leg => negb (snd leg =? 0))
                             [(burn_acc, burn_amount);
                              (treasury_acc, treasury_amount);
                              (fee_acc, fee_amount)]).
Proof.
  intros Hready Hb Ht Hf.
  assert (Hsame : filter (fun leg : string * Z => negb (snd leg =? 0))
                    [(burn_acc, burn_amount); (treasury_acc, treasury_amount);
                     (fee_acc, fee_amount)]
                  = positive_legs [(burn_acc, burn_amount);
                                   (treasury_acc, treasury_amount);
                                   (fee_acc, fee_amount)]).
  { unfold positive_legs. apply filter_ext_in. intros [d a] Hin. cbn [snd].
    assert (0 <= a).
    { cbn in Hin. destruct Hin as [E|[E|[E|[]]]]; inversion E; subst; lia. }
    destruct (a =? 0) eqn:E0, (a >? 0) eqn:E1; try reflexivity.
    - apply Z.eqb_eq in E0. apply Z.gtb_lt in E1. lia.
    - apply Z.eqb_neq in E0. rewrite Z.gtb_ltb in E1. apply Z.ltb_ge in E1. lia. }
  rewrite Hsame.
  apply execute_redistribution_legs; try assumption; lia.
Qed.

(** C5: with three positive amounts the legs are carried out one after the
    other in the order Burn, Treasury, Fee; each is submitted, awaited when
    the submission went through, and followed by the pause before the next
    is submitted; whatever a leg's outcome, the later legs are attempted. *)
Theorem legs_sequential_in_fixed_order
  (source burn_acc treasury_acc fee_acc : string)
  (burn_amount treasury_amount fee_amount : Z) (h : list Call) :
  redistribution_ready valid_address env self source burn_acc treasury_acc fee_acc ->
  0 < burn_amount < 2 ^ 64 ->
  0 < treasury_amount < 2 ^ 64 ->
  0 < fee_amount < 2 ^ 64 ->
  exists calls a1 c1 a2 c2 a3 c3,
    run env (_execute_redistribution valid_address self source
               burn_amount treasury_amount fee_amount) h
      = (leg_ok a1 c1 && (leg_ok a2 c2 && leg_ok a3 c3), rev calls ++ h)
    /\ filter_map leg_event calls
       = leg_trace burn_acc burn_amount a1 c1
         ++ leg_trace treasury_acc treasury_amount a2 c2
         ++ leg_trace fee_acc fee_amount a3 c3.
Proof.
  intros Hready Hb Ht Hf.
  destruct (execute_redistribution_legs source burn_acc treasury_acc fee_acc
              burn_amount treasury_amount fee_amount h Hready)
    as (calls & ok & Erun & Hlegs & _); try lia.
  unfold positive_legs in Hlegs. cbn [filter snd] in Hlegs.
  replace (burn_amount >? 0) with true in Hlegs by (symmetry; apply Z.gtb_lt; lia).
  replace (treasury_amount >? 0) with true in Hlegs by (symmetry; apply Z.gtb_lt; lia).
  replace (fee_amount >? 0) with true in Hlegs by (symmetry; apply Z.gtb_lt; lia).
  inversion Hlegs as [|d1 m1 a1 c1 r1 ev1 ok1 H1 Eq1 Eq2 Eq3]; subst.
  inversion H1 as [|d2 m2 a2 c2 r2 ev2 ok2 H2 Eq1 Eq2' Eq3']; subst.
  inversion H2 as [|d3 m3 a3 c3 r3 ev3 ok3 H3 Eq1 Eq2'' Eq3'']; subst.
  inversion H3; subst.
  exists calls, a1, c1, a2, c2, a3, c3. split.
  - rewrite Erun. rewrite andb_true_r. reflexivity.
  - match goal with E : _ = filter_map leg_event calls |- _ => rewrite <- E end.
    rewrite app_nil_r. reflexivity.
Qed.

(** The plan of [process_transfer] and what is done with it. *)
Lemma run_process_transfer (details : TransferDetails) (b t f : Z) (h : list Call) :
  MIN_TRANSFER_AMOUNT (config self) <= amount details ->
  redistribution_plan self (amount details) = Ok (b, t, f) ->
  run env (process_transfer valid_address self details) h
  = run env (trigger (log INFO (processing_message details)) ;;
             trigger (log INFO (plan_message b t f)) ;;
             _execute_redistribution valid_address self (destination details) b t f) h.
Proof.
  intros Hmin Hplan. unfold process_transfer, try_except, tbind.
  replace (amount details <? MIN_TRANSFER_AMOUNT (config self)) with false
    by (symmetry; apply Z.ltb_ge; assumption).
  rewrite Hplan. cbn [bind trigger run].
  rewrite run_bind, run_bind. cbn [run fst snd].
  destruct (run env _ _) as [r h']. reflexivity.
Qed.

Lemma redistribution_plan_value (amount_in b t f0 : Z) :
  share amount_in (burn_percentage self) = Ok b ->
  share amount_in (treasury_percentage self) = Ok t ->
  share amount_in (fee_percentage self) = Ok f0 ->
  redistribution_plan self amount_in
  = Ok (b, t, if b + t + f0 >? amount_in then f0 - (b + t + f0 - amount_in) else f0).
Proof.
  intros Hb Ht Hf. unfold redistribution_plan. rewrite Hb, Ht, Hf. reflexivity.
Qed.

(** C2, as amended: for a transfer at or above the threshold (a positive
    amount below 2^960, non-negative percentages that passed the test of
    the configuration) [process_transfer] carries out the plan made of the
    floors for burn and treasury and of a fee that is its floor, lowered
    when the three floors exceed the amount.  The three sum to the amount or
    to the sum of the floors, whichever is less: never to more than the
    amount, and to less when the floors fall short of it. *)
Theorem redistribution_plan_within_amount (details : TransferDetails) :
  MIN_TRANSFER_AMOUNT (config self) <= amount details ->
  0 < amount details < 2 ^ 960 ->
  fnonneg (burn_percentage self) = true ->
  fnonneg (treasury_percentage self) = true ->
  fnonneg (fee_percentage self) = true ->
  percentages_valid (config self) = true ->
  exists b t f f0,
    share (amount details) (burn_percentage self) = Ok b
    /\ share (amount details) (treasury_percentage self) = Ok t
    /\ share (amount details) (fee_percentage self) = Ok f0
    /\ redistribution_plan self (amount details) = Ok (b, t, f)
    /\ b + t + f = Z.min (amount details) (b + t + f0)
    /\ b + t + f <= amount details
    /\ (forall h,
          run env (process_transfer valid_address self details) h
          = run env (trigger (log INFO (processing_message details)) ;;
                     trigger (log INFO (plan_message b t f)) ;;
                     _execute_redistribution valid_address self
                       (destination details) b t f) h).
Proof.
  intros Hmin Ha Nb Nt Nf Hvalid.
  destruct (valid_percentages_in_range (config self) Nb Nt Nf Hvalid) as (Hpb & Hpt & Hpf).
  destruct (share_total (amount details) _ Ha Hpb) as (b & Eb & _).
  destruct (share_total (amount details) _ Ha Hpt) as (t & Et & _).
  destruct (share_total (amount details) _ Ha Hpf) as (f0 & Ef & _).
  pose proof (redistribution_plan_value (amount details) b t f0 Eb Et Ef) as Hplan.
  exists b, t,
    (if b + t + f0 >? amount details then f0 - (b + t + f0 - amount details) else f0),
    f0.
  repeat split; try assumption.
  - destruct (b + t + f0 >? amount details) eqn:E.
    + apply Z.gtb_lt in E. lia.
    + rewrite Z.gtb_ltb in E. apply Z.ltb_ge in E. lia.
  - destruct (b + t + f0 >? amount details) eqn:E.
    + apply Z.gtb_lt in E. lia.
    + rewrite Z.gtb_ltb in E. apply Z.ltb_ge in E. lia.
  - intros h. apply run_process_transfer; assumption.
Qed.

End RedistributionFacts.

Lemma zero_leg_skipped_witness :
  exists calls ok,
    run (ledger [] [] no_pages no_records)
        (_execute_redistribution any_address example_processor "Wallet-token" 0 700 300) []
      = (ok, rev calls ++ [])
    /\ legs_run (filter (fun leg => negb (snd leg =? 0))
                        [("Burn-token", 0); ("Treasury-token", 700); ("Fee-token", 300)])
                (filter_map leg_event calls) ok
    /\ List.length (filter is_blockhash_request calls)
       = List.length (filter (fun leg => negb (snd leg =? 0))
                        [("Burn-token", 0); ("Treasury-token", 700); ("Fee-token", 300)]).
Proof.
  apply (zero_leg_skipped any_address (ledger [] [] no_pages no_records)
           example_processor "Wallet-token" "Burn-token" "Treasury-token" "Fee-token"
           0 700 300 []);
    [ unfold redistribution_ready; repeat split; try reflexivity; intros h; eexists; reflexivity
    | split; [discriminate|reflexivity]
     | split; [discriminate|reflexivity] | split; [discriminate|reflexivity]].
Defined.

(** With a zero burn amount the run submits the treasury and the fee legs
    only, after two builds. *)
Example zero_burn_run :
  let calls := trace (ledger [] [] no_pages no_records)
                 (_execute_redistribution any_address example_processor
                    "Wallet-token" 0 700 300) in
  filter_map leg_event calls
  = [ Submitted (Some ("Treasury-token", 700)) (Ok "sig:Treasury-token");
      Awaited "sig:Treasury-token" true; Paused;
      Submitted (Some ("Fee-token", 300)) (Ok "sig:Fee-token");
      Awaited "sig:Fee-token" true; Paused ]
  /\ List.length (filter is_blockhash_request calls) = 2%nat.
Proof. vm_compute. split; reflexivity. Qed.

Lemma legs_sequential_in_fixed_order_witness :
  exists calls a1 c1 a2 c2 a3 c3,
    run (ledger ["Treasury-token"] [] no_pages no_records)
        (_execute_redistribution any_address example_processor "Wallet-token" 50 700 250) []
      = (leg_ok a1 c1 && (leg_ok a2 c2 && leg_ok a3 c3), rev calls ++ [])
    /\ filter_map leg_event calls
       = leg_trace "Burn-token" 50 a1 c1
         ++ leg_trace "Treasury-token" 700 a2 c2
         ++ leg_trace "Fee-token" 250 a3 c3.
Proof.
  apply (legs_sequential_in_fixed_order any_address
           (ledger ["Treasury-token"] [] no_pages no_records)
           example_processor "Wallet-token" "Burn-token" "Treasury-token" "Fee-token"
           50 700 250 []);
    [ unfold redistribution_ready; repeat split; try reflexivity; intros h; eexists; reflexivity
    | split; reflexivity | split; reflexivity | split; reflexivity].
Defined.

(** The scenario of the spec: Burn confirms, Treasury times out, Fee
    confirms.  All three are attempted in order, the run reports failure and
    the log has one timeout entry. *)
Example treasury_times_out :
  let run_ := run (ledger ["Treasury-token"] [] no_pages no_records)
                (_execute_redistribution any_address example_processor
                   "Wallet-token" 50 700 250) [] in
  filter_map leg_event (rev (snd run_))
  = [ Submitted (Some ("Burn-token", 50)) (Ok "sig:Burn-token");
      Awaited "sig:Burn-token" true; Paused;
      Submitted (Some ("Treasury-token", 700)) (Ok "sig:Treasury-token");
      Awaited "sig:Treasury-token" false; Paused;
      Submitted (Some ("Fee-token", 250)) (Ok "sig:Fee-token");
      Awaited "sig:Fee-token" true; Paused ]
  /\ fst run_ = false
  /\ filter is_timeout_warning (filter_map logged (rev (snd run_)))
     = [(WARNING, "Treasury transaction timed out waiting for confirmation")].
Proof. vm_compute. repeat split; reflexivity. Qed.

(** A submission that fails does not stop the legs after it either. *)
Example treasury_submission_fails :
  filter_map leg_event
    (trace (ledger [] ["Treasury-token"] no_pages no_records)
       (_execute_redistribution any_address example_processor "Wallet-token" 50 700 250))
  = [ Submitted (Some ("Burn-token", 50)) (Ok "sig:Burn-token");
      Awaited "sig:Burn-token" true; Paused;
      Submitted (Some ("Treasury-token", 700)) (Raise (RpcError "send failed")); Paused;
      Submitted (Some ("Fee-token", 250)) (Ok "sig:Fee-token");
      Awaited "sig:Fee-token" true; Paused ].
Proof. vm_compute. reflexivity. Qed.

Lemma redistribution_plan_within_amount_witness :
  exists b t f f0,
    share 1007 (literal 5 0) = Ok b
    /\ share 1007 (literal 70 0) = Ok t
    /\ share 1007 (literal 25 0) = Ok f0
    /\ redistribution_plan example_processor 1007 = Ok (b, t, f)
    /\ b + t + f = Z.min 1007 (b + t + f0)
    /\ b + t + f <= 1007
    /\ (forall h,
          run (ledger [] [] no_pages no_records)
              (process_transfer any_address example_processor (example_transfer 1007)) h
          = run (ledger [] [] no_pages no_records)
                (trigger (log INFO (processing_message (example_transfer 1007))) ;;
                 trigger (log INFO (plan_message b t f)) ;;
                 _execute_redistribution any_address example_processor
                   "Wallet-token" b t f) h).
Proof.
  apply (redistribution_plan_within_amount any_address
           (ledger [] [] no_pages no_records) example_processor (example_transfer 1007));
    [discriminate | split; reflexivity | reflexivity | reflexivity | reflexivity
     | reflexivity].
Defined.

(** C2 as stated fails: 1007 is above the threshold of 1000 and its plan,
    the one the three submissions carry, sums to 1005. *)
Lemma plan_below_amount :
  MIN_TRANSFER_AMOUNT example_config <= 1007
  /\ percentages_valid example_config = true
  /\ redistribution_plan example_processor 1007 = Ok (50, 704, 251)
  /\ 50 + 704 + 251 <> 1007
  /\ filter_map leg_event
       (trace (ledger [] [] no_pages no_records)
          (process_transfer any_address example_processor (example_transfer 1007)))
     = [ Submitted (Some ("Burn-token", 50)) (Ok "sig:Burn-token");
         Awaited "sig:Burn-token" true; Paused;
         Submitted (Some ("Treasury-token", 704)) (Ok "sig:Treasury-token");
         Awaited "sig:Treasury-token" true; Paused;
         Submitted (Some ("Fee-token", 251)) (Ok "sig:Fee-token");
         Awaited "sig:Fee-token" true; Paused ].
Proof.
  split; [discriminate|]. split; [vm_compute; reflexivity|].
  split; [vm_compute; reflexivity|]. split; [discriminate|].
  vm_compute. reflexivity.
Qed.


(* ================================================================= *)
(** ** Classification *)

Lemma dict_set_in {V} (d : list (nat * V)) (k : nat) (v : V) (k' : nat) (v' : V) :
  In (k', v') (dict_set d k v) -> In (k', v') d \/ (k', v') = (k, v).
Proof.
  induction d as [|[k0 v0] d IH]; simpl.
  - intros [E|[]]. right. now symmetry.
  - destruct (Nat.eqb k k0); simpl.
    + intros [E|H]; [right; now symmetry|left; now right].
    + intros [E|H]; [left; now left|].
      destruct (IH H) as [H'|H']; [left; now right|now right].
Qed.

Lemma by_account_index_in (balances : list TokenBalance) (idx : nat) (b : TokenBalance) :
  In (idx, b) (by_account_index balances) -> In b balances /\ accountIndex b = idx.
Proof.
  unfold by_account_index.
  assert (H : forall d,
             (forall k v, In (k, v) d -> In v balances /\ accountIndex v = k) ->
             forall l, (forall v, In v l -> In v balances) ->
             In (idx, b) (fold_left (fun d b => dict_set d (accountIndex b) b) l d) ->
             In b balances /\ accountIndex b = idx).
  { intros d Hd l. revert d Hd.
    induction l as [|x l IH]; intros d Hd Hl Hin; simpl in Hin.
    - now apply Hd.
    - apply (IH (dict_set d (accountIndex x) x)); try assumption.
      + intros k v Hkv. apply dict_set_in in Hkv. destruct Hkv as [Hkv|Hkv].
        * now apply Hd.
        * inversion Hkv; subst. split; [apply Hl; now left|reflexivity].
      + intros v Hv. apply Hl. now right. }
  apply (H [] (fun k v (F : In (k, v) []) => match F with end) balances (fun v Hv => Hv)).
Qed.

Lemma scan_instructions_exists (instrs : list RawInstruction) :
  scan_instructions true instrs = existsb is_transfer_instruction instrs.
Proof.
  induction instrs as [|i rest IH]; simpl; [reflexivity|].
  destruct (is_transfer_instruction i); simpl; [reflexivity|assumption].
Qed.

Section ClassifyFacts.

Variable self : TransactionMonitor.
Variable st : MonitorState.

(** [find_credit] returns the credit of the first entry that passes the
    four tests. *)
Lemma find_credit_first (pre_balances : list (nat * TokenBalance))
  (account_keys : list string) (items : list (nat * TokenBalance)) :
  find_credit self st pre_balances account_keys items
  = option_map (credit_of pre_balances account_keys)
      (find (is_credit self st pre_balances account_keys) items).
Proof.
  induction items as [|[idx post] rest IH]; [reflexivity|].
  cbn [find_credit find is_credit].
  destruct (opt_eqb (mint post) (nexacoin_mint self)); cbn [negb andb]; [|exact IH].
  destruct (balance_amount (Some post) >? balance_amount (dict_get pre_balances idx));
    cbn [andb]; [|exact IH].
  destruct (accountIndex post <? List.length account_keys)%nat; cbn [andb]; [|exact IH].
  destruct (in_list (nth (accountIndex post) account_keys "") (token_accounts st));
    [reflexivity|exact IH].
Qed.

End ClassifyFacts.

(** The event of the example record. *)
Example classify_example :
  outcome (ledger [] [] no_pages no_records)
    (classify example_monitor (example_state None) (example_record "tx1" 2000))
  = Some {| transaction_id := "tx1"; destination := "Wallet-token";
            amount := 2000; timestamp := 1700000000 |}.
Proof. vm_compute. reflexivity. Qed.

(* ================================================================= *)
(** ** Scans and the cursor *)

Section ScanFacts.

Variable valid_address : AddressCheck.
Variable env : Env.
Variable self : TransactionMonitor.

(** Every scan starts by asking for the page before the cursor of the
    monitor, whichever account it is for. *)
Lemma scan_first_call (account : string) (st : MonitorState) (h : list Call) :
  exists later,
    snd (run env (_check_account_transactions valid_address self account st) h)
    = later ++ call (get_signatures_for_address account (last_signature st) 20)
                    (env h _ (get_signatures_for_address account (last_signature st) 20))
               :: h.
Proof.
  unfold _check_account_transactions. rewrite run_bind. rewrite run_bind, run_trigger.
  cbn [fst snd].
  match goal with
  | |- context [run env ?q (call ?e ?x :: h)] =>
      destruct (run_extends env q (call e x :: h)) as [new1 H1]
  end.
  match goal with
  | |- context [run env ?q ?h'] =>
      destruct (run_extends env q h') as [new2 H2]
  end.
  exists (new2 ++ new1). rewrite H2, H1, <- app_assoc. reflexivity.
Qed.

(** The scan made while the cursor is unset, on a page that is not empty. *)
Lemma run_baseline_scan (account : string) (st : MonitorState)
  (h : list Call) (newest : SigInfo) (older : list SigInfo) :
  truthy_opt (last_signature st) = false ->
  env h _ (get_signatures_for_address account (last_signature st) 20)
    = Ok (newest :: older) ->
  run env (_check_account_transactions valid_address self account st) h
  = (set_last_signature st (signature newest),
     [ call (log INFO ("Initial signature set to " +++ signature newest)) tt;
       call (get_signatures_for_address account (last_signature st) 20)
            (Ok (newest :: older)) ] ++ h).
Proof.
  intros Hunset Hpage.
  unfold _check_account_transactions, trigger. cbn [bind run].
  rewrite Hpage, Hunset. cbn [negb bind run].
  destruct (env _ unit _). reflexivity.
Qed.

(** C6, as amended: while the cursor of the monitor is unset, a scan that
    fetches a page with at least one record makes two calls, the fetch of the
    page and a log entry: it fetches no record and processes nothing, and it
    sets the cursor to the newest id of the page. *)
Theorem first_scan_sets_baseline (account : string) (st : MonitorState)
  (h : list Call) (newest : SigInfo) (older : list SigInfo) :
  truthy_opt (last_signature st) = false ->
  env h _ (get_signatures_for_address account (last_signature st) 20)
    = Ok (newest :: older) ->
  exists st',
    run env (_check_account_transactions valid_address self account st) h
    = (st',
       [ call (log INFO ("Initial signature set to " +++ signature newest)) tt;
         call (get_signatures_for_address account (last_signature st) 20)
              (Ok (newest :: older)) ] ++ h)
    /\ last_signature st' = Some (signature newest)
    /\ token_accounts st' = token_accounts st.
Proof.
  intros Hunset Hpage. exists (set_last_signature st (signature newest)).
  split; [now apply run_baseline_scan|]. split; reflexivity.
Qed.

(** A scan that fetches an empty page leaves the cursor as it was. *)
Lemma empty_page_keeps_cursor (account : string) (st : MonitorState) (h : list Call) :
  env h _ (get_signatures_for_address account (last_signature st) 20) = Ok [] ->
  run env (_check_account_transactions valid_address self account st) h
  = (st, [ call (get_signatures_for_address account (last_signature st) 20) (Ok []) ]
         ++ h).
Proof.
  intros Hpage. unfold _check_account_transactions, trigger. cbn [bind run].
  rewrite Hpage. reflexivity.
Qed.

(** C7, as amended: the monitor has one cursor for all the accounts.  The
    scan of an account that sets it (here the first scan that fetches a
    record) decides what the next scan asks for, whichever account that
    next scan is for. *)
Theorem cursor_shared_by_accounts (account other : string) (st : MonitorState)
  (h : list Call) (newest : SigInfo) (older : list SigInfo) :
  truthy_opt (last_signature st) = false ->
  env h _ (get_signatures_for_address account (last_signature st) 20)
    = Ok (newest :: older) ->
  exists st' h' answer later,
    run env (_check_account_transactions valid_address self account st) h = (st', h')
    /\ last_signature st' = Some (signature newest)
    /\ snd (run env (_check_account_transactions valid_address self other st') h')
       = later ++ call (get_signatures_for_address other
                          (Some (signature newest)) 20) answer :: h'.
Proof.
  intros Hunset Hpage.
  pose proof (run_baseline_scan account st h newest older Hunset Hpage) as Erun.
  destruct (scan_first_call other (set_last_signature st (signature newest))
              ([ call (log INFO ("Initial signature set to " +++ signature newest)) tt;
                 call (get_signatures_for_address account (last_signature st) 20)
                      (Ok (newest :: older)) ] ++ h)) as [later Hlater].
  eexists _, _, _, later. split; [exact Erun|]. split; [reflexivity|].
  exact Hlater.
Qed.

End ScanFacts.

Lemma first_scan_sets_baseline_witness :
  exists st',
    run (ledger [] [] two_accounts transfer_records)
        (_check_account_transactions any_address example_monitor "Wallet"
           (example_state None)) []
    = (st',
       [ call (log INFO ("Initial signature set to " +++ "w1")) tt;
         call (get_signatures_for_address "Wallet" None 20) (Ok (sig_infos ["w1"])) ]
       ++ [])
    /\ last_signature st' = Some "w1"
    /\ token_accounts st' = token_accounts (example_state None).
Proof.
  apply (first_scan_sets_baseline any_address (ledger [] [] two_accounts transfer_records)
           example_monitor "Wallet" (example_state None) [] {| signature := "w1" |} []);
    reflexivity.
Defined.

Lemma cursor_shared_by_accounts_witness :
  exists st' h' answer later,
    run (ledger [] [] two_accounts transfer_records)
        (_check_account_transactions any_address example_monitor "Wallet"
           (example_state None)) [] = (st', h')
    /\ last_signature st' = Some "w1"
    /\ snd (run (ledger [] [] two_accounts transfer_records)
              (_check_account_transactions any_address example_monitor "Wallet-token" st') h')
       = later ++ call (get_signatures_for_address "Wallet-token" (Some "w1") 20) answer :: h'.
Proof.
  apply (cursor_shared_by_accounts any_address (ledger [] [] two_accounts transfer_records)
           example_monitor "Wallet" "Wallet-token" (example_state None) []
           {| signature := "w1" |} []);
    reflexivity.
Defined.

(** C6 as stated fails twice.  On an empty history the first scan leaves the
    cursor unset.  And the first scan of the token account, coming after the
    scan of the wallet has set the cursor, fetches and processes a record. *)
Lemma first_scan_without_baseline :
  last_signature
    (outcome (ledger [] [] no_pages transfer_records)
       (_check_account_transactions any_address example_monitor "Wallet"
          (example_state None))) = None
  /\ let calls := trace (ledger [] [] two_accounts transfer_records)
                    (check_for_new_transactions any_address example_monitor
                       (example_state None)) in
     filter_map page_request calls = [("Wallet", None); ("Wallet-token", Some "w1")]
     /\ filter_map fetched_signature calls = ["t1"]
     /\ In (INFO, processing_of "t1") (filter_map logged calls)
     /\ List.length (filter_map sent_transaction calls) = 3%nat.
Proof.
  split; [vm_compute; reflexivity|]. cbv zeta.
  split; [vm_compute; reflexivity|]. split; [vm_compute; reflexivity|].
  split; [vm_compute; tauto|vm_compute; reflexivity].
Qed.

(** C7 as stated fails: after the scan of the wallet, the scan of the token
    account asks for the page before the signature [w1] of the wallet; on its
    own it asks for the latest page. *)
Lemma scan_changes_other_cursor :
  filter_map page_request
    (trace (ledger [] [] two_accounts transfer_records)
       (st <- _check_account_transactions any_address example_monitor "Wallet"
                (example_state None) ;;
        _check_account_transactions any_address example_monitor "Wallet-token" st))
  = [("Wallet", None); ("Wallet-token", Some "w1")]
  /\ filter_map page_request
       (trace (ledger [] [] two_accounts transfer_records)
          (_check_account_transactions any_address example_monitor "Wallet-token"
             (example_state None)))
     = [("Wallet-token", None)].
Proof. split; vm_compute; reflexivity. Qed.

(* ================================================================= *)
(** ** The worker loop *)

Section WorkerFacts.

Variable env : Env.
Variable cfg : Config.
Variable sleep_error : float -> option exn.

(** A tick whose check returns, with a poll interval that [time.sleep]
    accepts, waits the poll interval and goes on. *)
Lemma iteration_polls (State : Type) (check : State -> Prog (result bool * State))
  (st : State) (h : list Call) :
  env h _ stop_is_set = false ->
  sleep_error (POLLING_INTERVAL cfg) = None ->
  forall found st1 h1,
  run env (check st) (call stop_is_set false :: h) = ((Ok found, st1), h1) ->
  run env (monitor_bot_iteration check cfg sleep_error st) h
  = ((Continue, st1), call (sleep (FloatSeconds (POLLING_INTERVAL cfg))) tt :: h1).
Proof.
  intros Hstop Hsleep found st1 h1 Hcheck.
  unfold monitor_bot_iteration, time_sleep, tbind, trigger. cbn [bind run].
  rewrite Hstop, run_bind, Hcheck, Hsleep. cbn [fst snd bind run].
  destruct (env _ unit (sleep _)). reflexivity.
Qed.



Section MonitorWorker.

Variable valid_address : AddressCheck.
Variable self : TransactionMonitor.




End MonitorWorker.

(** The check [main.py] runs as it stands only logs and cannot raise. *)
Lemma simulated_tick_waits_poll_interval (st : unit) (h : list Call) :
  env h _ stop_is_set = false ->
  sleep_error (POLLING_INTERVAL cfg) = None ->
  run env (monitor_bot_iteration (simulated_check cfg) cfg sleep_error st) h
  = ((Continue, tt),
     [ call (sleep (FloatSeconds (POLLING_INTERVAL cfg))) tt;
       call (log INFO ("Checking for new transactions on account "
                       +++ MONITORED_ACCOUNT cfg)) tt;
       call stop_is_set false ] ++ h).
Proof.
  intros Hstop Hsleep. destruct st.
  apply (iteration_polls unit (simulated_check cfg) tt h Hstop Hsleep false).
  unfold simulated_check, simulate_transaction_check, trigger. cbn [bind run].
  destruct (env _ unit _). reflexivity.
Qed.

End WorkerFacts.



(** A poll interval of -1.0, which the configuration readers accept:
    [time.sleep] refuses it after the scan cycle, and the tick waits the
    error-retry interval although no scan failed. *)
Example refused_poll_interval_retries :
  let calls := trace (ledger [] [] no_pages transfer_records)
                 (monitor_bot_iteration (monitor_check any_address example_monitor)
                    (with_intervals (literal (-1) 0) (literal 30 0))
                    example_sleep_error (example_state None)) in
  List.length (filter is_scan_error calls) = 0%nat
  /\ filter_map logged calls
     = [ (ERROR, "Error in main monitoring loop: sleep length must be non-negative");
         (ERROR, "Error in main monitoring loop: sleep length must be non-negative") ]
  /\ filter_map slept calls = [FloatSeconds (literal 30 0)].
Proof. cbv zeta. repeat split; vm_compute; reflexivity. Qed.

(* ================================================================= *)
(** * Further properties *)

(* ================================================================= *)
(** ** Nested lookups *)

Lemma safe_get_nested_default (default : pyobj) (keys : list string) :
  is_dict default = false -> safe_get_nested default keys default = default.
Proof.
  intros Hd. destruct keys as [|key rest]; [reflexivity|].
  destruct default; try reflexivity. discriminate Hd.
Qed.

(** X1 ([safe_get_nested]).  With a default that is not a dict, looking up
    a path is looking up its first part and then the rest from the value
    found; a key that is missing, or a value on the way that is not a dict,
    gives the default whatever follows. *)
Theorem safe_get_nested_app (obj default : pyobj) (keys1 keys2 : list string) :
  is_dict default = false ->
  safe_get_nested obj (keys1 ++ keys2) default
  = safe_get_nested (safe_get_nested obj keys1 default) keys2 default.
Proof.
  intros Hd. revert obj.
  induction keys1 as [|key rest IH]; intros obj; [reflexivity|].
  cbn [app safe_get_nested].
  destruct obj as [ | b | n | s | l | items];
    try (symmetry; apply safe_get_nested_default; exact Hd).
  destruct (dict_item key items) as [current|].
  - apply IH.
  - symmetry. apply safe_get_nested_default. exact Hd.
Qed.

Lemma safe_get_nested_app_witness :
  is_dict PyNone = false
  /\ safe_get_nested
       (PyDict [("meta", PyDict [("err", PyNone); ("fee", PyInt 5000)])])
       (["meta"] ++ ["fee"]) PyNone
     = safe_get_nested
         (safe_get_nested
            (PyDict [("meta", PyDict [("err", PyNone); ("fee", PyInt 5000)])])
            ["meta"] PyNone)
         ["fee"] PyNone.
Proof.
  split; [reflexivity|].
  apply (safe_get_nested_app
           (PyDict [("meta", PyDict [("err", PyNone); ("fee", PyInt 5000)])])
           PyNone ["meta"] ["fee"]).
  reflexivity.
Defined.

(** A default that is a dict is looked into when the first part of the path
    fails. *)
Example safe_get_nested_dict_default :
  let default := PyDict [("fee", PyInt 0)] in
  safe_get_nested (PyDict []) (["meta"] ++ ["fee"]) default = default
  /\ safe_get_nested (safe_get_nested (PyDict []) ["meta"] default) ["fee"] default
     = PyInt 0.
Proof. split; reflexivity. Qed.

(* ================================================================= *)
(** ** Redaction *)

Lemma append_assoc (a b c : string) : (a +++ b) +++ c = a +++ (b +++ c).
Proof. induction a as [|x a IH]; simpl; [reflexivity|]. rewrite IH. reflexivity. Qed.

Lemma redact_from_cons (skip : nat) (c : ascii) (s : string) :
  redact_from skip (String c s)
  = match skip with
    | S k => redact_from k s
    | O =>
        if (87 <=? run_length (String c s))%nat
        then REDACTED_PRIVATE_KEY
             +++ redact_from (Nat.min 88 (run_length (String c s)) - 1) s
        else String c (redact_from O s)
    end.
Proof. destruct skip; reflexivity. Qed.

Lemma run_length_cons (c : ascii) (s : string) :
  run_length (String c s) = if is_base58 c then S (run_length s) else O.
Proof. reflexivity. Qed.

(** X2 ([redact_sensitive_data]).  A text in which no position starts 87
    characters of the base58 alphabet is returned as it is. *)
Theorem redact_sensitive_data_unchanged (text : string) :
  no_long_run text = true -> redact_sensitive_data text = text.
Proof.
  unfold redact_sensitive_data.
  induction text as [|c s IH]; intros H; [reflexivity|].
  cbn [no_long_run] in H. apply andb_prop in H. destruct H as [Hrun Hrest].
  rewrite redact_from_cons.
  apply Nat.ltb_lt in Hrun.
  destruct (87 <=? run_length (String c s))%nat eqn:Hle.
  - apply Nat.leb_le in Hle. lia.
  - rewrite (IH Hrest). reflexivity.
Qed.

Lemma redact_sensitive_data_unchanged_witness :
  no_long_run "Detected incoming NexaCoin transfer: 2000 to Wallet-token" = true
  /\ redact_sensitive_data "Detected incoming NexaCoin transfer: 2000 to Wallet-token"
     = "Detected incoming NexaCoin transfer: 2000 to Wallet-token".
Proof.
  split; [vm_compute; reflexivity|].
  apply (redact_sensitive_data_unchanged
           "Detected incoming NexaCoin transfer: 2000 to Wallet-token").
  vm_compute. reflexivity.
Defined.

(** The characters of the class at the start of [a ++ b] are those at the
    start of [a] when [a] ends outside the class. *)
Lemma run_length_app_outside (a b : string) :
  a <> EmptyString -> ends_outside a = true ->
  run_length (a +++ b) = run_length a.
Proof.
  induction a as [|c a IH]; intros Hne Hend; [congruence|].
  destruct a as [|c' a'].
  - cbn [ends_outside] in Hend. apply negb_true_iff in Hend.
    cbn [String.append run_length]. rewrite Hend. reflexivity.
  - change ((String c (String c' a')) +++ b) with (String c (String c' a' +++ b)).
    rewrite !run_length_cons.
    destruct (is_base58 c); [|reflexivity].
    f_equal. apply IH; [discriminate|exact Hend].
Qed.

Lemma redact_from_app (a b : string) (skip : nat) :
  ends_outside a = true -> (skip <= run_length a)%nat ->
  redact_from skip (a +++ b) = redact_from skip a +++ redact_from O b.
Proof.
  revert skip. induction a as [|c a IH]; intros skip Hend Hskip.
  - cbn [run_length] in Hskip. assert (skip = O) by lia. subst skip.
    reflexivity.
  - assert (Hrun : run_length (String c a +++ b) = run_length (String c a))
      by (apply run_length_app_outside; [discriminate|exact Hend]).
    assert (Hend' : ends_outside a = true).
    { destruct a as [|c' a']; [reflexivity|exact Hend]. }
    change (String c a +++ b) with (String c (a +++ b)) in *.
    rewrite !redact_from_cons. rewrite Hrun.
    rewrite run_length_cons in Hskip.
    destruct skip as [|k].
    + destruct (87 <=? run_length (String c a))%nat eqn:Hle.
      * apply Nat.leb_le in Hle.
        rewrite run_length_cons in Hle |- *.
        destruct (is_base58 c); [|lia].
        rewrite (IH (Nat.min 88 (S (run_length a)) - 1)%nat Hend') by lia.
        rewrite append_assoc. reflexivity.
      * rewrite (IH O Hend') by lia. reflexivity.
    + destruct (is_base58 c); [|lia].
      apply (IH k Hend'). lia.
Qed.

Lemma run_length_all (key rest : string) :
  all_base58 key = true ->
  run_length (key +++ rest) = (String.length key + run_length rest)%nat.
Proof.
  induction key as [|c key IH]; intros H; [reflexivity|].
  cbn [all_base58] in H. apply andb_prop in H. destruct H as [Hc Hkey].
  cbn [String.append String.length run_length Nat.add]. rewrite Hc.
  rewrite (IH Hkey). reflexivity.
Qed.

Lemma redact_from_skips (key rest : string) :
  redact_from (String.length key) (key +++ rest) = redact_from O rest.
Proof.
  induction key as [|c key IH]; [reflexivity|].
  cbn [String.append String.length]. rewrite redact_from_cons. exact IH.
Qed.

Lemma redact_key (key rest : string) :
  all_base58 key = true ->
  (String.length key = 87 \/ String.length key = 88)%nat ->
  run_length rest = O ->
  redact_from O (key +++ rest) = REDACTED_PRIVATE_KEY +++ redact_from O rest.
Proof.
  intros Hall Hlen Hrest.
  pose proof (run_length_all key rest Hall) as Hrun. rewrite Hrest in Hrun.
  destruct key as [|c key]; [cbn [String.length] in Hlen; lia|].
  change (String c key +++ rest) with (String c (key +++ rest)) in *.
  rewrite redact_from_cons. rewrite Hrun.
  cbn [String.length] in *.
  replace (87 <=? S (String.length key) + 0)%nat with true
    by (symmetry; apply Nat.leb_le; lia).
  replace (Nat.min 88 (S (String.length key) + 0) - 1)%nat with (String.length key)
    by lia.
  rewrite redact_from_skips. reflexivity.
Qed.

(** X3 ([redact_sensitive_data]).  A key of 87 or 88 characters of the
    base58 alphabet that stands between characters outside the alphabet (or
    at an end of the text) is replaced by the marker, and the text before
    and after it is redacted on its own. *)
Theorem redact_sensitive_data_key (before key after : string) :
  all_base58 key = true ->
  (String.length key = 87 \/ String.length key = 88)%nat ->
  ends_outside before = true ->
  run_length after = O ->
  redact_sensitive_data (before +++ key +++ after)
  = redact_sensitive_data before +++ REDACTED_PRIVATE_KEY
    +++ redact_sensitive_data after.
Proof.
  intros Hall Hlen Hbefore Hafter. unfold redact_sensitive_data.
  rewrite (redact_from_app before (key +++ after) O Hbefore) by lia.
  rewrite (redact_key key after Hall Hlen Hafter). reflexivity.
Qed.

Lemma redact_sensitive_data_key_witness :
  redact_sensitive_data
    ("key: "
     +++ "5Kd3NBUAdUnhyzenEwVLy9pBKxSwXvE9FMPyR4UKZvpe6E3WPBnMErRmpqBALhVLWUoZ8PtFhcAFoK8mhFvmCCCC"
     +++ " loaded")
  = redact_sensitive_data "key: " +++ REDACTED_PRIVATE_KEY
    +++ redact_sensitive_data " loaded".
Proof.
  apply (redact_sensitive_data_key "key: "
           "5Kd3NBUAdUnhyzenEwVLy9pBKxSwXvE9FMPyR4UKZvpe6E3WPBnMErRmpqBALhVLWUoZ8PtFhcAFoK8mhFvmCCCC"
           " loaded").
  - vm_compute. reflexivity.
  - right. vm_compute. reflexivity.
  - vm_compute. reflexivity.
  - vm_compute. reflexivity.
Defined.

(** A key that directly follows a character of the alphabet is matched one
    character early, and its last character stays in the text. *)
Example redact_sensitive_data_leaves_a_character :
  redact_sensitive_data
    ("x5Kd3NBUAdUnhyzenEwVLy9pBKxSwXvE9FMPyR4UKZvpe6E3WPBnMErRmpqBALhVLWUoZ8PtFhcAFoK8mhFvmCCCZ")
  = "REDACTED_PRIVATE_KEYZ".
Proof. vm_compute. reflexivity. Qed.

(* ================================================================= *)
(** ** The in-memory log *)

Lemma lastn_all {A} (n : nat) (l : list A) :
  (List.length l <= n)%nat -> lastn n l = l.
Proof.
  intros H. unfold lastn.
  replace (List.length l - n)%nat with O by lia. reflexivity.
Qed.

Lemma lastn_length {A} (n : nat) (l : list A) :
  List.length (lastn n l) = Nat.min n (List.length l).
Proof. unfold lastn. rewrite length_skipn. lia. Qed.

Lemma lastn_app {A} (n : nat) (l m : list A) :
  lastn n (lastn n l ++ m) = lastn n (l ++ m).
Proof.
  destruct (Nat.le_gt_cases (List.length l) n) as [Hle|Hgt].
  - rewrite (lastn_all n l Hle). reflexivity.
  - unfold lastn at 1 3.
    rewrite !length_app, lastn_length, !skipn_app, lastn_length.
    unfold lastn. rewrite skipn_skipn.
    replace (Nat.min n (List.length l)) with n by lia.
    replace (List.length l + List.length m - n - List.length l)%nat
      with (List.length m - n)%nat by lia.
    replace (n + List.length m - n - n)%nat with (List.length m - n)%nat by lia.
    f_equal.
    destruct (Nat.le_gt_cases (List.length m) n) as [Hm|Hm].
    + f_equal. lia.
    + rewrite !skipn_all2 by lia. reflexivity.
Qed.

Lemma add_log_lastn (log_entries : list LogEntry) (entry : LogEntry) :
  (List.length log_entries <= MAX_LOG_ENTRIES)%nat ->
  add_log log_entries entry = lastn MAX_LOG_ENTRIES (log_entries ++ [entry]).
Proof.
  intros H. unfold add_log, lastn.
  rewrite length_app. cbn [List.length].
  destruct (MAX_LOG_ENTRIES <? List.length log_entries + 1)%nat eqn:Hlt.
  - apply Nat.ltb_lt in Hlt.
    replace (List.length log_entries + 1 - MAX_LOG_ENTRIES)%nat with 1%nat by lia.
    reflexivity.
  - apply Nat.ltb_ge in Hlt.
    replace (List.length log_entries + 1 - MAX_LOG_ENTRIES)%nat with O by lia.
    reflexivity.
Qed.

(** X4 ([add_log]).  Starting from a log of at most 100 entries, after any
    number of calls the log holds the latest 100 entries of all that were
    written, oldest first: it never holds more, and only the oldest are
    dropped. *)
Theorem add_log_keeps_latest (log_entries written : list LogEntry) :
  (List.length log_entries <= MAX_LOG_ENTRIES)%nat ->
  fold_left add_log written log_entries
  = lastn MAX_LOG_ENTRIES (log_entries ++ written)
  /\ (List.length (fold_left add_log written log_entries) <= MAX_LOG_ENTRIES)%nat.
Proof.
  intros H.
  assert (Heq : fold_left add_log written log_entries
                = lastn MAX_LOG_ENTRIES (log_entries ++ written)).
  { revert log_entries H.
    induction written as [|entry rest IH]; intros log_entries H.
    - cbn [fold_left]. rewrite app_nil_r. symmetry. apply lastn_all. exact H.
    - cbn [fold_left]. rewrite (add_log_lastn log_entries entry H).
      rewrite IH by (rewrite lastn_length; lia).
      rewrite lastn_app, <- app_assoc. reflexivity. }
  split; [exact Heq|]. rewrite Heq, lastn_length. lia.
Qed.

Lemma add_log_keeps_latest_witness :
  let e n := {| entry_timestamp := "2024-01-01 00:00:00"; entry_level := "INFO";
                entry_message := n |} in
  fold_left add_log [e "second"; e "third"] [e "first"]
  = lastn MAX_LOG_ENTRIES ([e "first"] ++ [e "second"; e "third"])
  /\ (List.length (fold_left add_log [e "second"; e "third"] [e "first"])
      <= MAX_LOG_ENTRIES)%nat.
Proof.
  intros e.
  apply (add_log_keeps_latest [e "first"] [e "second"; e "third"]).
  unfold MAX_LOG_ENTRIES. simpl. lia.
Defined.

(* ================================================================= *)
(** ** Reading the configuration *)

Lemma SFcompare_antisym (x y : float) :
  SFcompare y x = option_map CompOpp (SFcompare x y).
Proof.
  destruct x as [sx|sx| |sx mx ex], y as [sy|sy| |sy my ey]; cbn;
    try reflexivity; try (destruct sx; reflexivity); try (destruct sy; reflexivity);
    try (destruct sx, sy; reflexivity).
  destruct sx, sy; cbn; try reflexivity;
    rewrite (Z.compare_antisym ey ex); destruct (ey ?= ex); cbn; try reflexivity;
    fold (Pos.compare mx my); fold (Pos.compare my mx);
    rewrite (Pos.compare_antisym my mx);
    destruct (my ?= mx)%positive; reflexivity.
Qed.

(** [not (x > y)] on floats is [x <= y], unless one of the two is NaN. *)
Lemma not_fgt_fle (x y : float) :
  fgt x y = false -> fle x y = true \/ x = S754_nan \/ y = S754_nan.
Proof.
  unfold fgt, fle, SFltb, SFleb. rewrite (SFcompare_antisym x y).
  destruct (SFcompare x y) as [[| |]|] eqn:E; cbn; intros H;
    try discriminate; try (left; reflexivity).
  right. destruct x, y; cbn in E; try discriminate; tauto.
Qed.

(** The test of the sum lets through the percentages whose sum is within
    0.01 of 100, and those for which the distance is NaN. *)
Lemma percentages_off_false (b t f : float) :
  percentages_off b t f = false ->
  let gap := fabs (fsub (fadd (fadd b t) f) f100) in
  fle gap f0_01 = true \/ gap = S754_nan.
Proof.
  intros H gap. destruct (not_fgt_fle gap f0_01 H) as [Hle|[Hn|Hn]]; [tauto|tauto|].
  vm_compute in Hn. discriminate.
Qed.

Section EnvironmentFacts.

Variable environ : string -> option string.
Variable float_of_str : string -> option float.
Variable int_of_str : string -> option Z.
Variable b58decode : string -> option (list Byte.byte).

Lemma required_value (name value : string) :
  required environ name = inr value ->
  environ name = Some value /\ truthy value = true.
Proof.
  unfold required. destruct (environ name) as [v|]; [|discriminate].
  destruct (truthy v) eqn:Hv; [|discriminate].
  intros H. inversion H. subst. split; [reflexivity|exact Hv].
Qed.

Lemma truthy_opt_getenv (name : string) :
  truthy_opt (environ name) = true -> truthy (getenv environ name "") = true.
Proof. unfold getenv. destruct (environ name); [trivial|discriminate]. Qed.

(** X5 ([Config.__init__]).  A configuration that is constructed has its
    monitored account, its mint and its three destination addresses set to
    non-empty strings, a private key that the base58 decoder reads, and
    percentages for which the test [abs(total - 100.0) > 0.01] is false:
    [abs(total - 100.0)] is at most 0.01, or it is NaN (a percentage that is
    NaN is let through). *)
Theorem Config_constructed_is_checked (c : ConfigObject) :
  Config__init__ environ float_of_str int_of_str b58decode = inr c ->
  truthy (MONITORED_ACCOUNT (settings c)) = true
  /\ truthy (NEXACOIN_MINT (settings c)) = true
  /\ truthy (BURN_ADDRESS (settings c)) = true
  /\ truthy (TREASURY_ADDRESS (settings c)) = true
  /\ truthy (FEE_ADDRESS (settings c)) = true
  /\ truthy (PRIVATE_KEY_BASE58 c) = true
  /\ b58decode (PRIVATE_KEY_BASE58 c) = Some (PRIVATE_KEY_BYTES c)
  /\ percentages_valid (settings c) = true
  /\ (fle (percentage_gap (settings c)) f0_01 = true
      \/ percentage_gap (settings c) = S754_nan).
Proof.
  unfold Config__init__, cbind, to_float, to_int.
  destruct (required environ "MONITORED_ACCOUNT") as [|account] eqn:Ha; [discriminate|].
  destruct (required environ "PRIVATE_KEY") as [|key] eqn:Hk; [discriminate|].
  destruct (b58decode key) as [bytes|] eqn:Hb; [|discriminate].
  destruct (required environ "NEXACOIN_MINT") as [|mint] eqn:Hm; [discriminate|].
  destruct (float_of_str (getenv environ "BURN_PERCENTAGE" "5.0")) as [b|];
    [|discriminate].
  destruct (float_of_str (getenv environ "TREASURY_PERCENTAGE" "70.0")) as [t|];
    [|discriminate].
  destruct (float_of_str (getenv environ "FEE_PERCENTAGE" "25.0")) as [f|];
    [|discriminate].
  destruct (percentages_off b t f) eqn:Hp; [discriminate|].
  destruct (truthy_opt (environ "BURN_ADDRESS")) eqn:H1; [|discriminate].
  destruct (truthy_opt (environ "TREASURY_ADDRESS")) eqn:H2; [|discriminate].
  destruct (truthy_opt (environ "FEE_ADDRESS")) eqn:H3; [|discriminate].
  cbn [andb negb].
  destruct (int_of_str (getenv environ "MIN_TRANSFER_AMOUNT" "1000")); [|discriminate].
  destruct (int_of_str (getenv environ "MAX_TRANSACTIONS_PER_BATCH" "10"));
    [|discriminate].
  destruct (int_of_str (getenv environ "CONFIRMATION_TIMEOUT" "60")); [|discriminate].
  destruct (float_of_str (getenv environ "POLLING_INTERVAL" "10.0")); [|discriminate].
  destruct (float_of_str (getenv environ "ERROR_RETRY_INTERVAL" "30.0"));
    [|discriminate].
  intros H. inversion H. subst c.
  cbn [settings MONITORED_ACCOUNT NEXACOIN_MINT BURN_ADDRESS TREASURY_ADDRESS
       FEE_ADDRESS PRIVATE_KEY_BASE58 PRIVATE_KEY_BYTES].
  apply required_value in Ha, Hk, Hm.
  repeat split; try tauto; try (apply truthy_opt_getenv; assumption).
  - unfold percentages_valid.
    cbn [BURN_PERCENTAGE TREASURY_PERCENTAGE FEE_PERCENTAGE].
    unfold percentages_off in Hp. rewrite Hp. reflexivity.
  - unfold percentage_gap.
    cbn [BURN_PERCENTAGE TREASURY_PERCENTAGE FEE_PERCENTAGE].
    exact (percentages_off_false b t f Hp).
Qed.

Lemma filter_nil_forall {A} (f : A -> bool) (l : list A) :
  filter f l = [] -> forall x, In x l -> f x = false.
Proof.
  intros H x Hx. destruct (f x) eqn:Hf; [|reflexivity].
  assert (In x (filter f l)) by (apply filter_In; split; assumption).
  rewrite H in *. contradiction.
Qed.

(** X6 ([get_environment_config]).  The dict that is returned has its six
    required fields set to non-empty strings and percentages for which the
    test [abs(total - 100.0) > 0.01] is false: [abs(total - 100.0)] is at
    most 0.01, or it is NaN (a percentage that is NaN is let through). *)
Theorem environment_config_is_checked (c : EnvironmentConfig) (timeout : Z) :
  get_environment_config environ float_of_str int_of_str = inr c ->
  truthy (env_MONITORED_ACCOUNT c) = true
  /\ truthy (env_PRIVATE_KEY c) = true
  /\ truthy (env_NEXACOIN_MINT c) = true
  /\ truthy (env_BURN_ADDRESS c) = true
  /\ truthy (env_TREASURY_ADDRESS c) = true
  /\ truthy (env_FEE_ADDRESS c) = true
  /\ percentages_valid (settings_of c timeout) = true
  /\ (fle (percentage_gap (settings_of c timeout)) f0_01 = true
      \/ percentage_gap (settings_of c timeout) = S754_nan).
Proof.
  unfold get_environment_config, cbind, to_float, to_int.
  destruct (float_of_str (getenv environ "BURN_PERCENTAGE" "5.0")) as [b|];
    [|discriminate].
  destruct (float_of_str (getenv environ "TREASURY_PERCENTAGE" "70.0")) as [t|];
    [|discriminate].
  destruct (float_of_str (getenv environ "FEE_PERCENTAGE" "25.0")) as [f|];
    [|discriminate].
  destruct (int_of_str (getenv environ "MIN_TRANSFER_AMOUNT" "1000")); [|discriminate].
  destruct (float_of_str (getenv environ "POLLING_INTERVAL" "10.0")); [|discriminate].
  destruct (float_of_str (getenv environ "ERROR_RETRY_INTERVAL" "30.0"));
    [|discriminate].
  destruct (filter (fun field => negb (truthy (field_value environ field)))
                   REQUIRED_FIELDS) as [|field rest] eqn:Hmissing; [|discriminate].
  destruct (percentages_off b t f) eqn:Hp; [discriminate|].
  intros H. inversion H. subst c.
  cbn [env_MONITORED_ACCOUNT env_PRIVATE_KEY env_NEXACOIN_MINT env_BURN_ADDRESS
       env_TREASURY_ADDRESS env_FEE_ADDRESS].
  pose proof (filter_nil_forall _ _ Hmissing) as Hall.
  assert (Hset : forall field, In field REQUIRED_FIELDS ->
                               truthy (field_value environ field) = true).
  { intros field Hin. apply negb_false_iff. apply (Hall field Hin). }
  repeat split; try (apply Hset; unfold REQUIRED_FIELDS; simpl; tauto).
  - unfold percentages_valid, settings_of.
    cbn [BURN_PERCENTAGE TREASURY_PERCENTAGE FEE_PERCENTAGE
         env_BURN_PERCENTAGE env_TREASURY_PERCENTAGE env_FEE_PERCENTAGE].
    unfold percentages_off in Hp. rewrite Hp. reflexivity.
  - unfold percentage_gap, settings_of.
    cbn [BURN_PERCENTAGE TREASURY_PERCENTAGE FEE_PERCENTAGE
         env_BURN_PERCENTAGE env_TREASURY_PERCENTAGE env_FEE_PERCENTAGE].
    exact (percentages_off_false b t f Hp).
Qed.

Lemma required_field (name value : string) :
  required environ name = inr value ->
  field_value environ name = value /\ truthy (field_value environ name) = true.
Proof.
  intros H. apply required_value in H. destruct H as [He Ht].
  unfold field_value, getenv. rewrite He. split; [reflexivity|exact Ht].
Qed.

Lemma truthy_opt_field (name : string) :
  truthy_opt (environ name) = true -> truthy (field_value environ name) = true.
Proof. apply truthy_opt_getenv. Qed.

(** X7 ([Config.__init__], [get_environment_config]).  An environment from
    which [Config()] is constructed is also accepted by
    [get_environment_config], with the same settings. *)
Theorem environment_config_accepts_config (c : ConfigObject) :
  Config__init__ environ float_of_str int_of_str b58decode = inr c ->
  exists m,
    get_environment_config environ float_of_str int_of_str = inr m
    /\ settings_of m (CONFIRMATION_TIMEOUT (settings c)) = settings c
    /\ env_PRIVATE_KEY m = PRIVATE_KEY_BASE58 c
    /\ env_NETWORK_URL m = NETWORK_URL c
    /\ env_NETWORK m = NETWORK c.
Proof.
  unfold Config__init__, get_environment_config, cbind, to_float, to_int.
  destruct (required environ "MONITORED_ACCOUNT") as [|account] eqn:Ha; [discriminate|].
  destruct (required environ "PRIVATE_KEY") as [|key] eqn:Hk; [discriminate|].
  destruct (b58decode key) as [bytes|] eqn:Hb; [|discriminate].
  destruct (required environ "NEXACOIN_MINT") as [|mint] eqn:Hm; [discriminate|].
  destruct (float_of_str (getenv environ "BURN_PERCENTAGE" "5.0")) as [b|];
    [|discriminate].
  destruct (float_of_str (getenv environ "TREASURY_PERCENTAGE" "70.0")) as [t|];
    [|discriminate].
  destruct (float_of_str (getenv environ "FEE_PERCENTAGE" "25.0")) as [f|];
    [|discriminate].
  destruct (percentages_off b t f) eqn:Hp; [discriminate|].
  destruct (truthy_opt (environ "BURN_ADDRESS")) eqn:H1; [|discriminate].
  destruct (truthy_opt (environ "TREASURY_ADDRESS")) eqn:H2; [|discriminate].
  destruct (truthy_opt (environ "FEE_ADDRESS")) eqn:H3; [|discriminate].
  cbn [andb negb].
  destruct (int_of_str (getenv environ "MIN_TRANSFER_AMOUNT" "1000")); [|discriminate].
  destruct (int_of_str (getenv environ "MAX_TRANSACTIONS_PER_BATCH" "10"));
    [|discriminate].
  destruct (int_of_str (getenv environ "CONFIRMATION_TIMEOUT" "60")); [|discriminate].
  destruct (float_of_str (getenv environ "POLLING_INTERVAL" "10.0")); [|discriminate].
  destruct (float_of_str (getenv environ "ERROR_RETRY_INTERVAL" "30.0"));
    [|discriminate].
  intros H. inversion H. subst c. clear H.
  apply required_field in Ha, Hk, Hm.
  apply truthy_opt_field in H1, H2, H3.
  destruct Ha as [Ha Ha'], Hk as [Hk Hk'], Hm as [Hm Hm'].
  unfold REQUIRED_FIELDS. cbn [filter].
  rewrite Ha', Hk', Hm', H1, H2, H3. cbn [negb].
  eexists. split; [reflexivity|].
  unfold settings_of. cbn. rewrite Ha, Hk, Hm. repeat split.
Qed.

End EnvironmentFacts.

Lemma Config_constructed_is_checked_witness :
  Config__init__ example_environ example_float_of_str example_int_of_str
                 example_b58decode = inr example_config_object
  /\ percentages_valid (settings example_config_object) = true
  /\ (fle (percentage_gap (settings example_config_object)) f0_01 = true
      \/ percentage_gap (settings example_config_object) = S754_nan).
Proof.
  assert (H : Config__init__ example_environ example_float_of_str example_int_of_str
                example_b58decode = inr example_config_object)
    by (vm_compute; reflexivity).
  split; [exact H|].
  apply (Config_constructed_is_checked example_environ example_float_of_str
           example_int_of_str example_b58decode example_config_object H).
Defined.

Lemma environment_config_is_checked_witness :
  get_environment_config example_environ example_float_of_str example_int_of_str
  = inr example_environment_config
  /\ percentages_valid (settings_of example_environment_config 60) = true
  /\ (fle (percentage_gap (settings_of example_environment_config 60)) f0_01 = true
      \/ percentage_gap (settings_of example_environment_config 60) = S754_nan).
Proof.
  assert (H : get_environment_config example_environ example_float_of_str
                example_int_of_str = inr example_environment_config)
    by (vm_compute; reflexivity).
  split; [exact H|].
  apply (environment_config_is_checked example_environ example_float_of_str
           example_int_of_str example_environment_config 60 H).
Defined.

(** A percentage that is NaN is let through by both readers: the test of
    the sum compares a NaN, which is false, and [abs(total - 100.0) <= 0.01]
    is false as well. *)
Example nan_percentage_accepted :
  (exists c, Config__init__ nan_environ nan_float_of_str example_int_of_str
               example_b58decode = inr c
             /\ BURN_PERCENTAGE (settings c) = S754_nan
             /\ percentage_gap (settings c) = S754_nan
             /\ fle (percentage_gap (settings c)) f0_01 = false)
  /\ (exists m, get_environment_config nan_environ nan_float_of_str example_int_of_str
                = inr m
                /\ env_BURN_PERCENTAGE m = S754_nan).
Proof.
  split; eexists; (split; [vm_compute; reflexivity|]); repeat split.
Qed.

Lemma environment_config_accepts_config_witness :
  exists c m,
    Config__init__ example_environ example_float_of_str example_int_of_str
                   example_b58decode = inr c
    /\ get_environment_config example_environ example_float_of_str example_int_of_str
       = inr m.
Proof.
  assert (H : Config__init__ example_environ example_float_of_str example_int_of_str
                example_b58decode = inr example_config_object)
    by (vm_compute; reflexivity).
  destruct (environment_config_accepts_config example_environ example_float_of_str
              example_int_of_str example_b58decode example_config_object H)
    as [m [Hm _]].
  exists example_config_object, m. split; [exact H|exact Hm].
Defined.

(* ================================================================= *)
(** ** Calls of a run *)

Lemma run_calls {R} (env : Env) (p : Prog R) : forall h,
  snd (run env p h) = calls_during env p h ++ h.
Proof.
  induction p as [a|X e k IH]; intros h; cbn [run calls_during].
  - reflexivity.
  - rewrite IH, <- app_assoc. reflexivity.
Qed.

Lemma fst_run_bind {A B} (env : Env) (p : Prog A) (f : A -> Prog B) (h : list Call) :
  fst (run env (bind p f) h)
  = fst (run env (f (fst (run env p h))) (calls_during env p h ++ h)).
Proof. rewrite run_bind, run_calls. reflexivity. Qed.

Lemma calls_bind {A B} (env : Env) (p : Prog A) (f : A -> Prog B) : forall h,
  calls_during env (bind p f) h
  = calls_during env (f (fst (run env p h))) (calls_during env p h ++ h)
    ++ calls_during env p h.
Proof.
  induction p as [a|X e k IH]; intros h; cbn [bind run calls_during fst].
  - rewrite app_nil_r. reflexivity.
  - rewrite IH, <- !app_assoc. reflexivity.
Qed.

Lemma calls_of_app (P : EventClass) (l1 l2 : list Call) :
  calls_of P l1 -> calls_of P l2 -> calls_of P (l1 ++ l2).
Proof. intros H1 H2. apply Forall_app. split; assumption. Qed.

Lemma calls_of_weaken (P Q : EventClass) (l : list Call) :
  (forall X (e : Event X), P X e = true -> Q X e = true) ->
  calls_of P l -> calls_of Q l.
Proof.
  intros HPQ H. unfold calls_of in *. rewrite Forall_forall in *.
  intros c Hc. apply HPQ. apply H. exact Hc.
Qed.

Lemma calls_of_filter (P : EventClass) (f : Call -> bool) (l : list Call) :
  (forall c, P _ (call_event c) = true -> f c = false) ->
  calls_of P l -> filter f l = [].
Proof.
  intros HPf H. induction H as [|c l Hc Hl IH]; [reflexivity|].
  cbn [filter]. rewrite (HPf c Hc). exact IH.
Qed.

Lemma calls_of_filter_map {B} (P : EventClass) (f : Call -> option B) (l : list Call) :
  (forall c, P _ (call_event c) = true -> f c = None) ->
  calls_of P l -> filter_map f l = [].
Proof.
  intros HPf H. induction H as [|c l Hc Hl IH]; [reflexivity|].
  cbn [filter_map]. rewrite (HPf c Hc). exact IH.
Qed.

Lemma emits_only_bind {A B} (P : EventClass) (p : Prog A) (f : A -> Prog B) :
  emits_only P p -> (forall a, emits_only P (f a)) -> emits_only P (bind p f).
Proof.
  intros Hp Hf. induction p as [a|X e k IH]; cbn [bind emits_only] in *.
  - apply Hf.
  - destruct Hp as [He Hk]. split; [exact He|].
    intros x. apply IH. apply Hk.
Qed.

Lemma emits_only_trigger {X} (P : EventClass) (e : Event X) :
  P _ e = true -> emits_only P (trigger e).
Proof. intros H. cbn. split; [exact H|]. intros x. exact I. Qed.

Lemma emits_only_weaken {R} (P Q : EventClass) (p : Prog R) :
  (forall X (e : Event X), P X e = true -> Q X e = true) ->
  emits_only P p -> emits_only Q p.
Proof.
  intros HPQ. induction p as [a|X e k IH]; cbn [emits_only]; [trivial|].
  intros [He Hk]. split; [apply HPQ; exact He|].
  intros x. apply IH. apply Hk.
Qed.

Lemma emits_only_calls {R} (P : EventClass) (env : Env) (p : Prog R) : forall h,
  emits_only P p -> calls_of P (calls_during env p h).
Proof.
  induction p as [a|X e k IH]; intros h Hp; cbn [emits_only calls_during] in *.
  - constructor.
  - destruct Hp as [He Hk]. apply calls_of_app.
    + apply IH. apply Hk.
    + constructor; [exact He|constructor].
Qed.

Lemma emits_only_tbind {A B} (P : EventClass) (p : Prog (result A))
  (f : A -> Prog (result B)) :
  emits_only P p -> (forall a, emits_only P (f a)) -> emits_only P (tbind p f).
Proof.
  intros Hp Hf. unfold tbind. apply emits_only_bind; [exact Hp|].
  intros [a|e]; [apply Hf|exact I].
Qed.

Lemma emits_only_try {A} (P : EventClass) (body : Prog (result A))
  (handler : exn -> Prog A) :
  emits_only P body -> (forall e, emits_only P (handler e)) ->
  emits_only P (try_except body handler).
Proof.
  intros Hb Hh. unfold try_except. apply emits_only_bind; [exact Hb|].
  intros [a|e]; [exact I|apply Hh].
Qed.

Ltac emits_with known :=
  repeat first
    [ exact I
    | known
    | apply emits_only_try
    | apply emits_only_tbind
    | apply emits_only_bind
    | apply emits_only_trigger; reflexivity
    | intro ].

Ltac emits := emits_with fail.

(* ================================================================= *)
(** ** Encoding of amounts *)

(** X8 ([int.to_bytes] in [_build_token_transfer_transaction]).  An amount
    is encoded exactly when it is not negative and fits the length; the
    bytes then have this length and read back, little-endian, as the
    amount. *)
Theorem to_bytes_little_round_trip (n : Z) (len : nat) :
  ((exists bs, to_bytes_little n len = Ok bs) <-> 0 <= n < 256 ^ Z.of_nat len)
  /\ (forall bs, to_bytes_little n len = Ok bs ->
                 List.length bs = len /\ le_value bs = n)
  /\ (to_bytes_little n len
      = Raise (OverflowError (if n <? 0
                              then "can't convert negative int to unsigned"
                              else "int too big to convert"))
      \/ exists bs, to_bytes_little n len = Ok bs).
Proof.
  unfold to_bytes_little.
  destruct (0 <=? n) eqn:H0; destruct (n <? 256 ^ Z.of_nat len) eqn:H1; cbn [andb];
    try apply Z.leb_le in H0; try apply Z.ltb_lt in H1;
    try apply Z.leb_gt in H0; try apply Z.ltb_ge in H1.
  - split; [|split].
    + split; [intros _; lia|intros _; eexists; reflexivity].
    + intros bs Hbs. inversion Hbs. split; [apply le_bytes_length|].
      rewrite le_bytes_value. apply Z.mod_small. lia.
    + right. eexists. reflexivity.
  - split; [|split].
    + split; [intros [bs Hbs]; discriminate|intros H; lia].
    + intros bs Hbs. discriminate.
    + left. reflexivity.
  - split; [|split].
    + split; [intros [bs Hbs]; discriminate|intros H; lia].
    + intros bs Hbs. discriminate.
    + left. reflexivity.
  - split; [|split].
    + split; [intros [bs Hbs]; discriminate|intros H; lia].
    + intros bs Hbs. discriminate.
    + left. reflexivity.
Qed.

Lemma to_bytes_8 (leg_amount : Z) :
  (exists bs, to_bytes_little leg_amount 8 = Ok bs
              /\ (0 <=? leg_amount) && (leg_amount <? 2 ^ 64) = true)
  \/ ((exists msg, to_bytes_little leg_amount 8 = Raise (OverflowError msg))
      /\ (0 <=? leg_amount) && (leg_amount <? 2 ^ 64) = false).
Proof.
  unfold to_bytes_little. change (256 ^ Z.of_nat 8) with (2 ^ 64).
  destruct ((0 <=? leg_amount) && (leg_amount <? 2 ^ 64)).
  - left. eexists. split; reflexivity.
  - right. split; [eexists|]; reflexivity.
Qed.


Lemma run_split {R} (env : Env) (p : Prog R) (h : list Call) (r : R) (calls : list Call) :
  run env p h = (r, calls ++ h) ->
  fst (run env p h) = r /\ calls_during env p h = calls.
Proof.
  intros E. split; [rewrite E; reflexivity|].
  pose proof (run_calls env p h) as Hc. rewrite E in Hc. cbn [snd] in Hc.
  apply app_inv_tail in Hc. symmetry. exact Hc.
Qed.

Lemma run_joined {R} (env : Env) (p : Prog R) (h : list Call) :
  run env p h = (fst (run env p h), calls_during env p h ++ h).
Proof. rewrite <- run_calls. destruct (run env p h). reflexivity. Qed.

Lemma count_app (f : Call -> bool) (l1 l2 : list Call) :
  count f (l1 ++ l2) = (count f l1 + count f l2)%nat.
Proof. unfold count. rewrite filter_app, length_app. reflexivity. Qed.

Lemma count_none (P : EventClass) (f : Call -> bool) (l : list Call) :
  (forall c, P _ (call_event c) = true -> f c = false) ->
  calls_of P l -> count f l = O.
Proof. intros HPf H. unfold count. rewrite (calls_of_filter P f l HPf H). reflexivity. Qed.

Lemma lookup_no_submission (c : Call) :
  lookup_event _ (call_event c) = true -> is_submission c = false.
Proof. destruct c as [X e x]. destruct e; cbn; congruence. Qed.

Lemma lookup_no_blockhash (c : Call) :
  lookup_event _ (call_event c) = true -> is_blockhash_request c = false.
Proof. destruct c as [X e x]. destruct e; cbn; congruence. Qed.

Lemma build_no_submission (c : Call) :
  build_event _ (call_event c) = true -> is_submission c = false.
Proof. destruct c as [X e x]. destruct e; cbn; congruence. Qed.

Lemma lookup_is_build (X : Type) (e : Event X) :
  lookup_event X e = true -> build_event X e = true.
Proof. destruct e; cbn; congruence. Qed.

Lemma build_is_processor (X : Type) (e : Event X) :
  build_event X e = true -> processor_event X e = true.
Proof. destruct e; cbn; congruence. Qed.

Section ProcessorRuns.

Variable valid_address : AddressCheck.
Variable env : Env.
Variable self : TransferProcessor.

Lemma find_emits (owner : string) :
  emits_only lookup_event (_find_token_account_for_owner self owner).
Proof.
  unfold _find_token_account_for_owner. emits.
  destruct a as [|first rest]; emits.
Qed.

Lemma build_emits (source dest : string) (leg_amount : Z) :
  emits_only build_event
    (_build_token_transfer_transaction valid_address self source dest leg_amount).
Proof.
  unfold _build_token_transfer_transaction. emits.
  destruct a as [tx|e]; emits.
Qed.

Lemma build_leg_emits (tx_type source dest : string) (leg_amount : Z)
  (transactions : list (string * Transaction * Z)) :
  emits_only build_event
    (build_leg valid_address self tx_type source dest leg_amount transactions).
Proof.
  unfold build_leg.
  destruct (leg_amount >? 0); emits_with ltac:(apply build_emits).
Qed.

Lemma execute_transactions_emits (transactions : list (string * Transaction * Z)) :
  forall success,
  emits_only processor_event (execute_transactions self transactions success).
Proof.
  induction transactions as [|[[tx_type tx] a] rest IH]; intros success;
    cbn [execute_transactions]; [exact I|].
  emits_with ltac:(apply IH).
  destruct a1; emits.
Qed.

Lemma execute_redistribution_emits (source : string) (b t f : Z) :
  emits_only processor_event
    (_execute_redistribution valid_address self source b t f).
Proof.
  unfold _execute_redistribution.
  apply emits_only_try; [|emits].
  apply emits_only_bind;
    [apply (emits_only_weaken lookup_event); [|apply find_emits];
     intros X e He; apply build_is_processor, lookup_is_build, He|].
  intros r1.
  apply emits_only_bind;
    [apply (emits_only_weaken lookup_event); [|apply find_emits];
     intros X e He; apply build_is_processor, lookup_is_build, He|].
  intros r2.
  apply emits_only_bind;
    [apply (emits_only_weaken lookup_event); [|apply find_emits];
     intros X e He; apply build_is_processor, lookup_is_build, He|].
  intros r3.
  destruct r1 as [a1|]; [|emits].
  destruct r2 as [a2|]; [|emits].
  destruct r3 as [a3|]; [|emits].
  destruct (truthy a1 && truthy a2 && truthy a3); [|emits].
  apply emits_only_tbind;
    [apply (emits_only_weaken build_event);
     [apply build_is_processor|apply build_leg_emits]|].
  intros txs1.
  apply emits_only_tbind;
    [apply (emits_only_weaken build_event);
     [apply build_is_processor|apply build_leg_emits]|].
  intros txs2.
  apply emits_only_tbind;
    [apply (emits_only_weaken build_event);
     [apply build_is_processor|apply build_leg_emits]|].
  intros txs3.
  apply emits_only_bind; [apply execute_transactions_emits|].
  intros ok. exact I.
Qed.

Lemma process_transfer_emits (details : TransferDetails) :
  emits_only processor_event (process_transfer valid_address self details).
Proof.
  unfold process_transfer.
  apply emits_only_try; [|emits].
  apply emits_only_bind; [emits|]. intros _.
  destruct (amount details <? MIN_TRANSFER_AMOUNT (config self)); [emits|].
  apply emits_only_tbind; [exact I|].
  intros [[burn_amount treasury_amount] fee_amount].
  apply emits_only_bind; [emits|]. intros _.
  apply emits_only_bind; [apply execute_redistribution_emits|].
  intros r. exact I.
Qed.

(** X10 ([process_transfer]).  Whatever the ledger answers, the processor
    asks for token accounts and block hashes, submits, waits for
    confirmations, pauses for one second and logs, and nothing else: it
    reads no signatures and no records, and every pause is of one second. *)
Theorem process_transfer_events (details : TransferDetails) (h : list Call) :
  calls_of processor_event
    (calls_during env (process_transfer valid_address self details) h)
  /\ filter_map page_request
       (calls_during env (process_transfer valid_address self details) h) = []
  /\ filter_map fetched_signature
       (calls_during env (process_transfer valid_address self details) h) = []
  /\ forall d, In d (filter_map slept
                       (calls_during env (process_transfer valid_address self details) h))
               -> d = IntSeconds 1.
Proof.
  pose proof (emits_only_calls processor_event env _ h (process_transfer_emits details))
    as H.
  split; [exact H|]. split; [|split].
  - apply (calls_of_filter_map processor_event); [|exact H].
    intros [X e x]. destruct e; cbn; congruence.
  - apply (calls_of_filter_map processor_event); [|exact H].
    intros [X e x]. destruct e; cbn; congruence.
  - induction H as [|c l Hc Hl IH]; intros d Hd; [destruct Hd|].
    cbn [filter_map] in Hd. destruct c as [X e x].
    destruct e; cbn in Hc, Hd; try (apply IH; exact Hd); try discriminate.
    destruct d0 as [n|y]; [|discriminate].
    destruct Hd as [Hd|Hd]; [|apply IH; exact Hd].
    subst d. destruct n as [|p|p]; try discriminate.
    destruct p; try discriminate. reflexivity.
Qed.

(** X11 ([process_transfer]).  A transfer below [MIN_TRANSFER_AMOUNT] is
    answered [False] after two log lines: nothing is asked of the ledger. *)
Theorem below_threshold_not_redistributed (details : TransferDetails) (h : list Call) :
  amount details < MIN_TRANSFER_AMOUNT (config self) ->
  fst (run env (process_transfer valid_address self details) h) = false
  /\ calls_of is_log (calls_during env (process_transfer valid_address self details) h)
  /\ List.length (calls_during env (process_transfer valid_address self details) h)
     = 2%nat.
Proof.
  intros Hlt. apply Z.ltb_lt in Hlt.
  unfold process_transfer, try_except, trigger. cbn [bind run calls_during fst].
  rewrite Hlt. cbn [bind run calls_during fst app List.length].
  split; [reflexivity|]. split; [|reflexivity].
  repeat constructor.
Qed.

Lemma run_find_any (owner : string) (h : list Call) :
  exists r calls,
    run env (_find_token_account_for_owner self owner) h = (r, calls ++ h)
    /\ calls_of lookup_event calls
    /\ forall a, r = Some a ->
         exists rest,
           env h _ (get_token_accounts_by_owner owner (NEXACOIN_MINT (config self)))
           = Ok (a :: rest).
Proof.
  exists (fst (run env (_find_token_account_for_owner self owner) h)),
         (calls_during env (_find_token_account_for_owner self owner) h).
  split; [apply run_joined|].
  split; [apply emits_only_calls, find_emits|].
  unfold _find_token_account_for_owner, try_except, tbind, trigger.
  cbn [bind run fst].
  destruct (env h _ (get_token_accounts_by_owner owner (NEXACOIN_MINT (config self))))
    as [[|first rest]|e]; cbn [bind run fst]; intros a Ha; try discriminate.
  inversion Ha. subst. exists rest. reflexivity.
Qed.

Lemma run_build_any (source dest : string) (leg_amount : Z) (h : list Call) :
  ((exists tx, fst (run env (_build_token_transfer_transaction valid_address self
                               source dest leg_amount) h) = Ok tx)
   <-> (exists bh, env h _ get_recent_blockhash = Ok bh)
       /\ valid_address source = true
       /\ valid_address dest = true
       /\ 0 <= leg_amount < 2 ^ 64)
  /\ calls_of blockhash_event
       (calls_during env (_build_token_transfer_transaction valid_address self
                            source dest leg_amount) h)
  /\ count is_blockhash_request
       (calls_during env (_build_token_transfer_transaction valid_address self
                            source dest leg_amount) h) = 1%nat.
Proof.
  unfold _build_token_transfer_transaction, tbind, PublicKey_of, trigger.
  cbn [bind run calls_during fst].
  destruct (env h _ get_recent_blockhash) as [bh|e] eqn:Ebh; cbn [bind run calls_during fst].
  - destruct (valid_address source) eqn:Es; cbn [bind run calls_during fst].
    + destruct (valid_address dest) eqn:Ed; cbn [bind run calls_during fst].
      * destruct (to_bytes_8 leg_amount) as [(bs & Hbs & Hr)|[[msg Hbs] Hr]]; rewrite Hbs;
          cbn [bind run calls_during fst app].
        -- apply andb_prop in Hr. destruct Hr as [H0 H1].
           apply Z.leb_le in H0. apply Z.ltb_lt in H1.
           split; [|split].
           ++ split; [intros _|intros _; eexists; reflexivity].
              split; [exists bh; reflexivity|]. repeat split; assumption.
           ++ repeat constructor.
           ++ reflexivity.
        -- split; [|split].
           ++ split; [intros [tx Htx]; discriminate|].
              intros (_ & _ & _ & [H0 H1]).
              apply Z.leb_le in H0. apply Z.ltb_lt in H1.
              rewrite H0, H1 in Hr. discriminate.
           ++ repeat constructor.
           ++ reflexivity.
      * split; [|split].
        -- split; [intros [tx Htx]; discriminate|].
           intros (_ & _ & Hd & _). discriminate.
        -- repeat constructor.
        -- reflexivity.
    + split; [|split].
      * split; [intros [tx Htx]; discriminate|].
        intros (_ & Hs & _). discriminate.
      * repeat constructor.
      * reflexivity.
  - split; [|split].
    + split; [intros [tx Htx]; discriminate|].
      intros ([bh Hbh] & _). discriminate.
    + repeat constructor.
    + reflexivity.
Qed.

(** X9 ([_build_token_transfer_transaction]).  A transaction is built
    exactly when the block hash is fetched, both addresses are well formed
    and the amount is in the unsigned 64-bit range; in every case the calls
    made are one request for a block hash and log lines, nothing else. *)
Theorem build_token_transfer_transaction_succeeds_iff
  (source dest : string) (leg_amount : Z) (h : list Call) :
  ((exists tx, fst (run env (_build_token_transfer_transaction valid_address self
                               source dest leg_amount) h) = Ok tx)
   <-> (exists bh, env h _ get_recent_blockhash = Ok bh)
       /\ valid_address source = true
       /\ valid_address dest = true
       /\ 0 <= leg_amount < 2 ^ 64)
  /\ calls_of blockhash_event
       (calls_during env (_build_token_transfer_transaction valid_address self
                            source dest leg_amount) h)
  /\ count is_blockhash_request
       (calls_during env (_build_token_transfer_transaction valid_address self
                            source dest leg_amount) h) = 1%nat.
Proof. apply run_build_any. Qed.

(** A leg that was passed: not positive, or built from a block hash with
    well-formed addresses and an amount that fits. *)
Lemma run_build_leg_any (tx_type source dest : string) (leg_amount : Z)
  (transactions : list (string * Transaction * Z)) (h : list Call) :
  exists r calls,
    run env (build_leg valid_address self tx_type source dest leg_amount transactions) h
    = (r, calls ++ h)
    /\ calls_of build_event calls
    /\ (count is_blockhash_request calls <= 1)%nat
    /\ forall transactions', r = Ok transactions' ->
         (List.length transactions'
          <= List.length transactions + count is_blockhash_request calls)%nat
         /\ (0 < leg_amount ->
             buildable valid_address source dest leg_amount = true
             /\ exists bh, env h _ get_recent_blockhash = Ok bh).
Proof.
  eexists _, _. split; [apply run_joined|].
  split; [apply emits_only_calls, build_leg_emits|].
  unfold build_leg.
  destruct (leg_amount >? 0) eqn:Epos.
  - destruct (run_build_any source dest leg_amount h) as (Hiff & _ & Hcount).
    unfold tbind. rewrite fst_run_bind, calls_bind.
    destruct (fst (run env (_build_token_transfer_transaction valid_address self
                              source dest leg_amount) h)) as [tx|e] eqn:Etx.
    + cbn [run fst calls_during app]. rewrite Hcount.
      split; [lia|]. intros transactions' Ht. inversion Ht. subst transactions'.
      split; [rewrite length_app; cbn [List.length]; lia|].
      intros _.
      destruct (proj1 Hiff (ex_intro _ tx eq_refl)) as (Hbh & Hs & Hd & H0 & H1).
      split; [|exact Hbh].
      unfold buildable. rewrite Hs, Hd. apply Z.ltb_lt in H1. rewrite H1. reflexivity.
    + cbn [run fst calls_during app]. rewrite Hcount.
      split; [lia|]. intros transactions' Ht. discriminate.
  - cbn [run fst calls_during]. unfold count. cbn [filter List.length].
    split; [lia|]. intros transactions' Ht. inversion Ht. subst transactions'.
    split; [lia|]. intros Hpos. rewrite Z.gtb_ltb in Epos. apply Z.ltb_ge in Epos. lia.
Qed.

Lemma run_execute_transactions_any (transactions : list (string * Transaction * Z)) :
  forall (success : bool) (h : list Call),
  count is_submission (calls_during env (execute_transactions self transactions success) h)
  = List.length transactions
  /\ count is_blockhash_request
       (calls_during env (execute_transactions self transactions success) h) = O.
Proof.
  induction transactions as [|[[tx_type tx] a] rest IH]; intros success h.
  - split; reflexivity.
  - cbn [execute_transactions]. unfold try_except, tbind, trigger.
    cbn [bind run calls_during].
    destruct (env h _ (send_transaction tx)) as [sig|e]; cbn [bind run calls_during].
    + match goal with
      | |- context [env ?h1 _ (confirm_transaction sig ?t)] =>
          destruct (env h1 _ (confirm_transaction sig t))
      end; cbn [bind run calls_during];
      match goal with
      | |- context [calls_during env (execute_transactions self rest ?s) ?h'] =>
          destruct (IH s h') as [Hs Hb]
      end;
      rewrite !count_app, Hs, Hb; cbn; split; lia.
    + match goal with
      | |- context [calls_during env (execute_transactions self rest ?s) ?h'] =>
          destruct (IH s h') as [Hs Hb]
      end;
      rewrite !count_app, Hs, Hb; cbn; split; lia.
Qed.

End ProcessorRuns.

Section RedistributionRuns.

Variable valid_address : AddressCheck.
Variable env : Env.
Variable self : TransferProcessor.

(** Every run of [_execute_redistribution]: it stops after the lookups, or
    after a build that raised, or goes through the submissions. *)
Lemma run_execute_redistribution_any (source : string) (b t f : Z) (h : list Call) :
  exists ok calls,
    run env (_execute_redistribution valid_address self source b t f) h
    = (ok, calls ++ h)
    /\ (count is_submission calls <= count is_blockhash_request calls <= 3)%nat
    /\ ((ok = false /\ calls_of lookup_event calls)
        \/ exists burn_acc treasury_acc fee_acc,
             found env self (burn_address self) burn_acc
             /\ found env self (treasury_address self) treasury_acc
             /\ found env self (fee_address self) fee_acc
             /\ truthy burn_acc = true /\ truthy treasury_acc = true
             /\ truthy fee_acc = true
             /\ ((ok = false /\ calls_of build_event calls)
                 \/ (passed valid_address env source burn_acc b /\ passed valid_address env source treasury_acc t
                     /\ passed valid_address env source fee_acc f))).
Proof.
  unfold _execute_redistribution, try_except.
  destruct (run_find_any env self (burn_address self) h) as (r1 & c1 & E1 & L1 & F1).
  rewrite run_bind, run_bind, E1. cbn [fst snd].
  destruct (run_find_any env self (treasury_address self) (c1 ++ h))
    as (r2 & c2 & E2 & L2 & F2).
  rewrite run_bind, E2. cbn [fst snd].
  destruct (run_find_any env self (fee_address self) (c2 ++ c1 ++ h))
    as (r3 & c3 & E3 & L3 & F3).
  rewrite run_bind, E3. cbn [fst snd].
  assert (Hlook : calls_of lookup_event (c3 ++ c2 ++ c1))
    by (repeat apply calls_of_app; assumption).
  assert (Hsub0 : count is_submission (c3 ++ c2 ++ c1) = O)
    by (apply (count_none lookup_event); [apply lookup_no_submission|exact Hlook]).
  assert (Hbh0 : count is_blockhash_request (c3 ++ c2 ++ c1) = O)
    by (apply (count_none lookup_event); [apply lookup_no_blockhash|exact Hlook]).
  assert (Hfail : forall msg,
            exists ok calls,
              run env (r <- (trigger (log ERROR msg) ;; Ret (Ok false)) ;;
                       match r with
                       | Ok a => Ret a
                       | Raise e =>
                           trigger (log ERROR ("Error executing redistribution: "
                                               +++ str_of_exn e)) ;;
                           Ret false
                       end) (c3 ++ c2 ++ c1 ++ h) = (ok, calls ++ h)
              /\ (count is_submission calls <= count is_blockhash_request calls <= 3)%nat
              /\ ok = false /\ calls_of lookup_event calls).
  { intros msg. unfold trigger. cbn [bind run].
    eexists _, (_ :: c3 ++ c2 ++ c1). split.
    { cbn [app]. rewrite <- !app_assoc. reflexivity. }
    split.
    { unfold count in *. cbn [filter is_submission is_blockhash_request call_event].
      rewrite Hsub0, Hbh0. cbn. lia. }
    split; [reflexivity|]. constructor; [reflexivity|exact Hlook]. }
  destruct r1 as [a1|];
    [|destruct (Hfail "Failed to find all required token accounts for redistribution")
        as (ok & calls & E & Hc & Hok & Hl);
      exists ok, calls; split; [exact E|]; split; [exact Hc|]; left; split; assumption].
  destruct r2 as [a2|];
    [|destruct (Hfail "Failed to find all required token accounts for redistribution")
        as (ok & calls & E & Hc & Hok & Hl);
      exists ok, calls; split; [exact E|]; split; [exact Hc|]; left; split; assumption].
  destruct r3 as [a3|];
    [|destruct (Hfail "Failed to find all required token accounts for redistribution")
        as (ok & calls & E & Hc & Hok & Hl);
      exists ok, calls; split; [exact E|]; split; [exact Hc|]; left; split; assumption].
  destruct (truthy a1 && truthy a2 && truthy a3) eqn:Htruthy;
    [|destruct (Hfail "Failed to find all required token accounts for redistribution")
        as (ok & calls & E & Hc & Hok & Hl);
      exists ok, calls; split; [exact E|]; split; [exact Hc|]; left; split; assumption].
  clear Hfail.
  apply andb_prop in Htruthy. destruct Htruthy as [Htruthy Ht3].
  apply andb_prop in Htruthy. destruct Htruthy as [Ht1 Ht2].
  destruct (F1 a1 eq_refl) as [rest1 G1].
  destruct (F2 a2 eq_refl) as [rest2 G2].
  destruct (F3 a3 eq_refl) as [rest3 G3].
  assert (Hf1 : found env self (burn_address self) a1) by (eexists _, _; exact G1).
  assert (Hf2 : found env self (treasury_address self) a2) by (eexists _, _; exact G2).
  assert (Hf3 : found env self (fee_address self) a3) by (eexists _, _; exact G3).
  clear F1 F2 F3 G1 G2 G3 E1 E2 E3.
  unfold tbind.
  destruct (run_build_leg_any valid_address env self "Burn" source a1 b []
              (c3 ++ c2 ++ c1 ++ h)) as (q1 & d1 & B1 & K1 & N1 & P1).
  rewrite run_bind, B1. cbn [fst snd].
  assert (Hraise : forall e (d : list Call),
            calls_of build_event d ->
            (count is_blockhash_request d <= 3)%nat ->
            exists ok calls,
              run env (match Raise e with
                       | Ok a => Ret a
                       | Raise e =>
                           trigger (log ERROR ("Error executing redistribution: "
                                               +++ str_of_exn e)) ;;
                           Ret false
                       end) (d ++ c3 ++ c2 ++ c1 ++ h) = (ok, calls ++ h)
              /\ (count is_submission calls <= count is_blockhash_request calls <= 3)%nat
              /\ ok = false /\ calls_of build_event calls).
  { intros e d Hd Hn. unfold trigger. cbn [bind run].
    eexists _, (_ :: d ++ c3 ++ c2 ++ c1). split.
    { cbn [app]. rewrite <- !app_assoc. reflexivity. }
    assert (Hall : calls_of build_event (d ++ c3 ++ c2 ++ c1)).
    { apply calls_of_app; [exact Hd|].
      apply (calls_of_weaken lookup_event); [apply lookup_is_build|exact Hlook]. }
    split.
    { change (count is_submission (?c :: ?l)) with (count is_submission l).
      change (count is_blockhash_request (?c :: ?l)) with (count is_blockhash_request l).
      rewrite (count_none build_event is_submission _ build_no_submission Hall).
      rewrite count_app, Hbh0. lia. }
    split; [reflexivity|]. constructor; [reflexivity|exact Hall]. }
  destruct q1 as [txs1|e1].
  2:{ cbn [run fst snd].
      destruct (Hraise e1 d1 K1 ltac:(lia)) as (ok & calls & E & Hc & Hok & Hl).
      exists ok, calls. split; [exact E|].
      split; [exact Hc|]. right. exists a1, a2, a3.
      repeat (split; [assumption|]). left. split; assumption. }
  destruct (P1 txs1 eq_refl) as [Len1 Pass1]. cbn [List.length] in Len1.
  destruct (run_build_leg_any valid_address env self "Treasury" source a2 t txs1
              (d1 ++ c3 ++ c2 ++ c1 ++ h)) as (q2 & d2 & B2 & K2 & N2 & P2).
  rewrite run_bind, B2. cbn [fst snd].
  destruct q2 as [txs2|e2].
  2:{ cbn [run fst snd].
      destruct (Hraise e2 (d2 ++ d1) ltac:(apply calls_of_app; assumption)
                  ltac:(rewrite count_app; lia))
        as (ok & calls & E & Hc & Hok & Hl).
      exists ok, calls. split; [rewrite <- !app_assoc in E; exact E|].
      split; [exact Hc|]. right. exists a1, a2, a3.
      repeat (split; [assumption|]). left. split; assumption. }
  destruct (P2 txs2 eq_refl) as [Len2 Pass2].
  destruct (run_build_leg_any valid_address env self "Fee" source a3 f txs2
              (d2 ++ d1 ++ c3 ++ c2 ++ c1 ++ h)) as (q3 & d3 & B3 & K3 & N3 & P3).
  rewrite run_bind, B3. cbn [fst snd].
  destruct q3 as [txs3|e3].
  2:{ cbn [run fst snd].
      destruct (Hraise e3 (d3 ++ d2 ++ d1)
                  ltac:(repeat apply calls_of_app; assumption)
                  ltac:(rewrite !count_app; lia))
        as (ok & calls & E & Hc & Hok & Hl).
      exists ok, calls. split; [rewrite <- !app_assoc in E; exact E|].
      split; [exact Hc|]. right. exists a1, a2, a3.
      repeat (split; [assumption|]). left. split; assumption. }
  destruct (P3 txs3 eq_refl) as [Len3 Pass3].
  clear Hraise.
  rewrite run_bind.
  rewrite (run_joined env (execute_transactions self txs3 true)
             (d3 ++ d2 ++ d1 ++ c3 ++ c2 ++ c1 ++ h)).
  cbn [fst snd run].
  destruct (run_execute_transactions_any env self txs3 true
              (d3 ++ d2 ++ d1 ++ c3 ++ c2 ++ c1 ++ h)) as [Hs Hb].
  set (x := calls_during env (execute_transactions self txs3 true)
              (d3 ++ d2 ++ d1 ++ c3 ++ c2 ++ c1 ++ h)) in *.
  eexists _, (x ++ d3 ++ d2 ++ d1 ++ c3 ++ c2 ++ c1).
  split; [rewrite <- !app_assoc; reflexivity|].
  assert (Hd0 : count is_submission (d3 ++ d2 ++ d1) = O).
  { apply (count_none build_event); [apply build_no_submission|].
    repeat apply calls_of_app; assumption. }
  split.
  { rewrite (app_assoc d3), (app_assoc (d3 ++ d2)), <- (app_assoc d3).
    rewrite !(count_app _ x), !(count_app _ (d3 ++ d2 ++ d1)).
    rewrite Hs, Hb, Hd0, Hsub0, Hbh0, !count_app. lia. }
  right. exists a1, a2, a3.
  repeat (split; [assumption|]). right.
  split; [|split].
  - intros Hpos. destruct (Pass1 Hpos) as [Hbuild [bh Hbh]].
    split; [exact Hbuild|]. eexists _, bh. exact Hbh.
  - intros Hpos. destruct (Pass2 Hpos) as [Hbuild [bh Hbh]].
    split; [exact Hbuild|]. eexists _, bh. exact Hbh.
  - intros Hpos. destruct (Pass3 Hpos) as [Hbuild [bh Hbh]].
    split; [exact Hbuild|]. eexists _, bh. exact Hbh.
Qed.

End RedistributionRuns.

Section RedistributionAborts.

Variable valid_address : AddressCheck.
Variable env : Env.
Variable self : TransferProcessor.

Lemma found_not_failing (owner account : string) :
  found env self owner account -> truthy account = true ->
  lookup_fails env (NEXACOIN_MINT (config self)) owner -> False.
Proof.
  intros (h & rest & E) Ht Hf. specialize (Hf h). rewrite E in Hf. congruence.
Qed.

(** X12 ([_execute_redistribution], [_find_token_account_for_owner]).  When
    the lookup of the burn, treasury or fee owner gives no usable token
    account (it raises, or answers no account, or an empty address), the
    redistribution answers [False] after lookups and log lines only: no
    block hash is requested and nothing is submitted, also for the legs
    whose accounts were found. *)
Theorem missing_token_account_stops_redistribution
  (source : string) (b t f : Z) (h : list Call) :
  lookup_fails env (NEXACOIN_MINT (config self)) (burn_address self)
  \/ lookup_fails env (NEXACOIN_MINT (config self)) (treasury_address self)
  \/ lookup_fails env (NEXACOIN_MINT (config self)) (fee_address self) ->
  fst (run env (_execute_redistribution valid_address self source b t f) h) = false
  /\ calls_of lookup_event
       (calls_during env (_execute_redistribution valid_address self source b t f) h).
Proof.
  intros Hfails.
  destruct (run_execute_redistribution_any valid_address env self source b t f h)
    as (ok & calls & E & _ & Hcases).
  destruct (run_split env _ h ok calls E) as [Hok Hcalls].
  rewrite Hok, Hcalls.
  destruct Hcases as [[Hfalse Hlook]|
                      (a1 & a2 & a3 & F1 & F2 & F3 & T1 & T2 & T3 & _)].
  - split; assumption.
  - exfalso. destruct Hfails as [Hf|[Hf|Hf]].
    + exact (found_not_failing _ _ F1 T1 Hf).
    + exact (found_not_failing _ _ F2 T2 Hf).
    + exact (found_not_failing _ _ F3 T3 Hf).
Qed.




(** X14 ([process_transfer], [_execute_redistribution]).  Whatever the
    ledger answers, a transfer leads to at most three submissions, and to
    no more submissions than block hashes were requested: every submitted
    transaction was built in this run. *)
Theorem submissions_bounded (details : TransferDetails) (h : list Call) :
  (count is_submission
     (calls_during env (process_transfer valid_address self details) h)
   <= count is_blockhash_request
        (calls_during env (process_transfer valid_address self details) h)
   <= 3)%nat.
Proof.
  unfold process_transfer, try_except, trigger. cbn [bind run calls_during].
  destruct (amount details <? MIN_TRANSFER_AMOUNT (config self)).
  - cbn [bind run calls_during]. cbn. lia.
  - unfold tbind. cbn [bind run calls_during].
    destruct (redistribution_plan self (amount details)) as [[[b t] f]|e].
    + cbn [bind run calls_during].
      rewrite calls_bind, fst_run_bind, calls_bind. cbn [run fst calls_during app].
      match goal with
      | |- context [calls_during env (_execute_redistribution valid_address self ?s b t f) ?h'] =>
          destruct (run_execute_redistribution_any valid_address env self s b t f h')
            as (ok & calls & E & Hc & _);
          destruct (run_split env _ h' ok calls E) as [Hok Hcalls];
          rewrite Hcalls
      end.
      rewrite !count_app. cbn. lia.
    + cbn [bind run calls_during]. cbn. lia.
Qed.

End RedistributionAborts.

(* ================================================================= *)
(** ** The three splits of the repository *)

(** X15 ([process_transfer], [simulate_transaction_processing],
    [split_amount_by_percentage]).  The three splits take the same floors
    for burn and treasury and raise together; they differ in the fee: the
    simulation keeps the floor, [split_amount_by_percentage] gives what is
    left of the amount, and [process_transfer] the smaller of the two. *)
Theorem splits_agree_up_to_fee (self : TransferProcessor) (amount_in : Z) :
  match simulated_plan (config self) amount_in with
  | Ok (b, t, f0) =>
      redistribution_plan self amount_in = Ok (b, t, Z.min f0 (amount_in - b - t))
      /\ split_amount_by_percentage amount_in
           [burn_percentage self; treasury_percentage self; fee_percentage self]
         = Ok [b; t; amount_in - b - t]
  | Raise e =>
      redistribution_plan self amount_in = Raise e
      /\ split_amount_by_percentage amount_in
           [burn_percentage self; treasury_percentage self; fee_percentage self]
         = Raise e
  end.
Proof.
  unfold simulated_plan, redistribution_plan, split_amount_by_percentage, shares,
    burn_percentage, treasury_percentage, fee_percentage.
  destruct (share amount_in (BURN_PERCENTAGE (config self))) as [b|e];
    cbn [rbind]; [|split; reflexivity].
  destruct (share amount_in (TREASURY_PERCENTAGE (config self))) as [t|e];
    cbn [rbind]; [|split; reflexivity].
  destruct (share amount_in (FEE_PERCENTAGE (config self))) as [f0|e];
    cbn [rbind]; [|split; reflexivity].
  split.
  - destruct (b + t + f0 >? amount_in) eqn:Egt.
    + rewrite Z.gtb_ltb in Egt. apply Z.ltb_lt in Egt. do 2 f_equal. lia.
    + rewrite Z.gtb_ltb in Egt. apply Z.ltb_ge in Egt. do 2 f_equal. lia.
  - cbn [zsum fold_right].
    destruct (b + (t + (f0 + 0)) =? amount_in) eqn:Eq; cbn [negb].
    + apply Z.eqb_eq in Eq. do 3 f_equal. f_equal. lia.
    + cbn [add_to_last rbind]. do 3 f_equal. f_equal. lia.
Qed.

(** The simulation logs its plan and answers [True]; it asks nothing of the
    ledger. *)
Example simulated_processing_of_1007 :
  simulated_plan example_config 1007 = Ok (50, 704, 251)
  /\ redistribution_plan example_processor 1007 = Ok (50, 704, 251)
  /\ split_amount_by_percentage 1007 [literal 5 0; literal 70 0; literal 25 0]
     = Ok [50; 704; 253].
Proof. repeat split; vm_compute; reflexivity. Qed.

(* ================================================================= *)
(** ** Balances by account index *)

Lemma dict_get_set {V} (d : list (nat * V)) (k : nat) (v : V) (k' : nat) :
  dict_get (dict_set d k v) k' = if Nat.eqb k' k then Some v else dict_get d k'.
Proof.
  induction d as [|[k0 v0] d IH]; cbn [dict_set dict_get].
  - destruct (Nat.eqb k' k); reflexivity.
  - destruct (Nat.eqb k k0) eqn:E0; cbn [dict_get].
    + apply Nat.eqb_eq in E0. subst k0.
      destruct (Nat.eqb k' k); reflexivity.
    + destruct (Nat.eqb k' k0) eqn:E1.
      * apply Nat.eqb_eq in E1. subst k0.
        rewrite Nat.eqb_sym in E0. rewrite E0. reflexivity.
      * exact IH.
Qed.

Lemma dict_set_keys {V} (d : list (nat * V)) (k : nat) (v : V) :
  NoDup (map fst d) ->
  NoDup (map fst (dict_set d k v))
  /\ forall k', In k' (map fst (dict_set d k v)) <-> k' = k \/ In k' (map fst d).
Proof.
  induction d as [|[k0 v0] d IH]; intros Hnd; cbn [dict_set map fst].
  - split; [repeat constructor; intros []|].
    intros k'. cbn. intuition congruence.
  - inversion Hnd as [|x l Hnotin Hnd']; subst.
    destruct (Nat.eqb k k0) eqn:E0; cbn [map fst].
    + apply Nat.eqb_eq in E0. subst k0. split; [exact Hnd|].
      intros k'. cbn. intuition congruence.
    + destruct (IH Hnd') as [IH1 IH2]. split.
      * constructor; [|exact IH1]. intros Hin. apply IH2 in Hin.
        destruct Hin as [Hin|Hin]; [|contradiction].
        subst k0. rewrite Nat.eqb_refl in E0. discriminate.
      * intros k'. cbn. rewrite IH2. intuition congruence.
Qed.

Lemma find_app {A} (f : A -> bool) (l1 l2 : list A) :
  find f (l1 ++ l2) = match find f l1 with
                      | Some x => Some x
                      | None => find f l2
                      end.
Proof.
  induction l1 as [|a l1 IH]; cbn [app find]; [reflexivity|].
  destruct (f a); [reflexivity|exact IH].
Qed.

Lemma dict_set_fst {V} (d : list (nat * V)) (k : nat) (v : V) :
  map fst (dict_set d k v)
  = if existsb (Nat.eqb k) (map fst d) then map fst d else map fst d ++ [k].
Proof.
  induction d as [|[k0 v0] d IH]; cbn [dict_set map fst existsb app]; [reflexivity|].
  destruct (Nat.eqb k k0) eqn:E; cbn [orb map fst].
  - apply Nat.eqb_eq in E. subst k0. reflexivity.
  - rewrite IH. destruct (existsb (Nat.eqb k) (map fst d)); reflexivity.
Qed.

Lemma by_account_index_positions (balances : list TokenBalance) :
  map fst (by_account_index balances) = positions balances.
Proof.
  unfold by_account_index, positions.
  assert (H : forall l d,
             map fst (fold_left (fun d b => dict_set d (accountIndex b) b) l d)
             = map fst d ++ first_positions (map fst d) l).
  { induction l as [|b l IH]; intros d; cbn [fold_left first_positions].
    - symmetry. apply app_nil_r.
    - rewrite IH, dict_set_fst.
      destruct (existsb (Nat.eqb (accountIndex b)) (map fst d)); [reflexivity|].
      rewrite <- app_assoc. reflexivity. }
  apply (H balances []).
Qed.

Lemma by_account_index_dict (balances : list TokenBalance) (idx : nat) :
  dict_get (by_account_index balances) idx = balance_at balances idx
  /\ NoDup (map fst (by_account_index balances)).
Proof.
  unfold by_account_index, balance_at.
  assert (H : forall l d,
             NoDup (map fst d) ->
             dict_get (fold_left (fun d b => dict_set d (accountIndex b) b) l d) idx
             = match find (fun b => Nat.eqb idx (accountIndex b)) (rev l) with
               | Some b => Some b
               | None => dict_get d idx
               end
             /\ NoDup (map fst (fold_left (fun d b => dict_set d (accountIndex b) b) l d))).
  { induction l as [|b l IH]; intros d Hd; cbn [fold_left rev].
    - split; [reflexivity|exact Hd].
    - destruct (IH (dict_set d (accountIndex b) b)
                  (proj1 (dict_set_keys d (accountIndex b) b Hd))) as [IH1 IH2].
      split; [|exact IH2].
      rewrite IH1, find_app, dict_get_set. cbn [find].
      destruct (find (fun b0 => Nat.eqb idx (accountIndex b0)) (rev l)); [reflexivity|].
      destruct (Nat.eqb idx (accountIndex b)); reflexivity. }
  destruct (H balances [] (NoDup_nil _)) as [H1 H2].
  split; [|exact H2].
  rewrite H1. destruct (find _ (rev balances)); reflexivity.
Qed.

(** X16 ([_extract_transfer_details]).  In the dict of balances by account
    index every index occurs once, and the balance found for an index is
    the last one the record lists for it; an index the record does not list
    is not found. *)
Theorem by_account_index_last (balances : list TokenBalance) (idx : nat) :
  dict_get (by_account_index balances) idx
  = find (fun b => Nat.eqb idx (accountIndex b)) (rev balances)
  /\ NoDup (map fst (by_account_index balances)).
Proof.
  unfold by_account_index.
  assert (H : forall l d,
             NoDup (map fst d) ->
             dict_get (fold_left (fun d b => dict_set d (accountIndex b) b) l d) idx
             = match find (fun b => Nat.eqb idx (accountIndex b)) (rev l) with
               | Some b => Some b
               | None => dict_get d idx
               end
             /\ NoDup (map fst (fold_left (fun d b => dict_set d (accountIndex b) b) l d))).
  { induction l as [|b l IH]; intros d Hd; cbn [fold_left rev].
    - split; [reflexivity|exact Hd].
    - destruct (IH (dict_set d (accountIndex b) b)
                  (proj1 (dict_set_keys d (accountIndex b) b Hd))) as [IH1 IH2].
      split; [|exact IH2].
      rewrite IH1, find_app, dict_get_set. cbn [find].
      destruct (find (fun b0 => Nat.eqb idx (accountIndex b0)) (rev l)); [reflexivity|].
      destruct (Nat.eqb idx (accountIndex b)); reflexivity. }
  destruct (H balances [] (NoDup_nil _)) as [H1 H2].
  split; [|exact H2].
  rewrite H1. destruct (find _ (rev balances)); reflexivity.
Qed.

(* ================================================================= *)
(** ** The event of a credited record *)

Lemma dict_get_in {V} (d : list (nat * V)) (k : nat) (v : V) :
  NoDup (map fst d) -> In (k, v) d -> dict_get d k = Some v.
Proof.
  induction d as [|[k0 v0] d IH]; intros Hnd Hin; [contradiction|].
  inversion Hnd as [|x l Hnotin Hnd']; subst. cbn [dict_get].
  destruct Hin as [E|Hin].
  - inversion E; subst. rewrite Nat.eqb_refl. reflexivity.
  - destruct (Nat.eqb k k0) eqn:E; [|now apply IH].
    apply Nat.eqb_eq in E. subst k0. exfalso. apply Hnotin.
    apply in_map_iff. exists (k, v). split; [reflexivity|exact Hin].
Qed.

Lemma dict_get_some {V} (d : list (nat * V)) (k : nat) (v : V) :
  dict_get d k = Some v -> In (k, v) d.
Proof.
  induction d as [|[k0 v0] d IH]; cbn [dict_get]; [discriminate|].
  destruct (Nat.eqb k k0) eqn:E.
  - apply Nat.eqb_eq in E. subst k0. intros H. inversion H. now left.
  - intros H. right. now apply IH.
Qed.

(** An item of the dict of balances is the balance the record lists for its
    position. *)
Lemma by_account_index_item (balances : list TokenBalance) (idx : nat) (b : TokenBalance) :
  In (idx, b) (by_account_index balances) ->
  balance_at balances idx = Some b /\ accountIndex b = idx.
Proof.
  intros Hin. destruct (by_account_index_dict balances idx) as [Hget Hnd].
  rewrite (dict_get_in _ _ _ Hnd Hin) in Hget. split; [now symmetry|].
  symmetry in Hget. unfold balance_at in Hget. apply find_some in Hget.
  destruct Hget as [_ E]. apply Nat.eqb_eq in E. now symmetry.
Qed.

Lemma amount_at_balance (balances : list TokenBalance) (idx : nat) :
  amount_at balances idx = balance_amount (balance_at balances idx).
Proof.
  unfold amount_at, balance_amount, default_to.
  destruct (balance_at balances idx) as [[i m [a|]]|]; reflexivity.
Qed.

Section FirstCredit.

Variable self : TransactionMonitor.
Variable st : MonitorState.

Lemma is_credit_credited (transaction : RawTransaction) (idx : nat) (b : TokenBalance) :
  In (idx, b) (by_account_index (postTokenBalances transaction)) ->
  is_credit self st (by_account_index (preTokenBalances transaction))
    (accountKeys transaction) (idx, b)
  = credited self st transaction idx
  /\ credit_of (by_account_index (preTokenBalances transaction))
       (accountKeys transaction) (idx, b)
     = (nth idx (accountKeys transaction) "",
        amount_at (postTokenBalances transaction) idx
        - amount_at (preTokenBalances transaction) idx).
Proof.
  intros Hin. apply by_account_index_item in Hin. destruct Hin as [Hpost Hidx].
  unfold is_credit, credited, credit_of.
  rewrite !amount_at_balance, Hpost, Hidx.
  rewrite (proj1 (by_account_index_dict (preTokenBalances transaction) idx)).
  split; reflexivity.
Qed.

Lemma find_credit_positions (transaction : RawTransaction)
  (items : list (nat * TokenBalance)) :
  (forall item, In item items ->
                In item (by_account_index (postTokenBalances transaction))) ->
  find_credit self st (by_account_index (preTokenBalances transaction))
    (accountKeys transaction) items
  = option_map (fun idx => (nth idx (accountKeys transaction) "",
                            amount_at (postTokenBalances transaction) idx
                            - amount_at (preTokenBalances transaction) idx))
      (find (credited self st transaction) (map fst items)).
Proof.
  rewrite find_credit_first.
  induction items as [|[idx b] items IH]; intros Hitems; [reflexivity|].
  cbn [find map fst].
  destruct (is_credit_credited transaction idx b (Hitems _ (or_introl eq_refl)))
    as [Hc Hv].
  rewrite Hc. destruct (credited self st transaction idx).
  - cbn [option_map]. rewrite Hv. reflexivity.
  - apply IH. intros item Hin. apply Hitems. now right.
Qed.

(** C4, as amended: a successful record with a transfer instruction of the
    token program, a transaction id, and a position that is credited with
    the tracked mint on a monitored token account is classified as a
    transfer event.  The event is that of the first credited position, in
    the order in which the post-balances name the positions: its amount is
    the post-balance minus the pre-balance that the record lists for this
    position, and its destination is the account key at this position.  It
    is the event of the given position when no other position is
    credited. *)
Theorem classify_first_credit (env : Env) (h : list Call) (transaction : RawTransaction)
  (idx : nat) :
  err transaction = None ->
  existsb is_transfer_instruction (raw_instructions transaction) = true ->
  signatures transaction <> Some [] ->
  credited self st transaction idx = true ->
  exists details first,
    fst (run env (classify self st transaction) h) = Some details
    /\ find (credited self st transaction) (positions (postTokenBalances transaction))
       = Some first
    /\ amount details
       = amount_at (postTokenBalances transaction) first
         - amount_at (preTokenBalances transaction) first
    /\ destination details = nth first (accountKeys transaction) ""
    /\ first_signature transaction = Ok (transaction_id details)
    /\ timestamp details = blockTime transaction
    /\ credited self st transaction first = true
    /\ ((forall j, credited self st transaction j = true -> j = idx) -> first = idx).
Proof.
  intros Herr Hinstr Hsig Hcredit.
  assert (Hpost : exists b, balance_at (postTokenBalances transaction) idx = Some b
                            /\ opt_eqb (mint b) (nexacoin_mint self) = true).
  { unfold credited in Hcredit.
    destruct (balance_at (postTokenBalances transaction) idx) as [b|];
      [|discriminate].
    exists b. split; [reflexivity|].
    destruct (opt_eqb (mint b) (nexacoin_mint self)); [reflexivity|discriminate]. }
  destruct Hpost as (b & Hb & Hmint).
  assert (Hin : In idx (positions (postTokenBalances transaction))).
  { rewrite <- by_account_index_positions. apply in_map_iff. exists (idx, b).
    split; [reflexivity|]. apply dict_get_some.
    rewrite (proj1 (by_account_index_dict _ idx)). exact Hb. }
  destruct (find (credited self st transaction)
              (positions (postTokenBalances transaction))) as [first|] eqn:Hfind.
  2:{ pose proof (find_none _ _ Hfind idx Hin) as Hno. congruence. }
  assert (Hseen : existsb (fun balance => opt_eqb (mint balance) (nexacoin_mint self))
                    (postTokenBalances transaction ++ preTokenBalances transaction) = true).
  { apply existsb_exists. exists b. split; [|exact Hmint].
    apply in_or_app. left. unfold balance_at in Hb. apply find_some in Hb.
    apply in_rev. exact (proj1 Hb). }
  assert (Htransfer : _is_nexacoin_transfer self transaction = true).
  { unfold _is_nexacoin_transfer. rewrite Herr, Hseen, scan_instructions_exists.
    exact Hinstr. }
  unfold classify. rewrite Htransfer. unfold _extract_transfer_details.
  rewrite (find_credit_positions transaction) by (intros item Hitem; exact Hitem).
  rewrite by_account_index_positions, Hfind. cbn [option_map].
  cbn [bind trigger run].
  destruct (signatures transaction) as [[|s sigs]|] eqn:Es; [congruence| |];
    unfold first_signature; rewrite Es; cbn [run fst];
    eexists _, first; (split; [reflexivity|]);
    cbn [amount destination transaction_id timestamp];
    repeat (split; [reflexivity|]);
    (split; [apply (find_some _ _ Hfind)|]);
    intros Honly; apply Honly; apply (find_some _ _ Hfind).
Qed.

End FirstCredit.

Lemma classify_first_credit_witness :
  exists details,
    fst (run (ledger [] [] no_pages no_records)
           (classify example_monitor (example_state None) (example_record "tx1" 2000)) [])
    = Some details
    /\ amount details = 2500 - 500
    /\ destination details = "Wallet-token"
    /\ transaction_id details = "tx1".
Proof.
  destruct (classify_first_credit example_monitor (example_state None)
              (ledger [] [] no_pages no_records) [] (example_record "tx1" 2000) 1%nat)
    as (details & first & Hrun & Hfind & Hamount & Hdest & Hsig & _);
    [reflexivity|reflexivity|discriminate|reflexivity|].
  vm_compute in Hfind. inversion Hfind. subst first.
  exists details. split; [exact Hrun|].
  split; [rewrite Hamount; reflexivity|].
  split; [rewrite Hdest; reflexivity|].
  cbn in Hsig. injection Hsig as Hid. symmetry. exact Hid.
Defined.

(** C4 as stated fails.  In the record with two credits, position 2 is
    credited with 300 units of the tracked mint on the monitored account
    [Wallet-token-2]; the event is that of position 1, 2000 units to
    [Wallet-token], and the credit of position 2 is not reported.  And a
    record that credits a monitored account and carries an empty list of
    signatures gives no event. *)
Lemma later_credit_not_reported :
  (let transaction := two_credit_record in
   err transaction = None
   /\ existsb is_transfer_instruction (raw_instructions transaction) = true
   /\ In {| accountIndex := 2; mint := Some "NexaMint"; uiAmount := Some 340 |}
         (postTokenBalances transaction)
   /\ In {| accountIndex := 2; mint := Some "NexaMint"; uiAmount := Some 40 |}
         (preTokenBalances transaction)
   /\ nexacoin_mint example_monitor = "NexaMint"
   /\ 340 > 40
   /\ nth 2 (accountKeys transaction) "" = "Wallet-token-2"
   /\ In "Wallet-token-2" (token_accounts two_token_accounts)
   /\ credited example_monitor two_token_accounts transaction 2 = true
   /\ outcome (ledger [] [] no_pages no_records)
        (classify example_monitor two_token_accounts transaction)
      = Some {| transaction_id := "tx2"; destination := "Wallet-token";
                amount := 2000; timestamp := 1700000000 |}
   /\ 2000 <> 340 - 40
   /\ "Wallet-token" <> "Wallet-token-2")
  /\ (let transaction := unsigned_record in
      err transaction = None
      /\ existsb is_transfer_instruction (raw_instructions transaction) = true
      /\ credited example_monitor (example_state None) transaction 1 = true
      /\ outcome (ledger [] [] no_pages no_records)
           (classify example_monitor (example_state None) transaction)
         = None).
Proof.
  split; cbv zeta.
  - split; [reflexivity|]. split; [reflexivity|].
    split; [right; right; left; reflexivity|].
    split; [right; right; left; reflexivity|].
    split; [reflexivity|]. split; [lia|]. split; [reflexivity|].
    split; [right; left; reflexivity|]. split; [reflexivity|].
    split; [vm_compute; reflexivity|]. split; [lia|discriminate].
  - split; [reflexivity|]. split; [reflexivity|]. split; [reflexivity|].
    vm_compute. reflexivity.
Qed.


(* ================================================================= *)
(** ** What is classified as a transfer *)

Lemma opt_eqb_eq (x : option string) (s : string) :
  opt_eqb x s = true <-> x = Some s.
Proof.
  destruct x as [y|]; cbn [opt_eqb].
  - rewrite String.eqb_eq. split; [intros ->; reflexivity|intros H; now inversion H].
  - split; discriminate.
Qed.

(** X17 ([_is_nexacoin_transfer]).  The two nested loops answer [True]
    exactly for a record that did not fail, has an instruction of the token
    program whose data starts with "3", and lists a balance of the
    tracked mint before or after; which instruction and which balance does
    not matter, nor whether they belong together. *)
Theorem is_nexacoin_transfer_iff (self : TransactionMonitor) (transaction : RawTransaction) :
  _is_nexacoin_transfer self transaction = true
  <-> err transaction = None
      /\ (exists i, In i (raw_instructions transaction)
                    /\ programId i = Some TOKEN_PROGRAM_ID
                    /\ String.prefix "3" (default_to "" (idata i)) = true)
      /\ (exists balance,
            In balance (postTokenBalances transaction ++ preTokenBalances transaction)
            /\ mint balance = Some (nexacoin_mint self)).
Proof.
  unfold _is_nexacoin_transfer.
  destruct (err transaction) as [e|].
  - split; [discriminate|]. intros [H _]. discriminate.
  - destruct (existsb (fun balance => opt_eqb (mint balance) (nexacoin_mint self))
                (postTokenBalances transaction ++ preTokenBalances transaction))
      eqn:Emint.
    + rewrite scan_instructions_exists, existsb_exists.
      apply existsb_exists in Emint. destruct Emint as (balance & Hin & Hm).
      apply opt_eqb_eq in Hm.
      split.
      * intros (i & Hi & Ht). unfold is_transfer_instruction in Ht.
        apply andb_prop in Ht. destruct Ht as [Hp Hd]. apply opt_eqb_eq in Hp.
        split; [reflexivity|]. split; [exists i|exists balance]; repeat split; assumption.
      * intros (_ & (i & Hi & Hp & Hd) & _). exists i. split; [exact Hi|].
        unfold is_transfer_instruction. rewrite Hd.
        apply opt_eqb_eq in Hp. rewrite Hp. reflexivity.
    + split.
      * intros H. exfalso. revert H.
        induction (raw_instructions transaction) as [|i rest IH]; cbn [scan_instructions];
          [discriminate|].
        destruct (is_transfer_instruction i); exact IH.
      * intros (_ & _ & (balance & Hin & Hm)). exfalso.
        assert (Hex : existsb (fun balance => opt_eqb (mint balance) (nexacoin_mint self))
                        (postTokenBalances transaction ++ preTokenBalances transaction)
                      = true).
        { apply existsb_exists. exists balance. split; [exact Hin|].
          apply opt_eqb_eq. exact Hm. }
        congruence.
Qed.

Lemma is_nexacoin_transfer_err (self : TransactionMonitor) (transaction : RawTransaction) :
  _is_nexacoin_transfer self transaction = true -> err transaction = None.
Proof.
  unfold _is_nexacoin_transfer. destruct (err transaction); [discriminate|reflexivity].
Qed.

Section ClassifySound.

Variable env : Env.
Variable self : TransactionMonitor.
Variable st : MonitorState.

Lemma classify_emits (transaction : RawTransaction) :
  emits_only is_log (classify self st transaction).
Proof.
  unfold classify, _extract_transfer_details.
  destruct (_is_nexacoin_transfer self transaction); [|exact I].
  destruct (find_credit self st _ _ _) as [[transfer_to transfer_amount]|]; [|exact I].
  emits. destruct (first_signature transaction); emits.
Qed.

(** X18 ([_extract_transfer_details], [_is_nexacoin_transfer]).  Every
    event that the classification reports comes from a record that did not
    fail; its amount is positive and is the increase of the balance of the
    tracked mint at one position of the record; its destination is the
    account key at this position and is one of the monitored token
    accounts; its id is the first signature of the record (the empty string
    when the record has no list of signatures) and its timestamp the block
    time.  Classifying only writes log lines. *)
Theorem classify_sound (transaction : RawTransaction) (h : list Call)
  (details : TransferDetails) :
  fst (run env (classify self st transaction) h) = Some details ->
  let pre_balances := by_account_index (preTokenBalances transaction) in
  err transaction = None
  /\ 0 < amount details
  /\ in_list (destination details) (token_accounts st) = true
  /\ (exists balance,
        In balance (postTokenBalances transaction)
        /\ mint balance = Some (nexacoin_mint self)
        /\ amount details
           = balance_amount (Some balance)
             - balance_amount (dict_get pre_balances (accountIndex balance))
        /\ (accountIndex balance < List.length (accountKeys transaction))%nat
        /\ destination details
           = nth (accountIndex balance) (accountKeys transaction) "")
  /\ first_signature transaction = Ok (transaction_id details)
  /\ timestamp details = blockTime transaction
  /\ calls_of is_log (calls_during env (classify self st transaction) h).
Proof.
  intros Hrun pre_balances.
  assert (Hlogs : calls_of is_log (calls_during env (classify self st transaction) h))
    by (apply emits_only_calls, classify_emits).
  unfold classify in Hrun.
  destruct (_is_nexacoin_transfer self transaction) eqn:Et; [|discriminate].
  apply is_nexacoin_transfer_err in Et.
  unfold _extract_transfer_details in Hrun. fold pre_balances in Hrun.
  rewrite find_credit_first in Hrun.
  destruct (find (is_credit self st pre_balances (accountKeys transaction))
              (by_account_index (postTokenBalances transaction)))
    as [[idx balance]|] eqn:Efind; cbn [option_map credit_of] in Hrun; [|discriminate].
  apply find_some in Efind. destruct Efind as [Hin Hcredit].
  apply by_account_index_in in Hin. destruct Hin as [Hin Hidx]. subst idx.
  cbn [is_credit] in Hcredit.
  apply andb_prop in Hcredit. destruct Hcredit as [Hcredit Hmon].
  apply andb_prop in Hcredit. destruct Hcredit as [Hcredit Hkeys].
  apply andb_prop in Hcredit. destruct Hcredit as [Hmint Hgt].
  apply opt_eqb_eq in Hmint. apply Nat.ltb_lt in Hkeys.
  rewrite Z.gtb_ltb in Hgt. apply Z.ltb_lt in Hgt.
  unfold trigger in Hrun. cbn [bind run fst] in Hrun.
  destruct (first_signature transaction) as [sig|e] eqn:Es; cbn [bind run fst] in Hrun;
    [|discriminate].
  injection Hrun as Hd. subst details.
  cbn [amount destination transaction_id timestamp].
  split; [exact Et|].
  split; [cbn [balance_amount] in Hgt |- *; lia|]. split; [exact Hmon|].
  split; [|repeat split; exact Hlogs].
  exists balance. repeat split; try assumption; reflexivity.
Qed.

(** X19 ([_extract_transfer_details]).  A record whose list of signatures
    is empty is never reported, not even when it credits a monitored token
    account: taking its first signature raises, and the error is logged
    instead. *)
Theorem record_without_signature_not_reported (transaction : RawTransaction)
  (h : list Call) :
  signatures transaction = Some [] ->
  fst (run env (classify self st transaction) h) = None.
Proof.
  intros Hs. unfold classify, _extract_transfer_details, first_signature, trigger.
  rewrite Hs.
  destruct (_is_nexacoin_transfer self transaction); [|reflexivity].
  destruct (find_credit self st _ _ _) as [[transfer_to transfer_amount]|];
    reflexivity.
Qed.

End ClassifySound.

(* ================================================================= *)
(** ** Scans, whatever the ledger answers *)

Lemma filter_map_rev {A B} (f : A -> option B) (l : list A) :
  filter_map f (rev l) = rev (filter_map f l).
Proof.
  induction l as [|a l IH]; [reflexivity|].
  cbn [rev filter_map]. rewrite filter_map_app, IH. cbn [filter_map].
  destruct (f a); cbn [rev]; [reflexivity|]. rewrite app_nil_r. reflexivity.
Qed.

Lemma processor_not_page (X : Type) (e : Event X) :
  processor_event X e = true -> not_page_request X e = true.
Proof. destruct e; cbn; congruence. Qed.

Lemma processor_not_record (X : Type) (e : Event X) :
  processor_event X e = true -> not_record_request X e = true.
Proof. destruct e; cbn; congruence. Qed.

Lemma log_not_page (X : Type) (e : Event X) :
  is_log X e = true -> not_page_request X e = true.
Proof. destruct e; cbn; congruence. Qed.

Lemma log_not_record (X : Type) (e : Event X) :
  is_log X e = true -> not_record_request X e = true.
Proof. destruct e; cbn; congruence. Qed.

Lemma not_record_fetched (c : Call) :
  not_record_request _ (call_event c) = true -> fetched_signature c = None.
Proof. destruct c as [X e x]. destruct e; cbn; congruence. Qed.

Lemma not_page_requested (c : Call) :
  not_page_request _ (call_event c) = true -> page_request c = None.
Proof. destruct c as [X e x]. destruct e; cbn; congruence. Qed.

Section ScanRuns.

Variable valid_address : AddressCheck.
Variable env : Env.
Variable self : TransactionMonitor.

Lemma scan_signatures_emits (signatures todo : list SigInfo) : forall st,
  emits_only not_page_request (scan_signatures valid_address self signatures todo st).
Proof.
  induction todo as [|sig_info rest IH]; intros st; cbn [scan_signatures]; [exact I|].
  destruct (opt_eqb (last_signature st) (signature sig_info)); [apply IH|].
  destruct signatures as [|newest older]; [exact I|].
  apply emits_only_bind; [emits|].
  intros [[transaction|]|e]; [|apply IH|exact I].
  apply emits_only_bind;
    [apply (emits_only_weaken is_log); [apply log_not_page|apply classify_emits]|].
  intros [details|]; [|apply IH].
  apply emits_only_bind; [|intros _; apply IH].
  apply (emits_only_weaken processor_event);
    [apply processor_not_page|apply process_transfer_emits].
Qed.

(** What a scan leaves of the state. *)
Lemma scan_signatures_state (newest : SigInfo) (older todo : list SigInfo) :
  forall st h,
  token_accounts
    (snd (fst (run env (scan_signatures valid_address self (newest :: older) todo st) h)))
  = token_accounts st
  /\ (last_signature
        (snd (fst (run env (scan_signatures valid_address self (newest :: older) todo st)
                     h)))
      = last_signature st
      \/ last_signature
           (snd (fst (run env (scan_signatures valid_address self (newest :: older) todo
                                 st) h)))
         = Some (signature newest)).
Proof.
  induction todo as [|sig_info rest IH]; intros st h; cbn [scan_signatures].
  - split; [reflexivity|left; reflexivity].
  - destruct (opt_eqb (last_signature st) (signature sig_info)); [apply IH|].
    unfold trigger. cbn [bind run].
    assert (Hnext : forall h',
              token_accounts
                (snd (fst (run env (scan_signatures valid_address self (newest :: older)
                                      rest (set_last_signature st (signature newest)))
                             h')))
              = token_accounts st
              /\ (last_signature
                    (snd (fst (run env (scan_signatures valid_address self
                                          (newest :: older) rest
                                          (set_last_signature st (signature newest)))
                                 h')))
                  = last_signature st
                  \/ last_signature
                       (snd (fst (run env (scan_signatures valid_address self
                                             (newest :: older) rest
                                             (set_last_signature st (signature newest)))
                                    h')))
                     = Some (signature newest))).
    { intros h'.
      destruct (IH (set_last_signature st (signature newest)) h') as [Ht Hc].
      split; [exact Ht|]. right. destruct Hc as [Hc|Hc]; exact Hc. }
    destruct (env h _ (get_transaction (signature sig_info))) as [[transaction|]|e];
      cbn [bind run fst snd].
    + rewrite run_bind.
      destruct (fst (run env (classify self (set_last_signature st (signature newest))
                                transaction) _)) as [details|].
      * rewrite run_bind. apply Hnext.
      * apply Hnext.
    + apply Hnext.
    + split; [reflexivity|right; reflexivity].
Qed.

(** X20 ([_check_account_transactions]).  Whatever the ledger answers, a
    scan leaves the list of monitored token accounts as it is, and the
    cursor either as it is or at the newest id of the page it fetched. *)
Theorem scan_moves_cursor_to_newest (account : string) (st : MonitorState)
  (h : list Call) :
  token_accounts
    (fst (run env (_check_account_transactions valid_address self account st) h))
  = token_accounts st
  /\ (last_signature
        (fst (run env (_check_account_transactions valid_address self account st) h))
      = last_signature st
      \/ exists newest older,
           env h _ (get_signatures_for_address account (last_signature st) 20)
           = Ok (newest :: older)
           /\ last_signature
                (fst (run env (_check_account_transactions valid_address self account st)
                        h))
              = Some (signature newest)).
Proof.
  unfold _check_account_transactions, trigger. cbn [bind run].
  destruct (env h _ (get_signatures_for_address account (last_signature st) 20))
    as [[|newest older]|e] eqn:Epage; cbn [bind run fst].
  - split; [reflexivity|left; reflexivity].
  - destruct (truthy_opt (last_signature st)); cbn [negb bind run fst].
    + rewrite run_bind.
      destruct (scan_signatures_state newest older (rev (newest :: older)) st
                  (call (get_signatures_for_address account (last_signature st) 20)
                        (Ok (newest :: older)) :: h)) as [Ht Hc].
      destruct (run env (scan_signatures valid_address self (newest :: older)
                           (rev (newest :: older)) st) _) as [[[u|e] st'] h'];
        cbn [fst snd run] in *.
      * split; [exact Ht|].
        destruct Hc as [Hc|Hc]; [left; exact Hc|right].
        exists newest, older. split; [reflexivity|exact Hc].
      * split; [exact Ht|].
        destruct Hc as [Hc|Hc]; [left; exact Hc|right].
        exists newest, older. split; [reflexivity|exact Hc].
    + split; [reflexivity|right].
      exists newest, older. split; reflexivity.
  - split; [reflexivity|left; reflexivity].
Qed.

Lemma check_account_state (account : string) (st : MonitorState) (h : list Call) :
  token_accounts
    (fst (run env (_check_account_transactions valid_address self account st) h))
  = token_accounts st.
Proof.
  unfold _check_account_transactions, trigger. cbn [bind run].
  destruct (env h _ (get_signatures_for_address account (last_signature st) 20))
    as [[|newest older]|e] eqn:Epage; cbn [bind run fst]; try reflexivity.
  destruct (truthy_opt (last_signature st)); cbn [negb bind run fst]; [|reflexivity].
  rewrite run_bind.
  destruct (scan_signatures_state newest older (rev (newest :: older)) st
              (call (get_signatures_for_address account (last_signature st) 20)
                    (Ok (newest :: older)) :: h)) as [Ht Hc].
  destruct (run env (scan_signatures valid_address self (newest :: older)
                       (rev (newest :: older)) st) _) as [[[u|e] st'] h'];
    cbn [fst snd run] in *; exact Ht.
Qed.

(** A scan asks for one page, first, and for no other. *)
Lemma check_account_pages (account : string) (st : MonitorState) (h : list Call) :
  filter_map page_request
    (calls_during env (_check_account_transactions valid_address self account st) h)
  = [(account, last_signature st)].
Proof.
  assert (Hshape : forall x,
            emits_only not_page_request
              (r <- match x with
                    | Raise e => Ret (Raise e, st)
                    | Ok [] => Ret (Ok tt, st)
                    | Ok ((newest :: _) as signatures) =>
                        if negb (truthy_opt (last_signature st))
                        then
                          trigger (log INFO ("Initial signature set to "
                                             +++ signature newest)) ;;
                          Ret (Ok tt, set_last_signature st (signature newest))
                        else scan_signatures valid_address self signatures
                               (rev signatures) st
                    end ;;
               match r with
               | (Ok _, st) => Ret st
               | (Raise e, st) =>
                   trigger (log ERROR ("Error checking transactions for " +++ account
                                       +++ ": " +++ str_of_exn e)) ;;
                   Ret st
               end)).
  { intros x. apply emits_only_bind.
    - destruct x as [[|newest older]|e]; try exact I.
      destruct (negb (truthy_opt (last_signature st))); [emits|].
      apply scan_signatures_emits.
    - intros [[u|e] st']; emits. }
  unfold _check_account_transactions, trigger. cbn [bind calls_during].
  rewrite filter_map_app. cbn [filter_map page_request call_event].
  rewrite (calls_of_filter_map not_page_request page_request _ not_page_requested
             (emits_only_calls not_page_request env _ _ (Hshape _))).
  reflexivity.
Qed.

Lemma check_token_accounts_runs (accounts : list string) : forall st h,
  token_accounts (fst (run env (check_token_accounts valid_address self accounts st) h))
  = token_accounts st
  /\ map fst (filter_map page_request
                (rev (calls_during env
                        (check_token_accounts valid_address self accounts st) h)))
     = accounts.
Proof.
  induction accounts as [|account rest IH]; intros st h; cbn [check_token_accounts].
  - split; reflexivity.
  - rewrite fst_run_bind, calls_bind.
    destruct (IH (fst (run env (_check_account_transactions valid_address self account st)
                         h))
                (calls_during env (_check_account_transactions valid_address self
                                     account st) h ++ h)) as [Ht Hp].
    split.
    + rewrite Ht. apply check_account_state.
    + rewrite rev_app_distr, filter_map_app, map_app, Hp.
      rewrite filter_map_rev, check_account_pages. reflexivity.
Qed.

Lemma get_monitored_token_accounts_emits :
  emits_only lookup_event (_get_monitored_token_accounts self).
Proof. unfold _get_monitored_token_accounts. emits. Qed.

Lemma lookup_not_page (X : Type) (e : Event X) :
  lookup_event X e = true -> not_page_request X e = true.
Proof. destruct e; cbn; congruence. Qed.

(** X21 ([check_for_new_transactions]).  Whatever the ledger answers, a
    tick asks for one page of signatures per account: first for the
    monitored wallet, then for each monitored token account in the order of
    the list as it was at the start of the tick. *)
Theorem tick_scans_wallet_then_token_accounts (st : MonitorState) (h : list Call) :
  map fst (filter_map page_request
             (rev (calls_during env (check_for_new_transactions valid_address self st) h)))
  = monitored_account self :: token_accounts st.
Proof.
  unfold check_for_new_transactions.
  rewrite calls_bind, rev_app_distr, filter_map_app, map_app.
  rewrite filter_map_rev, check_account_pages. cbn [rev app map fst].
  f_equal.
  set (st1 := fst (run env (_check_account_transactions valid_address self
                              (monitored_account self) st) h)).
  set (h1 := calls_during env (_check_account_transactions valid_address self
                                 (monitored_account self) st) h ++ h).
  rewrite calls_bind, rev_app_distr, filter_map_app, map_app.
  destruct (check_token_accounts_runs (token_accounts st1) st1 h1) as [Ht Hp].
  rewrite Hp.
  replace (token_accounts st1) with (token_accounts st)
    by (symmetry; apply check_account_state).
  rewrite <- app_nil_r. f_equal.
  set (st2 := fst (run env (check_token_accounts valid_address self (token_accounts st)
                              st1) h1)).
  match goal with
  | |- map fst (filter_map page_request (rev (calls_during env ?p ?h'))) = [] =>
      assert (Hemit : emits_only not_page_request p)
  end.
  { apply emits_only_bind; [emits|]. intros due.
    destruct due; [|exact I].
    apply emits_only_bind;
      [apply (emits_only_weaken lookup_event);
       [apply lookup_not_page|apply get_monitored_token_accounts_emits]|].
    intros new_accounts.
    destruct (set_neqb new_accounts (token_accounts st2)); emits. }
  rewrite filter_map_rev.
  rewrite (calls_of_filter_map not_page_request page_request _ not_page_requested
             (emits_only_calls not_page_request env _ _ Hemit)).
  reflexivity.
Qed.

End ScanRuns.

Lemma drop_while_map {A B} (f : B -> bool) (g : A -> B) (l : list A) :
  drop_while f (map g l) = map g (drop_while (fun a => f (g a)) l).
Proof.
  induction l as [|a l IH]; [reflexivity|].
  cbn [map drop_while]. destruct (f (g a)); [exact IH|reflexivity].
Qed.

Lemma drop_while_filter (n : string) (l : list string) :
  match drop_while (String.eqb n) l with
  | [] => []
  | first :: later => first :: filter (fun s => negb (String.eqb n s)) later
  end
  = filter (fun s => negb (String.eqb n s)) l.
Proof.
  induction l as [|a l IH]; [reflexivity|].
  cbn [drop_while filter]. destruct (String.eqb n a); [exact IH|reflexivity].
Qed.

Section FetchOrder.

Variable valid_address : AddressCheck.
Variable env : Env.
Variable self : TransactionMonitor.

Lemma fetched_bind {A B} (p : Prog A) (f : A -> Prog B) (h : list Call) :
  fetched_during env (bind p f) h
  = fetched_during env p h
    ++ fetched_during env (f (fst (run env p h))) (calls_during env p h ++ h).
Proof.
  unfold fetched_during. rewrite calls_bind, rev_app_distr, filter_map_app. reflexivity.
Qed.

Lemma fetched_none {R} (P : EventClass) (p : Prog R) (h : list Call) :
  (forall X (e : Event X), P X e = true -> not_record_request X e = true) ->
  emits_only P p -> fetched_during env p h = [].
Proof.
  intros HP Hp. unfold fetched_during. rewrite filter_map_rev.
  rewrite (calls_of_filter_map not_record_request fetched_signature _ not_record_fetched);
    [reflexivity|].
  apply (calls_of_weaken P); [exact HP|]. apply emits_only_calls. exact Hp.
Qed.

Lemma scan_signatures_fetches (newest : SigInfo) (older todo : list SigInfo) :
  records_available env ->
  forall st h,
  fetched_during env (scan_signatures valid_address self (newest :: older) todo st) h
  = match drop_while (opt_eqb (last_signature st)) (map signature todo) with
    | [] => []
    | first :: later =>
        first :: filter (fun s => negb (String.eqb (signature newest) s)) later
    end
  /\ last_signature
       (snd (fst (run env (scan_signatures valid_address self (newest :: older) todo st)
                    h)))
     = match drop_while (opt_eqb (last_signature st)) (map signature todo) with
       | [] => last_signature st
       | _ :: _ => Some (signature newest)
       end
  /\ fst (fst (run env (scan_signatures valid_address self (newest :: older) todo st) h))
     = Ok tt.
Proof.
  intros Havail.
  induction todo as [|sig_info rest IH]; intros st h;
    cbn [scan_signatures map drop_while].
  - repeat split.
  - destruct (opt_eqb (last_signature st) (signature sig_info)); [apply IH|].
    assert (Hnext : forall h',
              fetched_during env (scan_signatures valid_address self (newest :: older) rest
                                (set_last_signature st (signature newest))) h'
              = filter (fun s => negb (String.eqb (signature newest) s))
                       (map signature rest)
              /\ last_signature
                   (snd (fst (run env (scan_signatures valid_address self
                                         (newest :: older) rest
                                         (set_last_signature st (signature newest)))
                                h')))
                 = Some (signature newest)
              /\ fst (fst (run env (scan_signatures valid_address self
                                      (newest :: older) rest
                                      (set_last_signature st (signature newest))) h'))
                 = Ok tt).
    { intros h'.
      destruct (IH (set_last_signature st (signature newest)) h') as (Hf & Hc & Hr).
      cbn [set_last_signature last_signature] in Hf, Hc.
      change (opt_eqb (Some (signature newest))) with (String.eqb (signature newest))
        in Hf, Hc.
      split; [rewrite Hf; apply drop_while_filter|].
      split; [|exact Hr].
      rewrite Hc.
      destruct (drop_while (String.eqb (signature newest)) (map signature rest));
        reflexivity. }
    unfold trigger, fetched_during. cbn [bind run calls_during].
    rewrite rev_app_distr. cbn [rev app filter_map fetched_signature call_event].
    fold (fetched_during env
            (match env h _ (get_transaction (signature sig_info)) with
             | Ok (Some transaction) =>
                 transfer_details <- classify self
                                       (set_last_signature st (signature newest))
                                       transaction ;;
                 match transfer_details with
                 | Some details =>
                     process_transfer valid_address (transfer_processor self) details ;;
                     scan_signatures valid_address self (newest :: older) rest
                       (set_last_signature st (signature newest))
                 | None =>
                     scan_signatures valid_address self (newest :: older) rest
                       (set_last_signature st (signature newest))
                 end
             | Ok None =>
                 scan_signatures valid_address self (newest :: older) rest
                   (set_last_signature st (signature newest))
             | Raise e => Ret (Raise e, set_last_signature st (signature newest))
             end)
            (call (get_transaction (signature sig_info))
                  (env h _ (get_transaction (signature sig_info))) :: h)).
    destruct (Havail h (signature sig_info)) as [r Hr]. rewrite Hr.
    destruct r as [transaction|].
    + rewrite fetched_bind, run_bind.
      rewrite (fetched_none is_log _ _ log_not_record
                 (classify_emits self _ transaction)).
      cbn [app].
      destruct (fst (run env (classify self (set_last_signature st (signature newest))
                                transaction) _)) as [details|].
      * rewrite fetched_bind, run_bind.
        rewrite (fetched_none processor_event _ _ processor_not_record
                   (process_transfer_emits valid_address (transfer_processor self)
                      details)).
        cbn [app].
        split; [rewrite (proj1 (Hnext _)); reflexivity|].
        split; [apply (proj1 (proj2 (Hnext _)))|apply (proj2 (proj2 (Hnext _)))].
      * split; [rewrite (proj1 (Hnext _)); reflexivity|].
        split; [apply (proj1 (proj2 (Hnext _)))|apply (proj2 (proj2 (Hnext _)))].
    + split; [rewrite (proj1 (Hnext _)); reflexivity|].
      split; [apply (proj1 (proj2 (Hnext _)))|apply (proj2 (proj2 (Hnext _)))].
Qed.

End FetchOrder.

Section ScanOrder.

Variable valid_address : AddressCheck.
Variable env : Env.
Variable self : TransactionMonitor.

(** X22 ([_check_account_transactions]).  With a cursor set and every
    record request answered, the records of the fetched page are asked for
    oldest first.  Those that come, in this order, before the first record
    that differs from the cursor are passed over; this record is asked for,
    and from then on a record is passed over when it is the newest of the
    page.  The cursor ends at the newest id of the page as soon as one
    record was asked for, and is left alone otherwise. *)
Theorem scan_fetches_oldest_first (account cursor : string) (st : MonitorState)
  (page : list SigInfo) (h : list Call) :
  records_available env ->
  last_signature st = Some cursor ->
  truthy cursor = true ->
  env h _ (get_signatures_for_address account (Some cursor) 20) = Ok page ->
  fetched_during env (_check_account_transactions valid_address self account st) h
  = fetched_of_page (Some cursor) page
  /\ last_signature
       (fst (run env (_check_account_transactions valid_address self account st) h))
     = match fetched_of_page (Some cursor) page, page with
       | _ :: _, newest :: _ => Some (signature newest)
       | _, _ => Some cursor
       end.
Proof.
  intros Havail Hcursor Htruthy Hpage.
  unfold _check_account_transactions, trigger, fetched_during.
  cbn [bind run calls_during]. rewrite Hcursor, Hpage.
  destruct page as [|newest older].
  - cbn [bind run calls_during fst]. split; [reflexivity|exact Hcursor].
  - cbn [truthy_opt]. rewrite Htruthy. cbn [negb].
    rewrite rev_app_distr. cbn [rev app filter_map fetched_signature call_event].
    change (rev older ++ [newest]) with (rev (newest :: older)).
    match goal with
    | |- filter_map fetched_signature (rev (calls_during env ?p ?h')) = _ /\ _ =>
        change (filter_map fetched_signature (rev (calls_during env p h')))
          with (fetched_during env p h')
    end.
    rewrite fetched_bind, run_bind.
    destruct (scan_signatures_fetches valid_address env self newest older
                (rev (newest :: older)) Havail st
                (call (get_signatures_for_address account (Some cursor) 20)
                      (Ok (newest :: older)) :: h)) as (Hf & Hc & Hok).
    rewrite Hcursor in Hf, Hc.
    unfold fetched_of_page. rewrite Hf.
    destruct (run env (scan_signatures valid_address self (newest :: older)
                         (rev (newest :: older)) st) _) as [[r st'] h'] eqn:Erun.
    cbn [fst snd] in Hc, Hok. subst r. cbn [fst snd run].
    split.
    + unfold fetched_during. cbn [calls_during rev filter_map]. apply app_nil_r.
    + rewrite Hc.
      destruct (drop_while (opt_eqb (Some cursor)) (map signature (rev (newest :: older))));
        reflexivity.
Qed.

Lemma scan_skips_cursor (signatures todo : list SigInfo) (st : MonitorState) :
  scan_signatures valid_address self signatures todo st
  = scan_signatures valid_address self signatures
      (drop_while (fun r => opt_eqb (last_signature st) (signature r)) todo) st.
Proof.
  induction todo as [|sig_info rest IH]; [reflexivity|].
  cbn [drop_while].
  destruct (opt_eqb (last_signature st) (signature sig_info)) eqn:E; [|reflexivity].
  cbn [scan_signatures]. rewrite E. exact IH.
Qed.

(** X23 ([_check_account_transactions]).  When the request for the first
    record that the scan asks for fails, the scan ends there: the error is
    logged, no other record of the page is asked for, and the cursor is
    already at the newest id of the page. *)
Theorem failed_record_request_ends_scan (account cursor first : string)
  (later : list string) (st : MonitorState) (newest : SigInfo) (older : list SigInfo)
  (h : list Call) (e : exn) :
  last_signature st = Some cursor ->
  truthy cursor = true ->
  env h _ (get_signatures_for_address account (Some cursor) 20) = Ok (newest :: older) ->
  fetched_of_page (Some cursor) (newest :: older) = first :: later ->
  env (call (get_signatures_for_address account (Some cursor) 20) (Ok (newest :: older))
       :: h) _ (get_transaction first) = Raise e ->
  run env (_check_account_transactions valid_address self account st) h
  = (set_last_signature st (signature newest),
     [ call (log ERROR ("Error checking transactions for " +++ account
                        +++ ": " +++ str_of_exn e)) tt;
       call (get_transaction first) (Raise e);
       call (get_signatures_for_address account (Some cursor) 20)
            (Ok (newest :: older)) ]
     ++ h).
Proof.
  intros Hcursor Htruthy Hpage Hplan Hraise.
  unfold _check_account_transactions, trigger. cbn [bind run].
  rewrite Hcursor, Hpage. cbn [truthy_opt]. rewrite Htruthy. cbn [negb].
  rewrite run_bind, scan_skips_cursor.
  unfold fetched_of_page in Hplan. rewrite drop_while_map in Hplan.
  rewrite Hcursor.
  destruct (drop_while (fun r => opt_eqb (Some cursor) (signature r))
              (rev (newest :: older))) as [|sig_info rest] eqn:Edrop;
    [discriminate|].
  cbn [map] in Hplan. injection Hplan as Hfirst _.
  assert (Hne : opt_eqb (Some cursor) (signature sig_info) = false).
  { clear - Edrop. induction (rev (newest :: older)) as [|a l IH]; [discriminate|].
    cbn [drop_while] in Edrop.
    destruct (opt_eqb (Some cursor) (signature a)) eqn:Ea; [exact (IH Edrop)|].
    inversion Edrop. subst. exact Ea. }
  cbn [scan_signatures]. rewrite Hcursor, Hne. unfold trigger. cbn [bind run].
  rewrite Hfirst, Hraise. cbn [bind run fst snd].
  destruct (env _ unit _). reflexivity.
Qed.

(** X24 ([check_for_new_transactions]).  When the hourly refresh is not
    due, a tick leaves the list of monitored token accounts as it is,
    whatever its scans meet. *)
Theorem token_accounts_kept_between_refreshes (st : MonitorState) (h : list Call) :
  refresh_never_due env ->
  token_accounts (fst (run env (check_for_new_transactions valid_address self st) h))
  = token_accounts st.
Proof.
  intros Hnever. unfold check_for_new_transactions.
  rewrite fst_run_bind, fst_run_bind. unfold trigger. cbn [bind run].
  rewrite Hnever. cbn [run fst].
  rewrite (proj1 (check_token_accounts_runs valid_address env self _ _ _)).
  apply check_account_state.
Qed.

Lemma set_neqb_nil (l : list string) : l <> [] -> set_neqb [] l = true.
Proof. destruct l as [|a l]; [congruence|reflexivity]. Qed.

(** X25 ([check_for_new_transactions], [_get_monitored_token_accounts]).
    When the refresh is due and the lookup of the wallet's token accounts
    fails or finds none, the tick ends with an empty list of monitored
    token accounts: the accounts known so far are dropped. *)
Theorem failed_refresh_empties_token_accounts (st : MonitorState) (h : list Call) :
  refresh_always_due env ->
  no_token_accounts env (nexacoin_mint self) (monitored_account self) ->
  token_accounts (fst (run env (check_for_new_transactions valid_address self st) h))
  = [].
Proof.
  intros Hdue Hnone. unfold check_for_new_transactions.
  rewrite fst_run_bind, fst_run_bind. unfold trigger. cbn [bind run].
  rewrite Hdue. rewrite fst_run_bind.
  set (st2 := fst (run env (check_token_accounts valid_address self _ _) _)).
  assert (Hnew : forall h', fst (run env (_get_monitored_token_accounts self) h') = []).
  { intros h'. unfold _get_monitored_token_accounts, try_except, tbind, trigger.
    cbn [bind run]. specialize (Hnone h').
    destruct (env h' _ (get_token_accounts_by_owner (monitored_account self)
                          (nexacoin_mint self))) as [[|a l]|e'];
      [reflexivity|contradiction|reflexivity]. }
  rewrite Hnew.
  destruct (token_accounts st2) as [|a l] eqn:Eacc.
  - cbn [set_neqb forallb andb negb]. cbn [run fst]. exact Eacc.
  - rewrite set_neqb_nil by discriminate. cbn [bind run fst]. reflexivity.
Qed.

End ScanOrder.

(* ================================================================= *)
(** ** The record of the cursor *)

Section CursorFacts.

Variable valid_address : AddressCheck.
Variable env : Env.
Variable self : TransactionMonitor.

(** A scan asks only for records of the part of the page it was given. *)
Lemma scan_signatures_fetches_within (signatures todo : list SigInfo) :
  forall (st : MonitorState) (h : list Call) (s : string),
  In s (fetched_during env (scan_signatures valid_address self signatures todo st) h) ->
  In s (map signature todo).
Proof.
  induction todo as [|sig_info rest IH]; intros st h s; cbn [scan_signatures map].
  - intros [].
  - destruct (opt_eqb (last_signature st) (signature sig_info));
      [intros H; right; exact (IH _ _ _ H)|].
    destruct signatures as [|newest older]; [intros []|].
    unfold trigger, fetched_during. cbn [bind run calls_during].
    rewrite rev_app_distr. cbn [rev app filter_map fetched_signature call_event].
    match goal with
    | |- context [filter_map fetched_signature (rev (calls_during env ?p ?h'))] =>
        change (filter_map fetched_signature (rev (calls_during env p h')))
          with (fetched_during env p h')
    end.
    cbn [In]. intros [H|H]; [left; exact H|right].
    revert H.
    destruct (env h _ (get_transaction (signature sig_info))) as [[transaction|]|e].
    + rewrite fetched_bind.
      rewrite (fetched_none env is_log _ _ log_not_record
                 (classify_emits self _ transaction)).
      cbn [app].
      destruct (fst (run env (classify self _ transaction) _)) as [details|].
      * rewrite fetched_bind.
        rewrite (fetched_none env processor_event _ _ processor_not_record
                   (process_transfer_emits valid_address (transfer_processor self)
                      details)).
        cbn [app]. apply IH.
      * apply IH.
    + apply IH.
    + intros [].
Qed.

(** C3: in a scan made with the cursor set, the record of the page whose id
    is the cursor is discarded: it is never requested from the ledger, so
    that it is neither classified nor passed to the transfer processor,
    which a scan does only with a record it has requested.  The page is one
    that a ledger answers to the request for the page before the cursor: the
    record of the cursor is absent from it or is where the page ends. *)
Theorem cursor_record_discarded (account cursor : string) (st : MonitorState)
  (h : list Call) :
  last_signature st = Some cursor ->
  (forall page,
     env h _ (get_signatures_for_address account (Some cursor) 20) = Ok page ->
     cursor_only_oldest cursor page = true) ->
  ~ In cursor
      (fetched_during env (_check_account_transactions valid_address self account st) h).
Proof.
  intros Hcursor Hpage.
  unfold _check_account_transactions. rewrite fetched_bind.
  unfold trigger, fetched_during at 1. cbn [bind run calls_during fst].
  rewrite rev_app_distr. cbn [rev app filter_map fetched_signature call_event].
  match goal with
  | |- context [filter_map fetched_signature (rev (calls_during env ?p ?h'))] =>
      change (filter_map fetched_signature (rev (calls_during env p h')))
        with (fetched_during env p h')
  end.
  rewrite Hcursor in *.
  destruct (env h _ (get_signatures_for_address account (Some cursor) 20))
    as [page|e] eqn:Epage.
  - specialize (Hpage page eq_refl).
    destruct page as [|newest older].
    + cbn. tauto.
    + destruct (negb (truthy_opt (Some cursor))).
      * cbn. tauto.
      * rewrite (scan_skips_cursor valid_address self). rewrite Hcursor.
        intros Hin. apply in_app_or in Hin. destruct Hin as [Hin|Hin].
        -- apply scan_signatures_fetches_within in Hin.
           apply in_map_iff in Hin. destruct Hin as (r & Hr & Hin).
           unfold cursor_only_oldest in Hpage.
           rewrite forallb_forall in Hpage. specialize (Hpage r Hin).
           rewrite <- Hr, String.eqb_refl in Hpage. discriminate.
        -- revert Hin.
           match goal with
           | |- context [fst (run env ?p ?h')] =>
               destruct (fst (run env p h')) as [[u|e] st']
           end; cbn; tauto.
  - cbn. tauto.
Qed.

End CursorFacts.

Lemma cursor_record_discarded_witness :
  ~ In "A"
      (fetched_during (ledger [] [] page_ending_at_cursor transfer_records)
         (_check_account_transactions any_address example_monitor "Wallet"
            (example_state (Some "A"))) []).
Proof.
  apply (cursor_record_discarded any_address
           (ledger [] [] page_ending_at_cursor transfer_records) example_monitor
           "Wallet" "A" (example_state (Some "A")) []).
  - reflexivity.
  - intros page Hpage. vm_compute in Hpage. inversion Hpage. reflexivity.
Defined.

(** The scan of the page [C], [B], [A] with the cursor at [A]: the record
    [A] is passed over, [B] is requested and processed, and the cursor moves
    to [C]. *)
Example page_ending_at_cursor_scan :
  let calls := trace (ledger [] [] page_ending_at_cursor transfer_records)
                 (_check_account_transactions any_address example_monitor "Wallet"
                    (example_state (Some "A"))) in
  filter_map page_request calls = [("Wallet", Some "A")]
  /\ filter_map fetched_signature calls = ["B"]
  /\ filter (fun entry => String.prefix "Processing transfer" (snd entry))
            (filter_map logged calls)
     = [(INFO, processing_of "B")]
  /\ last_signature
       (outcome (ledger [] [] page_ending_at_cursor transfer_records)
          (_check_account_transactions any_address example_monitor "Wallet"
             (example_state (Some "A"))))
     = Some "C".
Proof. cbv zeta. repeat split; vm_compute; reflexivity. Qed.

(* ================================================================= *)
(** ** Stopping the worker *)

Section StopFacts.

Variable env : Env.
Variable cfg : Config.
Variable sleep_error : float -> option exn.
Variable State : Type.
Variable check : State -> Prog (result bool * State).



End StopFacts.

(* ================================================================= *)
(** ** Splits of any length, and runs of the properties above *)

(** X27 ([split_amount_by_percentage]).  For any list of percentages that
    is not empty, the amounts returned are as many as the percentages and
    sum to the amount; with no percentage at all the function returns the
    empty list for the amount 0 and raises [IndexError] for any other. *)
Theorem split_amount_by_percentage_any_list (amount_in : Z) (percentages : list float) :
  (percentages <> [] ->
   forall amounts, split_amount_by_percentage amount_in percentages = Ok amounts ->
     zsum amounts = amount_in /\ List.length amounts = List.length percentages)
  /\ (percentages = [] ->
      split_amount_by_percentage amount_in percentages
      = if amount_in =? 0
        then Ok []
        else Raise (IndexError "list index out of range")).
Proof.
  split.
  - intros Hne amounts H. exact (split_sum amount_in percentages amounts Hne H).
  - intros ->. unfold split_amount_by_percentage. cbn [shares rbind zsum fold_right].
    rewrite Z.eqb_sym. destruct (amount_in =? 0); reflexivity.
Qed.

Lemma split_amount_by_percentage_any_list_witness :
  zsum [251; 251; 251; 254] = 1007
  /\ List.length [251; 251; 251; 254]
     = List.length [literal 25 0; literal 25 0; literal 25 0; literal 25 0].
Proof.
  apply (proj1 (split_amount_by_percentage_any_list 1007
                  [literal 25 0; literal 25 0; literal 25 0; literal 25 0])).
  - discriminate.
  - vm_compute. reflexivity.
Defined.

Lemma below_threshold_not_redistributed_witness :
  fst (run (ledger [] [] no_pages no_records)
         (process_transfer any_address example_processor (example_transfer 999)) [])
  = false
  /\ calls_of is_log
       (calls_during (ledger [] [] no_pages no_records)
          (process_transfer any_address example_processor (example_transfer 999)) [])
  /\ List.length
       (calls_during (ledger [] [] no_pages no_records)
          (process_transfer any_address example_processor (example_transfer 999)) [])
     = 2%nat.
Proof.
  apply (below_threshold_not_redistributed any_address
           (ledger [] [] no_pages no_records) example_processor
           (example_transfer 999) []).
  reflexivity.
Defined.

Lemma missing_token_account_stops_redistribution_witness :
  fst (run (without_token_accounts ["Treasury"] (ledger [] [] no_pages no_records))
         (_execute_redistribution any_address example_processor "Wallet-token"
            50 704 251) [])
  = false
  /\ calls_of lookup_event
       (calls_during
          (without_token_accounts ["Treasury"] (ledger [] [] no_pages no_records))
          (_execute_redistribution any_address example_processor "Wallet-token"
             50 704 251) []).
Proof.
  apply (missing_token_account_stops_redistribution any_address
           (without_token_accounts ["Treasury"] (ledger [] [] no_pages no_records))
           example_processor "Wallet-token" 50 704 251 []).
  right. left. intros h. vm_compute. exact I.
Defined.


Lemma classify_sound_witness :
  err (example_record "tx1" 2000) = None
  /\ 0 < 2000
  /\ in_list "Wallet-token" (token_accounts (example_state None)) = true.
Proof.
  destruct (classify_sound (ledger [] [] no_pages no_records) example_monitor
              (example_state None) (example_record "tx1" 2000) []
              {| transaction_id := "tx1"; destination := "Wallet-token";
                 amount := 2000; timestamp := 1700000000 |})
    as (Herr & Hpos & Hmon & _).
  - vm_compute. reflexivity.
  - split; [exact Herr|]. split; [exact Hpos|exact Hmon].
Defined.

Lemma record_without_signature_not_reported_witness :
  find_credit example_monitor (example_state None)
    (by_account_index (preTokenBalances unsigned_record))
    (accountKeys unsigned_record)
    (by_account_index (postTokenBalances unsigned_record))
  = Some ("Wallet-token", 2000)
  /\ fst (run (ledger [] [] no_pages no_records)
            (classify example_monitor (example_state None) unsigned_record) [])
     = None.
Proof.
  split; [vm_compute; reflexivity|].
  apply (record_without_signature_not_reported (ledger [] [] no_pages no_records)
           example_monitor (example_state None) unsigned_record []).
  reflexivity.
Defined.

Lemma scan_fetches_oldest_first_witness :
  fetched_during (ledger [] [] page_of_four transfer_records)
    (_check_account_transactions any_address example_monitor "Wallet-token"
       (example_state (Some "A"))) []
  = fetched_of_page (Some "A") (sig_infos ["E"; "D"; "C"; "B"])
  /\ last_signature
       (fst (run (ledger [] [] page_of_four transfer_records)
               (_check_account_transactions any_address example_monitor "Wallet-token"
                  (example_state (Some "A"))) []))
     = match fetched_of_page (Some "A") (sig_infos ["E"; "D"; "C"; "B"]),
             sig_infos ["E"; "D"; "C"; "B"] with
       | _ :: _, newest :: _ => Some (signature newest)
       | _, _ => Some "A"
       end.
Proof.
  apply (scan_fetches_oldest_first any_address
           (ledger [] [] page_of_four transfer_records) example_monitor
           "Wallet-token" "A" (example_state (Some "A"))
           (sig_infos ["E"; "D"; "C"; "B"]) []).
  - intros h sig. eexists. reflexivity.
  - reflexivity.
  - reflexivity.
  - reflexivity.
Defined.

(** Of a page of four new records the three oldest are asked for, oldest
    first, and the newest is not. *)
Example page_of_four_fetches :
  fetched_of_page (Some "A") (sig_infos ["E"; "D"; "C"; "B"]) = ["B"; "C"; "D"]
  /\ fetched_during (ledger [] [] page_of_four transfer_records)
       (_check_account_transactions any_address example_monitor "Wallet-token"
          (example_state (Some "A"))) []
     = ["B"; "C"; "D"].
Proof. split; vm_compute; reflexivity. Qed.

Lemma failed_record_request_ends_scan_witness :
  run (record_down "B" (ledger [] [] page_of_four transfer_records))
    (_check_account_transactions any_address example_monitor "Wallet-token"
       (example_state (Some "A"))) []
  = (set_last_signature (example_state (Some "A")) "E",
     [ call (log ERROR ("Error checking transactions for " +++ "Wallet-token"
                        +++ ": " +++ str_of_exn (RpcError "rpc down"))) tt;
       call (get_transaction "B") (Raise (RpcError "rpc down"));
       call (get_signatures_for_address "Wallet-token" (Some "A") 20)
            (Ok (sig_infos ["E"; "D"; "C"; "B"])) ]
     ++ []).
Proof.
  apply (failed_record_request_ends_scan any_address
           (record_down "B" (ledger [] [] page_of_four transfer_records))
           example_monitor "Wallet-token" "A" "B" ["C"; "D"]
           (example_state (Some "A")) {| signature := "E" |}
           (sig_infos ["D"; "C"; "B"]) [] (RpcError "rpc down")).
  - reflexivity.
  - reflexivity.
  - reflexivity.
  - vm_compute. reflexivity.
  - reflexivity.
Defined.

Lemma token_accounts_kept_between_refreshes_witness :
  token_accounts
    (fst (run (ledger [] [] page_of_four transfer_records)
            (check_for_new_transactions any_address example_monitor
               (example_state (Some "A"))) []))
  = token_accounts (example_state (Some "A")).
Proof.
  apply (token_accounts_kept_between_refreshes any_address
           (ledger [] [] page_of_four transfer_records) example_monitor
           (example_state (Some "A")) []).
  intros h polling_interval. reflexivity.
Defined.

Lemma failed_refresh_empties_token_accounts_witness :
  token_accounts (example_state (Some "A")) = ["Wallet-token"]
  /\ token_accounts
       (fst (run (at_refresh_with_lookups_down (ledger [] [] no_pages no_records))
               (check_for_new_transactions any_address example_monitor
                  (example_state (Some "A"))) []))
     = [].
Proof.
  split; [reflexivity|].
  apply (failed_refresh_empties_token_accounts any_address
           (at_refresh_with_lookups_down (ledger [] [] no_pages no_records))
           example_monitor (example_state (Some "A")) []).
  - intros h polling_interval. reflexivity.
  - intros h. vm_compute. exact I.
Defined.


(** With both intervals at -1.0 the first tick is the last: the sleep of the
    poll interval raises, the sleep of the error-retry interval raises in
    the handler, and [monitor_bot] returns 1. *)
Example negative_intervals_end_the_worker :
  let cfg := with_intervals (literal (-1) 0) (literal (-1) 0) in
  let r := run (ledger [] [] no_pages no_records)
             (monitor_bot_loop (simulated_check cfg) cfg example_sleep_error 3 tt) [] in
  fst (fst r) = Some 1
  /\ filter_map logged (rev (snd r))
     = [ (INFO, "Checking for new transactions on account Wallet");
         (ERROR, "Error in main monitoring loop: sleep length must be non-negative");
         (ERROR, "Error in main monitoring loop: sleep length must be non-negative");
         (CRITICAL, "Fatal error: sleep length must be non-negative");
         (CRITICAL, "Fatal error: sleep length must be non-negative") ]
  /\ filter_map slept (rev (snd r)) = [].
Proof. cbv zeta. repeat split; vm_compute; reflexivity. Qed.
